(** * Site hooks of the nextest documentation: slugs and shortcodes

    A shallow embedding of [site/src/ext/slugs.py] and
    [site/overrides/hooks/shortcodes.py].

    Python strings are sequences of Unicode code points, so a string is a
    list of code points ([N]).  The parts of the Python standard library
    that the two files call, and whose tables are not part of the
    repository, are the fields of the class [PyLib]; the ASCII block of
    every table is written out, so that everything computes on ASCII input
    whatever the rest of the tables is.  The objects of MkDocs are the
    records [File], [Page] and [Files]. *)

From Stdlib Require Import List NArith Arith Bool Lia.
From Stdlib Require Ascii String.
Import ListNotations Ascii.AsciiSyntax String.StringSyntax.

Delimit Scope char_scope with char.
Bind Scope char_scope with Ascii.ascii.
Delimit Scope string_scope with string.
Bind Scope string_scope with String.string.

Set Implicit Arguments.
Local Open Scope list_scope.

(** ** Code points and strings *)

Definition char := N.
Definition str := list char.

Definition ch (a : Ascii.ascii) : char := Ascii.N_of_ascii a.

(** [u "abc"] is the Python literal ["abc"]. *)
Definition u (s : String.string) : str :=
  map ch (String.list_ascii_of_string s).

Definition LF : char := 10%N.
Definition dq : str := [34%N].

Fixpoint str_eqb (a b : str) : bool :=
  match a, b with
  | [], [] => true
  | x :: a', y :: b' => N.eqb x y && str_eqb a' b'
  | _, _ => false
  end.

(** [s.startswith(p)] *)
Fixpoint startswith (p s : str) : bool :=
  match p, s with
  | [], _ => true
  | x :: p', y :: s' => N.eqb x y && startswith p' s'
  | _ :: _, [] => false
  end.

(** Truthiness of a string: [if s]. *)
Definition truthy (s : str) : bool :=
  match s with [] => false | _ :: _ => true end.

(** ** Exceptions *)

Inductive exn : Type :=
| RuntimeError (msg : str)
| ValueError
| AttributeError
| ReError.

Inductive result (A : Type) : Type :=
| OK (a : A)
| Raise (e : exn).
Arguments OK {A} a.
Arguments Raise {A} e.

Definition bind {A B} (m : result A) (f : A -> result B) : result B :=
  match m with
  | OK a => f a
  | Raise e => Raise e
  end.

Notation "x <- m ;; k" := (bind m (fun x => k))
  (at level 61, m at next level, right associativity).

(** Left-to-right evaluation of a list of computations: the first
    exception wins and nothing after it is evaluated. *)
Fixpoint sequence {A} (l : list (result A)) : result (list A) :=
  match l with
  | [] => OK []
  | m :: l' => x <- m ;; xs <- sequence l' ;; OK (x :: xs)
  end.

(** ** The ASCII block of the Unicode tables *)

Definition is_ascii (c : char) : bool := (c <? 128)%N.

(** [Py_UNICODE_ISSPACE] on ASCII: TAB..CR, FS..US and the space. *)
Definition ascii_space (c : char) : bool :=
  ((9 <=? c) && (c <=? 13) || (28 <=? c) && (c <=? 32))%N.

Definition ascii_digit (c : char) : bool := ((48 <=? c) && (c <=? 57))%N.
Definition ascii_upper (c : char) : bool := ((65 <=? c) && (c <=? 90))%N.
Definition ascii_lower (c : char) : bool := ((97 <=? c) && (c <=? 122))%N.

Definition ascii_alnum (c : char) : bool :=
  ascii_digit c || ascii_upper c || ascii_lower c.

Definition ascii_tolower (c : char) : char :=
  if ascii_upper c then (c + 32)%N else c.

(** ** Library functions taken as given

    [uni_*] are the Unicode tables outside the ASCII block, as used by
    [str.isspace], [re] and [unicodedata]; [uni_cased] tells the characters
    that have another case; [uni_lower] and [uni_nfc] work on whole strings
    ([str.lower] is context sensitive and both can change the length).
    [template] is [re]'s parser of a replacement string that contains a
    backslash, for a pattern with so many groups: [None] when it raises
    [re.error], otherwise the function from the matched text and its
    groups to the replacement.  [relpath] is [posixpath.relpath], on the
    source paths of two files of the site, which are never empty. *)
Class PyLib : Type := {
  uni_space : char -> bool;
  uni_alnum : char -> bool;
  uni_decimal : char -> bool;
  uni_tolower : char -> char;
  uni_cased : char -> bool;
  uni_lower : str -> str;
  uni_nfc : str -> str;
  template : nat -> str -> option (str -> list str -> str);
  relpath : str -> str -> str
}.

(** ** MkDocs objects

    Of a file the code reads [src_uri], of a page [file]. *)

Record File : Type := { src_uri : str }.
Record Page : Type := { file : File }.

(** [Files.get_file_from_path] returns [None] for an unknown path. *)
Record Files : Type := { get_file_from_path : str -> option File }.

(** ** Python's string methods *)

Section Strings.
Context {L : PyLib}.

Definition isspace (c : char) : bool :=
  if is_ascii c then ascii_space c else uni_space c.

Definition isalnum (c : char) : bool :=
  if is_ascii c then ascii_alnum c else uni_alnum c.

Definition isdecimal (c : char) : bool :=
  if is_ascii c then ascii_digit c else uni_decimal c.

(** The simple lower-case mapping that [re.IGNORECASE] compares with. *)
Definition tolower (c : char) : char :=
  if is_ascii c then ascii_tolower c else uni_tolower c.

(** A character with another case: [re.IGNORECASE] changes nothing for
    the others. *)
Definition iscased (c : char) : bool :=
  if is_ascii c then ascii_upper c || ascii_lower c else uni_cased c.

(** [s.lower()] *)
Definition lower (s : str) : str :=
  if forallb is_ascii s then map ascii_tolower s else uni_lower s.

(** [unicodedata.normalize('NFC', s)]: an ASCII string is its own
    normal form. *)
Definition normalize_NFC (s : str) : str :=
  if forallb is_ascii s then s else uni_nfc s.

Fixpoint lstrip (s : str) : str :=
  match s with
  | c :: s' => if isspace c then lstrip s' else s
  | [] => []
  end.

Definition rstrip (s : str) : str := rev (lstrip (rev s)).

(** [s.strip()] *)
Definition strip (s : str) : str := rstrip (lstrip s).

(** [sep.join(l)] *)
Fixpoint join (sep : str) (l : list str) : str :=
  match l with
  | [] => []
  | [x] => x
  | x :: l' => x ++ sep ++ join sep l'
  end.

Definition cons_head (c : char) (l : list str) : list str :=
  match l with
  | p :: ps => (c :: p) :: ps
  | [] => [[c]]
  end.

(** A bound that may be absent: is one more allowed, and the bound after
    one was used. *)
Definition more (n : option nat) : bool :=
  match n with Some 0 => false | _ => true end.

Definition fewer (n : option nat) : option nat :=
  match n with Some k => Some (pred k) | None => None end.

(** The scan of [s.split(sep, maxsplit)] for a non-empty [sep]:
    occurrences of [sep] are taken from the left and do not overlap;
    [skip] counts the characters of the current occurrence still to pass. *)
Fixpoint split_go (sep : str) (n : option nat) (skip : nat) (s : str)
  : list str :=
  match s with
  | [] => [[]]
  | c :: s' =>
      match skip with
      | S k => split_go sep n k s'
      | 0 =>
          if more n && startswith sep s
          then [] :: split_go sep (fewer n) (pred (length sep)) s'
          else cons_head c (split_go sep n 0 s')
      end
  end.

(** [s.split(sep)] and [s.split(sep, n)] with a separator that is a
    non-empty literal in the source. *)
Definition split_on (sep : str) (n : option nat) (s : str) : list str :=
  split_go sep n 0 s.

(** [s.split(sep)] with a separator chosen by the caller: an empty
    separator raises [ValueError]. *)
Definition split (s sep : str) : result (list str) :=
  match sep with
  | [] => Raise ValueError
  | _ :: _ => OK (split_on sep None s)
  end.

End Strings.

(** ** Regular expressions

    The patterns of the two files are sequences of quantified single
    characters and character sets with capture groups around some of
    them, so this is the fragment of [re] that is embedded, with the
    backtracking order of the library: a greedy quantifier tries the
    longest run first, a lazy one the shortest. *)

Inductive atom : Type :=
| Chr (c : char)      (* a literal character *)
| Dot                 (* [.] without DOTALL *)
| Word                (* [\w] *)
| Digit               (* [\d] *)
| Space.              (* [\s] *)

Inductive cclass : Type :=
| One (a : atom)
| AnyOf (l : list atom)      (* [[...]] *)
| NoneOf (l : list atom).    (* [[^...]] *)

Inductive greed : Type := Greedy | Lazy.

Inductive node : Type :=
| Rep (c : cclass) (lo : nat) (hi : option nat) (g : greed)
| Open (g : nat)
| Close (g : nat).

Definition regex := list node.

Definition Lit (a : Ascii.ascii) : node :=
  Rep (One (Chr (ch a))) 1 (Some 1) Greedy.
Definition Once (c : cclass) : node := Rep c 1 (Some 1) Greedy.
Definition Opt (c : cclass) : node := Rep c 0 (Some 1) Greedy.
Definition Star (c : cclass) : node := Rep c 0 None Greedy.
Definition Plus (c : cclass) : node := Rep c 1 None Greedy.
Definition StarLazy (c : cclass) : node := Rep c 0 None Lazy.
Definition Times (n : nat) (c : cclass) : node := Rep c n (Some n) Greedy.

(** A literal string in a pattern. *)
Definition Lits (s : String.string) : regex :=
  map Lit (String.list_ascii_of_string s).

(** Spans of the groups: the open marks and the closed groups, both by
    group number, as offsets from the start of the match. *)
Record mstate : Type := {
  marks : list (nat * nat);
  spans : list (nat * (nat * nat))
}.

Definition mstate0 : mstate := {| marks := []; spans := [] |}.

Fixpoint assoc {A} (g : nat) (l : list (nat * A)) : option A :=
  match l with
  | [] => None
  | (h, a) :: l' => if Nat.eqb g h then Some a else assoc g l'
  end.

Definition mark (g i : nat) (st : mstate) : mstate :=
  {| marks := (g, i) :: marks st; spans := spans st |}.

Definition close (g i : nat) (st : mstate) : mstate :=
  match assoc g (marks st) with
  | Some b => {| marks := marks st; spans := (g, (b, i)) :: spans st |}
  | None => st
  end.

(** A match object: where the match ends and the spans of its groups. *)
Record Match : Type := { m_end : nat; m_spans : list (nat * (nat * nat)) }.

Definition slice (a b : nat) (s : str) : str := firstn (b - a) (skipn a s).

(** [m.group(g)], on the text [s] that starts where the match starts. *)
Definition group (s : str) (m : Match) (g : nat) : str :=
  match assoc g (m_spans m) with
  | Some (a, b) => slice a b s
  | None => []
  end.

Fixpoint ngroups (r : regex) : nat :=
  match r with
  | [] => 0
  | Open _ :: r' => S (ngroups r')
  | _ :: r' => ngroups r'
  end.

(** [m.groups()] *)
Definition groups (r : regex) (s : str) (m : Match) : list str :=
  map (group s m) (seq 1 (ngroups r)).

Section Re.
Context {L : PyLib}.

Definition accepts (ic : bool) (a : atom) (x : char) : bool :=
  match a with
  | Chr c =>
      if ic && iscased c then N.eqb (tolower x) (tolower c) else N.eqb x c
  | Dot => negb (N.eqb x LF)
  | Word => isalnum x || N.eqb x (ch "_")
  | Digit => isdecimal x
  | Space => isspace x
  end.

Definition in_class (ic : bool) (c : cclass) (x : char) : bool :=
  match c with
  | One a => accepts ic a x
  | AnyOf l => existsb (fun a => accepts ic a x) l
  | NoneOf l => negb (existsb (fun a => accepts ic a x) l)
  end.

Section Matcher.
Variable R : Type.
Variable p : char -> bool.
Variable k : nat -> str -> option R.

(** [x{lo,hi}] followed by [k]: as many [x] as possible, then one less
    on failure, never fewer than [lo]. *)
Fixpoint rep_greedy (lo : nat) (hi : option nat) (i : nat) (s : str)
  : option R :=
  let stop := if Nat.eqb lo 0 then k i s else None in
  match s with
  | c :: s' =>
      if more hi && p c then
        match rep_greedy (pred lo) (fewer hi) (S i) s' with
        | Some r => Some r
        | None => stop
        end
      else stop
  | [] => stop
  end.

(** [x{lo,hi}?] followed by [k]: [lo] times [x], then one more on
    failure. *)
Fixpoint rep_lazy (lo : nat) (hi : option nat) (i : nat) (s : str)
  : option R :=
  match (if Nat.eqb lo 0 then k i s else None) with
  | Some r => Some r
  | None =>
      match s with
      | c :: s' =>
          if more hi && p c then rep_lazy (pred lo) (fewer hi) (S i) s'
          else None
      | [] => None
      end
  end.

End Matcher.

(** The matcher: [run ic r k st i s] matches [r] at the head of [s], which
    is [i] characters into the match, and hands over to [k]. *)
Fixpoint run {R} (ic : bool) (r : regex)
    (k : mstate -> nat -> str -> option R)
    (st : mstate) (i : nat) (s : str) : option R :=
  match r with
  | [] => k st i s
  | Rep c lo hi Greedy :: r' =>
      rep_greedy (in_class ic c) (run ic r' k st) lo hi i s
  | Rep c lo hi Lazy :: r' =>
      rep_lazy (in_class ic c) (run ic r' k st) lo hi i s
  | Open g :: r' => run ic r' k (mark g i st) i s
  | Close g :: r' => run ic r' k (close g i st) i s
  end.

(** A match of [r] that starts at the head of [s]; with [adv] an empty
    match is refused (the library's [must_advance]). *)
Definition match_at (ic : bool) (r : regex) (adv : bool) (s : str)
  : option Match :=
  run ic r
    (fun st i _ =>
       if adv && Nat.eqb i 0 then None
       else Some {| m_end := i; m_spans := spans st |})
    mstate0 0 s.

(** [re.match(r, s)] *)
Definition re_match (ic : bool) (r : regex) (s : str) : option Match :=
  match_at ic r false s.

(** What a left-to-right scan of the text finds: characters outside every
    match, and matches with their text and groups. *)
Inductive seg : Type :=
| Txt (c : char)
| Hit (whole : str) (gs : list str).

Definition hit (r : regex) (s : str) (m : Match) : seg :=
  Hit (firstn (m_end m) s) (groups r s m).

(** The matches of [re.sub], [re.split] and [re.finditer]: leftmost first,
    not overlapping; after an empty match the search goes on at the same
    place for a match that is not empty.  [skip] counts the characters of
    the current match still to pass. *)
Fixpoint scan (ic : bool) (r : regex) (skip : nat) (s : str) : list seg :=
  match skip with
  | S n =>
      match s with
      | [] => []
      | _ :: s' => scan ic r n s'
      end
  | 0 =>
      let after (m : Match) : list seg :=
        match s with
        | [] => []
        | _ :: s' => scan ic r (pred (m_end m)) s'
        end in
      let onward : list seg :=
        match s with
        | [] => []
        | c :: s' => Txt c :: scan ic r 0 s'
        end in
      match match_at ic r false s with
      | None => onward
      | Some m =>
          match m_end m with
          | S _ => hit r s m :: after m
          | 0 =>
              hit r s m ::
              match match_at ic r true s with
              | Some m' => hit r s m' :: after m'
              | None => onward
              end
          end
      end
  end.

Definition expand (repl : str -> list str -> result str) (x : seg)
  : result str :=
  match x with
  | Txt c => OK [c]
  | Hit w gs => repl w gs
  end.

(** [re.sub(r, repl, s)] with a function [repl] of the match, which may
    raise. *)
Definition re_sub_with (ic : bool) (r : regex)
    (repl : str -> list str -> result str) (s : str) : result str :=
  parts <- sequence (map (expand repl) (scan ic r 0 s)) ;;
  OK (concat parts).

(** [re.sub(r, repl, s)] with a string [repl]: taken as it is when it has
    no backslash, parsed as a template otherwise, before any match is
    looked for. *)
Definition re_sub (ic : bool) (r : regex) (repl : str) (s : str)
  : result str :=
  if existsb (N.eqb (ch "\")) repl then
    match template (ngroups r) repl with
    | Some f => re_sub_with ic r (fun w gs => OK (f w gs)) s
    | None => Raise ReError
    end
  else re_sub_with ic r (fun _ _ => OK repl) s.

(** [re.split(r, s)] for a pattern without groups: the pieces between
    the matches. *)
Fixpoint pieces (l : list seg) : list str :=
  match l with
  | [] => [[]]
  | Txt c :: l' => cons_head c (pieces l')
  | Hit _ _ :: l' => [] :: pieces l'
  end.

Definition re_split (ic : bool) (r : regex) (s : str) : list str :=
  pieces (scan ic r 0 s).

End Re.

(** ** [site/src/ext/slugs.py] *)

Module Slugs.
Section Slugs.
Context {L : PyLib}.

(** [r'</?[^>]*>'] *)
Definition RE_HTML_TAGS : regex :=
  [Lit "<"; Opt (One (Chr (ch "/"))); Star (NoneOf [Chr (ch ">")]); Lit ">"].

(** [r'[^\w\- ]'] *)
Definition RE_INVALID_SLUG_CHAR : regex :=
  [Once (NoneOf [Word; Chr (ch "-"); Chr (ch " ")])].

(** [r'\s'] *)
Definition RE_WHITESPACE : regex := [Once (One Space)].

(** [r'(.*?) - \d{4}-\d{2}-\d{2}'], the pattern of a changelog heading. *)
Definition RE_CHANGELOG : regex :=
  [Open 1; StarLazy (One Dot); Close 1] ++ Lits " - " ++
  [Times 4 (One Digit); Lit "-"; Times 2 (One Digit); Lit "-";
   Times 2 (One Digit)].

Definition _make_slug (text sep : str) : result str :=
  match re_match false RE_CHANGELOG text with
  | Some m => OK (strip (group text m 1))
  | None =>
      let slug := normalize_NFC text in
      slug <- re_sub false RE_HTML_TAGS [] slug ;;
      slug <- re_sub false RE_INVALID_SLUG_CHAR [] slug ;;
      let slug := lower (strip slug) in
      re_sub false RE_WHITESPACE sep slug
  end.

Definition _make_slug_short (text sep : str) : result str :=
  slug <- _make_slug text sep ;;
  words <- split slug sep ;;
  OK (join sep (firstn 5 words)).

End Slugs.
End Slugs.

(** ** [site/overrides/hooks/shortcodes.py] *)

Module Shortcodes.
Section Shortcodes.
Context {L : PyLib}.

(** [posixpath.sep] *)
Definition sep : str := u "/".

Definition _resolve (f : File) (page : Page) : str :=
  let path := relpath (src_uri f) (src_uri (file page)) in
  join sep (tl (split_on sep None path)).

Definition _resolve_path (path : str) (page : Page) (files : Files)
  : result str :=
  match split_on (u "#") None (path ++ u "#") with
  | path :: anchor :: _ =>
      match get_file_from_path files path with
      | Some f =>
          let path := _resolve f page in
          OK (if truthy anchor then join (u "#") [path; anchor] else path)
      | None => Raise AttributeError
      end
  | _ => Raise ValueError
  end.

Definition _badge (icon text type : str) : str :=
  let classes :=
    if truthy type then u "mdx-badge mdx-badge--" ++ type
    else u "mdx-badge" in
  concat
    ([u "<span class=" ++ dq ++ classes ++ dq ++ u ">"] ++
     (if truthy icon
      then [u "<span class=" ++ dq ++ u "mdx-badge__icon" ++ dq ++ u ">"
            ++ icon ++ u "</span>"]
      else []) ++
     (if truthy text
      then [u "<span class=" ++ dq ++ u "mdx-badge__text" ++ dq ++ u ">"
            ++ text ++ u "</span>"]
      else []) ++
     [u "</span>"]).

Definition _badge_for_version (text : str) (page : Page) (files : Files)
  : result str :=
  let spec := text in
  let path := u "changelog.md#" ++ spec in
  let icon := u "material-tag-outline" in
  link <- (if truthy spec
           then p <- _resolve_path path page files ;;
                OK (u "[" ++ text ++ u "](" ++ p ++ u ")")
           else OK []) ;;
  OK (_badge (u "[:" ++ icon ++ u ":]('Minimum nextest version')") link []).

Definition _badge_for_metadata (page : Page) (files : Files) : result str :=
  let icon := u "material-list-box-outline" in
  href <- _resolve_path (u "conventions.md#metadata") page files ;;
  OK (_badge (u "[:" ++ icon ++ u ":](" ++ href ++ u " 'Metadata property')")
        [] []).

Definition _badge_for_required (page : Page) (files : Files) : result str :=
  let icon := u "material-alert" in
  href <- _resolve_path (u "conventions.md#required") page files ;;
  OK (_badge (u "[:" ++ icon ++ u ":](" ++ href ++ u " 'Required value')")
        [] []).

Definition _badge_for_customization (page : Page) (files : Files)
  : result str :=
  let icon := u "material-brush-variant" in
  href <- _resolve_path (u "conventions.md#customization") page files ;;
  OK (_badge (u "[:" ++ icon ++ u ":](" ++ href ++ u " 'Customization')")
        [] []).

Definition _badge_for_multiple (page : Page) (files : Files) : result str :=
  let icon := u "material-inbox-multiple" in
  href <- _resolve_path (u "conventions.md#multiple-instances") page files ;;
  OK (_badge (u "[:" ++ icon ++ u ":](" ++ href ++ u " 'Multiple instances')")
        [] []).

Definition _badge_for_experimental (page : Page) (files : Files)
  : result str :=
  let icon := u "material-flask-outline" in
  OK (_badge (u ":" ++ icon ++ u ":") [] []).

Definition flag (args : str) (page : Page) (files : Files) : result str :=
  match split_on (u " ") (Some 1) args with
  | type :: _ =>
      if str_eqb type (u "experimental")
      then _badge_for_experimental page files
      else if str_eqb type (u "required")
      then _badge_for_required page files
      else if str_eqb type (u "customization")
      then _badge_for_customization page files
      else if str_eqb type (u "metadata")
      then _badge_for_metadata page files
      else if str_eqb type (u "multiple")
      then _badge_for_multiple page files
      else Raise (RuntimeError (u "Unknown type: " ++ type))
  | [] => Raise ValueError
  end.

(** [_, *_, name = l]: at least two items, the last one is kept. *)
Definition unpack_last (l : list str) : result str :=
  match l with
  | _ :: _ :: _ => OK (last l [])
  | _ => Raise ValueError
  end.

(** [r"[.:]"] and [r"[.*]"] *)
Definition RE_OPTION_SEP : regex :=
  [Once (AnyOf [Chr (ch "."); Chr (ch ":")])].
Definition RE_SETTING_SEP : regex :=
  [Once (AnyOf [Chr (ch "."); Chr (ch "*")])].

Definition option (type : str) : result str :=
  name <- unpack_last (re_split false RE_OPTION_SEP type) ;;
  OK (u "[`" ++ name ++ u "`](#+" ++ type ++ u "){ #+" ++ type ++ u " }"
      ++ [LF; LF]).

Definition setting (type : str) : result str :=
  name <- unpack_last (re_split false RE_SETTING_SEP type) ;;
  OK (u "`" ++ name ++ u "` { #" ++ type ++ u " }" ++ [LF; LF]
      ++ u "[" ++ type ++ u "]: #" ++ type ++ [LF; LF]).

(** [r"<!-- md:(\w+)(.*?) -->"], compiled with [re.I | re.M]; the
    pattern has no [^] and no [$], which is all that [re.M] changes. *)
Definition RE_SHORTCODE : regex :=
  Lits "<!-- md:" ++
  [Open 1; Plus (One Word); Close 1; Open 2; StarLazy (One Dot); Close 2] ++
  Lits " -->".

(** The callback [replace] of [on_page_markdown], on [match.groups()]. *)
Definition replace (page : Page) (files : Files) (gs : list str)
  : result str :=
  match gs with
  | [type; args] =>
      let args := strip args in
      if str_eqb type (u "version")
      then _badge_for_version args page files
      else if str_eqb type (u "flag") then flag args page files
      else if str_eqb type (u "option") then option args
      else if str_eqb type (u "setting") then setting args
      else Raise (RuntimeError (u "Unknown shortcode: " ++ type))
  | _ => Raise ValueError
  end.

Definition on_page_markdown (markdown : str) (page : Page) (files : Files)
  : result str :=
  re_sub_with true RE_SHORTCODE (fun _ gs => replace page files gs) markdown.

End Shortcodes.
End Shortcodes.

(** ** A concrete library, to run the code

    Outside the ASCII block these tables know nothing: no code point is
    white space, a letter or a digit, none has a case mapping or a
    composition, and every template with a backslash is refused.  On ASCII
    text without a backslash in the separator the code never consults them.
    [posix_relpath] is [posixpath.relpath] on normalised relative paths:
    one [..] for each component of [start] after the common prefix, then
    the rest of [path]. *)

Fixpoint common (a b : list str) : nat :=
  match a, b with
  | x :: a', y :: b' => if str_eqb x y then S (common a' b') else 0
  | _, _ => 0
  end.

Definition posix_relpath (path start : str) : str :=
  let start_list := filter truthy (split_go (u "/") None 0 start) in
  let path_list := filter truthy (split_go (u "/") None 0 path) in
  let i := common start_list path_list in
  let rel_list :=
    repeat (u "..") (length start_list - i) ++ skipn i path_list in
  match rel_list with
  | [] => u "."
  | _ :: _ => join (u "/") rel_list
  end.

Definition Plain : PyLib := {|
  uni_space := fun _ => false;
  uni_alnum := fun _ => false;
  uni_decimal := fun _ => false;
  uni_tolower := fun c => c;
  uni_cased := fun _ => false;
  uni_lower := fun s => s;
  uni_nfc := fun s => s;
  template := fun _ _ => None;
  relpath := posix_relpath
|}.

(** A few entries of the real tables on top of [Plain]: U+0130, the
    capital I with a dot above, is a letter, and its lower case is [i]
    followed by U+0307, the combining dot above, which is a mark and not a
    word character (the two make no composed character); the template
    [\n] stands for a line feed. *)
Definition Excerpt : PyLib := {|
  uni_space := fun _ => false;
  uni_alnum := fun c => N.eqb c 304;
  uni_decimal := fun _ => false;
  uni_tolower := fun c => if N.eqb c 304 then 105%N else c;
  uni_cased := fun c => N.eqb c 304;
  uni_lower :=
    flat_map (fun c => if N.eqb c 304 then [105%N; 775%N]
                       else [ascii_tolower c]);
  uni_nfc := fun s => s;
  template := fun _ t =>
    if str_eqb t (u "\n") then Some (fun _ _ => [LF]) else None;
  relpath := posix_relpath
|}.

(** A site with [changelog.md] and [conventions.md] at its root and a
    page in [docs/]. *)
Definition site_files : Files := {|
  get_file_from_path := fun p =>
    if str_eqb p (u "changelog.md") || str_eqb p (u "conventions.md")
    then Some {| src_uri := p |}
    else None
|}.

Definition changelog_file : File := {| src_uri := u "changelog.md" |}.
Definition conventions_file : File := {| src_uri := u "conventions.md" |}.

Definition site_page : Page :=
  {| file := {| src_uri := u "docs/running.md" |} |}.

(** A site without files. *)
Definition empty_site : Files := {| get_file_from_path := fun _ => None |}.

(** ** The steps of the specification, written out directly *)

Section Steps.
Context {L : PyLib}.

(** Removal of the tag-like substrings [<...>]: a [<] that has a [>]
    somewhere after it opens a tag, which ends at the first [>]. *)
Fixpoint strip_tags (intag : bool) (s : str) : str :=
  match s with
  | [] => []
  | c :: s' =>
      if intag then
        if N.eqb c (ch ">") then strip_tags false s' else strip_tags true s'
      else if N.eqb c (ch "<") && existsb (N.eqb (ch ">")) s'
      then strip_tags true s'
      else c :: strip_tags false s'
  end.

(** A word character, a hyphen or a space. *)
Definition slug_char (c : char) : bool :=
  (isalnum c || N.eqb c (ch "_")) || N.eqb c (ch "-") || N.eqb c (ch " ").

Definition keep_slug_chars (s : str) : str := filter slug_char s.

(** Every white-space character becomes one copy of the separator. *)
Definition sep_for_each_space (sep s : str) : str :=
  flat_map (fun c => if isspace c then sep else [c]) s.

(** Every run of white space becomes one copy of the separator. *)
Fixpoint sep_for_runs (sep : str) (inrun : bool) (s : str) : str :=
  match s with
  | [] => []
  | c :: s' =>
      if isspace c
      then (if inrun then [] else sep) ++ sep_for_runs sep true s'
      else c :: sep_for_runs sep false s'
  end.

Definition slug_steps (text sep : str) : str :=
  sep_for_each_space sep
    (lower (strip (keep_slug_chars (strip_tags false (normalize_NFC text))))).

Definition slug_steps_runs (text sep : str) : str :=
  sep_for_runs sep false
    (lower (strip (keep_slug_chars (strip_tags false (normalize_NFC text))))).

(** The text starts with [ - dddd-dd-dd]. *)
Definition dated (s : str) : bool :=
  match s with
  | a :: b :: c :: y1 :: y2 :: y3 :: y4 :: h1 :: m1 :: m2 :: h2 :: d1 :: d2
    :: _ =>
      N.eqb a (ch " ") && N.eqb b (ch "-") && N.eqb c (ch " ") &&
      isdecimal y1 && isdecimal y2 && isdecimal y3 && isdecimal y4 &&
      N.eqb h1 (ch "-") && isdecimal m1 && isdecimal m2 &&
      N.eqb h2 (ch "-") && isdecimal d1 && isdecimal d2
  | _ => false
  end.

(** [n] decimal digits. *)
Definition is_digits (n : nat) (s : str) : bool :=
  Nat.eqb (length s) n && forallb isdecimal s.

(** The title of a changelog heading: what stands before the first
    [ - dddd-dd-dd], on the first line of the text. *)
Fixpoint changelog_title (s : str) : option str :=
  if dated s then Some []
  else
    match s with
    | [] => None
    | c :: s' =>
        if N.eqb c LF then None
        else
          match changelog_title s' with
          | Some t => Some (c :: t)
          | None => None
          end
    end.

(** A character that a slug made with a hyphen consists of: an ASCII
    lower-case letter, a digit, an underscore or a hyphen. *)
Definition stable_char (c : char) : bool :=
  ascii_lower c || ascii_digit c || N.eqb c (ch "_") || N.eqb c (ch "-").

(** The offset of the first [c] in [s]. *)
Fixpoint first_index (c : char) (s : str) : option nat :=
  match s with
  | [] => None
  | x :: s' =>
      if N.eqb x c then Some 0
      else
        match first_index c s' with
        | Some n => Some (S n)
        | None => None
        end
  end.

(** The text before the first [c], and the text after it. *)
Fixpoint before (c : char) (s : str) : str :=
  match s with
  | [] => []
  | x :: s' => if N.eqb x c then [] else x :: before c s'
  end.

Fixpoint after (c : char) (s : str) : str :=
  match s with
  | [] => []
  | x :: s' => if N.eqb x c then s' else after c s'
  end.

(** The length of the shortest text that a pattern can match. *)
Fixpoint min_len (r : regex) : nat :=
  match r with
  | [] => 0
  | Rep _ lo _ _ :: r' => lo + min_len r'
  | _ :: r' => min_len r'
  end.

(** The text that a part of the scan stands for. *)
Definition seg_src (x : seg) : str :=
  match x with
  | Txt c => [c]
  | Hit w _ => w
  end.

Definition succeeds {A} (m : result A) : bool :=
  match m with OK _ => true | Raise _ => false end.

(** The output of [re.sub] with a constant replacement, from the scan. *)
Definition subst (repl : str) (l : list seg) : str :=
  flat_map (fun x => match x with Txt c => [c] | Hit _ _ => repl end) l.

End Steps.

(** ** Shortcodes: the names that are known, and what expansion does
    to a page *)

Section ShortcodeSpec.
Context {L : PyLib}.

Definition known_tag (tag : str) : bool :=
  str_eqb tag (u "version") || str_eqb tag (u "flag") ||
  str_eqb tag (u "option") || str_eqb tag (u "setting").

Definition known_flag (type : str) : bool :=
  str_eqb type (u "experimental") || str_eqb type (u "required") ||
  str_eqb type (u "customization") || str_eqb type (u "metadata") ||
  str_eqb type (u "multiple").

Definition option_sep (c : char) : bool :=
  N.eqb c (ch ".") || N.eqb c (ch ":").

Definition setting_sep (c : char) : bool :=
  N.eqb c (ch ".") || N.eqb c (ch "*").

Definition word_char (c : char) : bool := isalnum c || N.eqb c (ch "_").

(** The message of the error for a tag, or for the first word of the
    argument of a flag, that is not known. *)
Definition offending (tag args : str) : option str :=
  if str_eqb tag (u "flag") then
    let type := before (ch " ") (strip args) in
    if known_flag type then None else Some (u "Unknown type: " ++ type)
  else if known_tag tag then None
  else Some (u "Unknown shortcode: " ++ tag).

(** [<!-- md:], with [md] in either case. *)
Definition is_opener (o : str) : bool :=
  match o with
  | [a; b; c; d; e; m; dd; f] =>
      str_eqb [a; b; c; d; e] (u "<!-- ") &&
      N.eqb (tolower m) (ch "m") && N.eqb (tolower dd) (ch "d") &&
      N.eqb f (ch ":")
  | _ => false
  end.

(** An argument that the lazy [(.*?)] takes whole when [ -->] comes
    after it: text on one line without [>], which is empty or starts with
    a character that cannot go on the tag. *)
Definition arg_char (c : char) : bool :=
  negb (N.eqb c LF) && negb (N.eqb c (ch ">")).

Definition arg_text (args : str) : bool :=
  match args with
  | [] => true
  | c :: _ => negb (word_char c)
  end && forallb arg_char args.

End ShortcodeSpec.

(** ** Pages: where a shortcode can start, and the flags that link *)

Section PageSpec.
Context {L : PyLib}.

(** A shortcode opener stands somewhere in the text. *)
Fixpoint has_opener (s : str) : bool :=
  match s with
  | [] => false
  | _ :: s' => is_opener (firstn 8 s) || has_opener s'
  end.

(** [p] occurs in [s]. *)
Fixpoint occurs (p s : str) : bool :=
  startswith p s ||
  match s with
  | [] => false
  | _ :: s' => occurs p s'
  end.

(** A place where a shortcode comment can start: an opener, with a
    closing [ -->] after it on the same line. *)
Definition may_start (s : str) : bool :=
  is_opener (firstn 8 s) && occurs (u " -->") (before LF s).

Fixpoint has_start (s : str) : bool :=
  match s with
  | [] => false
  | _ :: s' => may_start s || has_start s'
  end.

(** The four flags that link to the conventions page: the icon, the
    anchor on that page and the tooltip of each. *)
Definition linked_flag (type : str) : option (str * str * str) :=
  if str_eqb type (u "required")
  then Some (u "material-alert", u "required", u "Required value")
  else if str_eqb type (u "customization")
  then Some (u "material-brush-variant", u "customization",
             u "Customization")
  else if str_eqb type (u "metadata")
  then Some (u "material-list-box-outline", u "metadata",
             u "Metadata property")
  else if str_eqb type (u "multiple")
  then Some (u "material-inbox-multiple", u "multiple-instances",
             u "Multiple instances")
  else None.

End PageSpec.

(** ** A page as a sequence of characters and shortcode comments *)

Section ExpansionSpec.
Context {L : PyLib}.

(** The longest run of word characters at the head of the text. *)
Fixpoint word_run (s : str) : str :=
  match s with
  | c :: s' => if word_char c then c :: word_run s' else []
  | [] => []
  end.

(** The offset of the first [ -->] of the text, when no line feed stands
    in front of it. *)
Fixpoint find_closer (s : str) : option nat :=
  if startswith (u " -->") s then Some 0
  else
    match s with
    | [] => None
    | c :: s' =>
        if N.eqb c LF then None
        else
          match find_closer s' with
          | Some j => Some (S j)
          | None => None
          end
    end.

(** The shortcode comment that starts at the head of the text: an opener,
    the longest run of word characters after it, which is the tag and is
    not empty, and the text up to the first [ -->] on the same line, which
    is the argument.  The result is the tag, the argument and the length
    of the comment. *)
Definition comment_at (s : str) : option (str * str * nat) :=
  if is_opener (firstn 8 s) then
    let body := skipn 8 s in
    let tag := word_run body in
    let r := skipn (length tag) body in
    match tag, find_closer r with
    | _ :: _, Some j => Some (tag, firstn j r, 8 + length tag + j + 4)
    | _, _ => None
    end
  else None.

(** A page read from left to right: a character outside the shortcode
    comments, or a shortcode comment with its text, tag and argument. *)
Inductive part : Type :=
| Keep (c : char)
| Comment (whole tag args : str).

(** [skip] counts the characters of the current comment still to pass. *)
Fixpoint parts (skip : nat) (s : str) : list part :=
  match s with
  | [] => []
  | c :: s' =>
      match skip with
      | S k => parts k s'
      | 0 =>
          match comment_at s with
          | Some (tag, args, n) =>
              Comment (firstn n s) tag args :: parts (pred n) s'
          | None => Keep c :: parts 0 s'
          end
      end
  end.

(** The text of a part in the page, and what it becomes. *)
Definition part_src (p : part) : str :=
  match p with
  | Keep c => [c]
  | Comment whole _ _ => whole
  end.

Definition render (page : Page) (files : Files) (p : part) : result str :=
  match p with
  | Keep c => OK [c]
  | Comment _ tag args => Shortcodes.replace page files [tag; args]
  end.

(** The part as the scan of the pattern gives it. *)
Definition seg_of (p : part) : seg :=
  match p with
  | Keep c => Txt c
  | Comment whole tag args => Hit whole [tag; args]
  end.

(** A comment is an opener, a tag of word characters, an argument on the
    same line and [ -->]. *)
Definition well_formed (p : part) : Prop :=
  match p with
  | Keep _ => True
  | Comment whole tag args =>
      exists opener,
        is_opener opener = true /\
        whole = opener ++ tag ++ args ++ u " -->" /\
        tag <> [] /\ forallb word_char tag = true /\
        forallb (fun c => negb (N.eqb c LF)) args = true
  end.

End ExpansionSpec.

(** ** Tactics for the character tables *)

(** [ch_values] replaces the character literals by their code points,
    [bcase] decides comparisons of code points by cases. *)
Ltac ch_values :=
  repeat match goal with
         | |- context [ch ?a] =>
             let v := eval vm_compute in (ch a) in change (ch a) with v
         | H : context [ch ?a] |- _ =>
             let v := eval vm_compute in (ch a) in change (ch a) with v in H
         end;
  unfold LF in *.

Ltac bcase :=
  repeat match goal with
         | |- context [N.leb ?a ?b] =>
             destruct (N.leb_spec a b); cbn [andb orb negb]; try lia
         | |- context [N.ltb ?a ?b] =>
             destruct (N.ltb_spec a b); cbn [andb orb negb]; try lia
         | |- context [N.eqb ?a ?b] =>
             destruct (N.eqb_spec a b); cbn [andb orb negb]; try lia
         end;
  cbn; try reflexivity; try lia.

(** ** Tactics for the matcher

    [lit_step once H c E] takes one literal character off a successful
    match [H], with [once] the equation of a single character;
    [exact_char E c v] records that the character [c] is [v]. *)
Ltac lit_step once H c E :=
  rewrite once in H;
  match type of H with
  | match ?s with _ => _ end = _ =>
      destruct s as [|c s]; [discriminate|]
  end;
  match type of H with
  | (if ?b then _ else _) = _ => destruct b eqn:E; [|discriminate]
  end;
  cbv beta in H.

Ltac exact_char E c v :=
  change (N.eqb c v = true) in E; apply N.eqb_eq in E; subst c.

(** [upper_case c E1 E2] splits a goal about [ascii_tolower c] by the case
    of [c]; for an upper-case [c] it leaves the bounds [E1] and [E2]. *)
Ltac upper_case c E1 E2 :=
  unfold ascii_tolower;
  let E := fresh "E" in
  destruct (ascii_upper c) eqn:E; [|cbv iota; rewrite ?E; reflexivity];
  unfold ascii_upper in E;
  apply andb_true_iff in E as [E1%N.leb_le E2%N.leb_le].

(** * Properties *)

(** ** The quantifiers of the matcher *)

Section RepLemmas.
Variable R : Type.
Variable p : char -> bool.
Variable k : nat -> str -> option R.

Lemma option_eta (o : option R) :
  match o with Some r => Some r | None => None end = o.
Proof. destruct o; reflexivity. Qed.

Lemma rep_greedy_zero i s : rep_greedy p k 0 (Some 0) i s = k i s.
Proof. destruct s; reflexivity. Qed.

(** A single character. *)
Lemma rep_once i s :
  rep_greedy p k 1 (Some 1) i s =
  match s with
  | c :: s' => if p c then k (S i) s' else None
  | [] => None
  end.
Proof.
  destruct s as [|c s']; [reflexivity|].
  cbn [rep_greedy Nat.eqb more fewer pred andb].
  destruct (p c); [|reflexivity].
  rewrite rep_greedy_zero. apply option_eta.
Qed.

(** Exactly [n] characters. *)
Lemma rep_times n : forall i s,
  rep_greedy p k n (Some n) i s =
  if (n <=? length s) && forallb p (firstn n s)
  then k (i + n) (skipn n s) else None.
Proof.
  induction n as [|n IH]; intros i s.
  - rewrite rep_greedy_zero. cbn. now rewrite Nat.add_0_r.
  - destruct s as [|c s']; [reflexivity|].
    cbn [rep_greedy Nat.eqb more fewer pred andb length firstn forallb skipn].
    destruct (p c); cbn [andb].
    + rewrite IH, option_eta.
      replace (S i + n) with (i + S n) by lia.
      reflexivity.
    + now rewrite andb_false_r.
Qed.

(** Whatever a quantifier returns comes from its continuation, after a
    run of accepted characters. *)
Lemma rep_greedy_sound : forall s lo hi i r,
  rep_greedy p k lo hi i s = Some r ->
  exists w s', s = w ++ s' /\ forallb p w = true /\ lo <= length w /\
               k (i + length w) s' = Some r.
Proof.
  induction s as [|c s IH]; intros lo hi i r H.
  - cbn in H. destruct lo; [|discriminate].
    exists [], []. cbn. rewrite Nat.add_0_r. auto.
  - cbn [rep_greedy] in H.
    assert (Hstop :
      (if Nat.eqb lo 0 then k i (c :: s) else None) = Some r ->
      exists w s', c :: s = w ++ s' /\ forallb p w = true /\
                   lo <= length w /\ k (i + length w) s' = Some r).
    { destruct lo; [|discriminate]. intros E.
      exists [], (c :: s). cbn. rewrite Nat.add_0_r. auto. }
    destruct (more hi && p c) eqn:E; [|auto].
    destruct (rep_greedy p k (pred lo) (fewer hi) (S i) s) eqn:E'; [|auto].
    injection H as ->. apply IH in E' as (w & s' & -> & Hw & Hlo & Hk).
    apply andb_true_iff in E as [_ Hc].
    exists (c :: w), s'. cbn. rewrite Hc, Hw.
    replace (i + S (length w)) with (S i + length w) by lia.
    repeat split; auto; lia.
Qed.

Lemma rep_lazy_sound : forall s lo hi i r,
  rep_lazy p k lo hi i s = Some r ->
  exists w s', s = w ++ s' /\ forallb p w = true /\ lo <= length w /\
               k (i + length w) s' = Some r.
Proof.
  induction s as [|c s IH]; intros lo hi i r H.
  - cbn in H. destruct lo; cbn in H.
    + destruct (k i []) eqn:E; [|discriminate]. injection H as ->.
      exists [], []. cbn. rewrite Nat.add_0_r. auto.
    + discriminate.
  - cbn [rep_lazy] in H.
    destruct (if Nat.eqb lo 0 then k i (c :: s) else None) eqn:E0.
    + injection H as ->. destruct lo; [|discriminate].
      exists [], (c :: s). cbn. rewrite Nat.add_0_r. auto.
    + destruct (more hi && p c) eqn:E; [|discriminate].
      apply IH in H as (w & s' & -> & Hw & Hlo & Hk).
      apply andb_true_iff in E as [_ Hc].
      exists (c :: w), s'. cbn. rewrite Hc, Hw.
      replace (i + S (length w)) with (S i + length w) by lia.
      repeat split; auto; lia.
Qed.

(** A lazy star: the continuation first, one more character on
    failure. *)
Lemma rep_lazy_star i s :
  rep_lazy p k 0 None i s =
  match k i s with
  | Some r => Some r
  | None =>
      match s with
      | c :: s' => if p c then rep_lazy p k 0 None (S i) s' else None
      | [] => None
      end
  end.
Proof. destruct s; reflexivity. Qed.

(** A greedy quantifier returns what the continuation returns after the
    longest run, when that is something. *)
Lemma rep_greedy_longest : forall w lo i s' r,
  forallb p w = true -> lo <= length w ->
  match s' with c :: _ => p c = false | [] => True end ->
  k (i + length w) s' = Some r ->
  rep_greedy p k lo None i (w ++ s') = Some r.
Proof.
  induction w as [|c w IH]; intros lo i s' r Hw Hlo Hs Hk.
  - cbn in *. rewrite Nat.add_0_r in Hk.
    assert (lo = 0) as -> by lia.
    destruct s' as [|c s']; cbn; [assumption|]. now rewrite Hs.
  - cbn in Hw. apply andb_true_iff in Hw as [Hc Hw].
    cbn [app rep_greedy more fewer andb]. rewrite Hc.
    rewrite (IH (pred lo) (S i) s' r); auto.
    + cbn in Hlo. lia.
    + rewrite <- Hk. f_equal. cbn. lia.
Qed.

End RepLemmas.

(** ** The scan *)

Section ScanLemmas.
Context {L : PyLib}.

Lemma rep_greedy_ext R (p p' : char -> bool) (k k' : nat -> str -> option R) :
  (forall c, p c = p' c) -> (forall i s, k i s = k' i s) ->
  forall s lo hi i, rep_greedy p k lo hi i s = rep_greedy p' k' lo hi i s.
Proof.
  intros Hp Hk. induction s as [|c s IH]; intros lo hi i; cbn.
  - now rewrite Hk.
  - now rewrite Hp, IH, Hk.
Qed.

Lemma rep_lazy_ext R (p p' : char -> bool) (k k' : nat -> str -> option R) :
  (forall c, p c = p' c) -> (forall i s, k i s = k' i s) ->
  forall s lo hi i, rep_lazy p k lo hi i s = rep_lazy p' k' lo hi i s.
Proof.
  intros Hp Hk. induction s as [|c s IH]; intros lo hi i; cbn.
  - now rewrite Hk.
  - now rewrite Hp, IH, Hk.
Qed.

Lemma scan_txt ic r c s :
  match_at ic r false (c :: s) = None ->
  scan ic r 0 (c :: s) = Txt c :: scan ic r 0 s.
Proof. intros H. cbn [scan]. now rewrite H. Qed.

Lemma scan_end ic r :
  match_at ic r false [] = None -> scan ic r 0 [] = [].
Proof. intros H. cbn [scan]. now rewrite H. Qed.

Lemma scan_hit ic r c s m e :
  match_at ic r false (c :: s) = Some m -> m_end m = S e ->
  scan ic r 0 (c :: s) = hit r (c :: s) m :: scan ic r e s.
Proof. intros H E. cbn [scan]. rewrite H, E. reflexivity. Qed.

Lemma scan_skip ic r : forall w s,
  scan ic r (length w) (w ++ s) = scan ic r 0 s.
Proof. induction w as [|c w IH]; intros s; [reflexivity|]. cbn. apply IH. Qed.

(** [re.sub] with a constant replacement. *)
Lemma re_sub_with_const ic r repl s :
  re_sub_with ic r (fun _ _ => OK repl) s = OK (subst repl (scan ic r 0 s)).
Proof.
  unfold re_sub_with, subst.
  induction (scan ic r 0 s) as [|x l IH]; [reflexivity|].
  cbn [map sequence flat_map].
  destruct (sequence (map (expand (fun _ _ => OK repl)) l)) as [parts|e];
    [|discriminate].
  cbn in IH. injection IH as <-.
  destruct x; reflexivity.
Qed.

Lemma re_sub_plain ic r repl s :
  existsb (N.eqb (ch "\")) repl = false ->
  re_sub ic r repl s = OK (subst repl (scan ic r 0 s)).
Proof. intros H. unfold re_sub. rewrite H. apply re_sub_with_const. Qed.

(** A pattern of one character set. *)
Lemma match_at_once ic c s :
  match_at ic [Once c] false s =
  match s with
  | x :: _ =>
      if in_class ic c x then Some {| m_end := 1; m_spans := [] |} else None
  | [] => None
  end.
Proof.
  unfold match_at, Once. cbn [run]. rewrite rep_once.
  destruct s; reflexivity.
Qed.

Lemma scan_once ic c : forall s,
  scan ic [Once c] 0 s =
  map (fun x => if in_class ic c x then Hit [x] [] else Txt x) s.
Proof.
  induction s as [|x s IH].
  - apply scan_end. now rewrite match_at_once.
  - cbn [map]. destruct (in_class ic c x) eqn:E.
    + rewrite (@scan_hit ic _ x s {| m_end := 1; m_spans := [] |} 0);
        [| now rewrite match_at_once, E | reflexivity].
      now rewrite IH.
    + rewrite scan_txt by now rewrite match_at_once, E.
      now rewrite IH.
Qed.

Lemma subst_once ic c repl s :
  subst repl (scan ic [Once c] 0 s) =
  flat_map (fun x => if in_class ic c x then repl else [x]) s.
Proof.
  rewrite scan_once. unfold subst.
  induction s as [|x s IH]; [reflexivity|].
  cbn [map flat_map]. rewrite IH. now destruct (in_class ic c x).
Qed.

End ScanLemmas.

(** ** The patterns of the slug generator *)

Section SlugPatterns.
Context {L : PyLib}.
Import Slugs.

Lemma sub_invalid_slug_char s :
  re_sub false RE_INVALID_SLUG_CHAR [] s = OK (keep_slug_chars s).
Proof.
  rewrite re_sub_plain by reflexivity.
  unfold RE_INVALID_SLUG_CHAR. rewrite subst_once. f_equal.
  unfold keep_slug_chars.
  induction s as [|x s IH]; [reflexivity|].
  cbn [flat_map filter]. rewrite IH.
  replace (in_class false (NoneOf [Word; Chr (ch "-"); Chr (ch " ")]) x)
    with (negb (slug_char x)).
  - now destruct (slug_char x).
  - unfold slug_char. cbn [in_class existsb accepts andb].
    now rewrite orb_false_r, orb_assoc.
Qed.

Lemma sub_whitespace sep s :
  existsb (N.eqb (ch "\")) sep = false ->
  re_sub false RE_WHITESPACE sep s = OK (sep_for_each_space sep s).
Proof.
  intros H. rewrite re_sub_plain by assumption.
  unfold RE_WHITESPACE. now rewrite subst_once.
Qed.

Lemma rep_greedy_cons R (p : char -> bool) (k : nat -> str -> option R)
    lo hi i c s :
  rep_greedy p k lo hi i (c :: s) =
  if more hi && p c then
    match rep_greedy p k (pred lo) (fewer hi) (S i) s with
    | Some r => Some r
    | None => if Nat.eqb lo 0 then k i (c :: s) else None
    end
  else if Nat.eqb lo 0 then k i (c :: s) else None.
Proof. reflexivity. Qed.

(** An optional character. *)
Lemma rep_opt R (p : char -> bool) (k : nat -> str -> option R) i s :
  rep_greedy p k 0 (Some 1) i s =
  match s with
  | c :: s' =>
      if p c then
        match k (S i) s' with
        | Some r => Some r
        | None => k i s
        end
      else k i s
  | [] => k i s
  end.
Proof.
  destruct s as [|c s']; [reflexivity|].
  rewrite rep_greedy_cons. cbn [more fewer pred andb Nat.eqb].
  destruct (p c); [rewrite rep_greedy_zero|]; reflexivity.
Qed.

(** [[^>]*>] after the start of a tag: up to the first [>]. *)
Lemma star_gt R (k : nat -> str -> option R) : forall s i,
  rep_greedy (in_class false (NoneOf [Chr (ch ">")]))
    (fun i1 s1 =>
       rep_greedy (in_class false (One (Chr (ch ">")))) k 1 (Some 1) i1 s1)
    0 None i s =
  match first_index (ch ">") s with
  | Some n => k (S (i + n)) (skipn (S n) s)
  | None => None
  end.
Proof.
  induction s as [|c s IH]; intros i; [reflexivity|].
  rewrite rep_greedy_cons.
  cbn [more fewer andb pred first_index Nat.eqb].
  rewrite rep_once. cbn [in_class existsb accepts andb]. rewrite orb_false_r.
  destruct (N.eqb c (ch ">")) eqn:E; cbn [negb].
  - now rewrite Nat.add_0_r.
  - rewrite IH. destruct (first_index (ch ">") s) as [n|]; [|reflexivity].
    rewrite option_eta. cbn [skipn]. f_equal. lia.
Qed.

Lemma html_run R (k : mstate -> nat -> str -> option R) st i s :
  run false RE_HTML_TAGS k st i s =
  match s with
  | c :: s' =>
      if N.eqb c (ch "<") then
        match first_index (ch ">") s' with
        | Some n => k st (i + S (S n)) (skipn (S n) s')
        | None => None
        end
      else None
  | [] => None
  end.
Proof.
  unfold RE_HTML_TAGS, Lit, Opt, Star. cbn [run]. rewrite rep_once.
  destruct s as [|c s']; [reflexivity|].
  cbn [in_class accepts andb]. destruct (N.eqb c (ch "<")); [|reflexivity].
  pose proof (star_gt (fun i2 s2 => k st i2 s2)) as K. cbv beta in K.
  rewrite rep_opt.
  destruct s' as [|d s'']; [now rewrite K|].
  destruct (in_class false (One (Chr (ch "/"))) d) eqn:E.
  - rewrite !K.
    cbn [in_class accepts andb] in E. apply N.eqb_eq in E. subst d.
    cbn [first_index]. change (N.eqb (ch "/") (ch ">")) with false.
    cbn iota.
    destruct (first_index (ch ">") s'') as [n|]; [|reflexivity].
    cbn [skipn].
    replace (S (S i + S n)) with (S (S (S i) + n)) by lia.
    replace (i + S (S (S n))) with (S (S (S i) + n)) by lia.
    now destruct (k st _ _).
  - rewrite K. destruct (first_index (ch ">") (d :: s'')); [|reflexivity].
    f_equal. lia.
Qed.


Lemma first_index_existsb c s :
  existsb (N.eqb c) s =
  match first_index c s with Some _ => true | None => false end.
Proof.
  induction s as [|x s IH]; [reflexivity|].
  cbn. rewrite IH, (N.eqb_sym c x).
  destruct (N.eqb x c); [reflexivity|].
  now destruct (first_index c s).
Qed.

Lemma match_at_html s :
  match_at false RE_HTML_TAGS false s =
  match s with
  | c :: s' =>
      if N.eqb c (ch "<") then
        match first_index (ch ">") s' with
        | Some n => Some {| m_end := S (S n); m_spans := [] |}
        | None => None
        end
      else None
  | [] => None
  end.
Proof. unfold match_at. rewrite html_run. reflexivity. Qed.

(** Outside a tag the scan continues as [strip_tags false], inside one,
    with the first [>] still [n] characters away, as [strip_tags true]. *)
Lemma subst_html : forall s,
  subst [] (scan false RE_HTML_TAGS 0 s) = strip_tags false s /\
  (forall n, first_index (ch ">") s = Some n ->
             subst [] (scan false RE_HTML_TAGS (S n) s) = strip_tags true s).
Proof.
  induction s as [|c s [IH0 IH1]]; split.
  - rewrite scan_end; [reflexivity | now rewrite match_at_html].
  - discriminate.
  - cbn [strip_tags]. rewrite first_index_existsb.
    destruct (N.eqb c (ch "<")) eqn:Ec; cbn [andb].
    + destruct (first_index (ch ">") s) as [n|] eqn:Ei.
      * rewrite (@scan_hit _ false _ c s {| m_end := S (S n); m_spans := [] |}
                   (S n)); [| now rewrite match_at_html, Ec, Ei | reflexivity].
        cbn [subst flat_map hit app]. now apply IH1.
      * rewrite scan_txt by now rewrite match_at_html, Ec, Ei.
        cbn [subst flat_map app]. f_equal. exact IH0.
    + rewrite scan_txt by now rewrite match_at_html, Ec.
      cbn [subst flat_map app]. f_equal. exact IH0.
  - intros n Hn. cbn [first_index] in Hn. cbn [scan strip_tags].
    destruct (N.eqb c (ch ">")).
    + injection Hn as <-. exact IH0.
    + destruct (first_index (ch ">") s) as [m|]; [|discriminate].
      injection Hn as <-. now apply IH1.
Qed.

Lemma sub_html_tags s :
  re_sub false RE_HTML_TAGS [] s = OK (strip_tags false s).
Proof.
  rewrite re_sub_plain by reflexivity. f_equal. apply subst_html.
Qed.

(** The shortest text that a pattern can match. *)
Lemma rep_greedy_short R (p : char -> bool) (k : nat -> str -> option R) m :
  (forall i s, length s < m -> k i s = None) ->
  forall s lo hi i, length s < lo + m -> rep_greedy p k lo hi i s = None.
Proof.
  intros Hk. induction s as [|c s IH]; intros lo hi i H.
  - cbn. destruct lo; cbn; [apply Hk; cbn in *; lia | reflexivity].
  - rewrite rep_greedy_cons.
    assert (E : (if Nat.eqb lo 0 then k i (c :: s) else None) = None).
    { destruct lo; cbn; [apply Hk; cbn in *; lia | reflexivity]. }
    rewrite E, IH; [now destruct (more hi && p c)|].
    cbn in H. destruct lo; cbn; lia.
Qed.

Lemma rep_lazy_short R (p : char -> bool) (k : nat -> str -> option R) m :
  (forall i s, length s < m -> k i s = None) ->
  forall s lo hi i, length s < lo + m -> rep_lazy p k lo hi i s = None.
Proof.
  intros Hk. induction s as [|c s IH]; intros lo hi i H.
  - cbn. destruct lo; cbn; [rewrite Hk; cbn in *; [reflexivity | lia]
                           | reflexivity].
  - cbn [rep_lazy].
    assert (E : (if Nat.eqb lo 0 then k i (c :: s) else None) = None).
    { destruct lo; cbn; [apply Hk; cbn in *; lia | reflexivity]. }
    rewrite E, IH; [now destruct (more hi && p c)|].
    cbn in H. destruct lo; cbn; lia.
Qed.

Lemma run_short R ic : forall r (k : mstate -> nat -> str -> option R) st i s,
  length s < min_len r -> run ic r k st i s = None.
Proof.
  induction r as [|[c lo hi [|]|g|g] r IH]; intros k st i s H; cbn in H.
  - lia.
  - cbn [run]. apply rep_greedy_short with (m := min_len r); [|assumption].
    intros. now apply IH.
  - cbn [run]. apply rep_lazy_short with (m := min_len r); [|assumption].
    intros. now apply IH.
  - cbn [run]. now apply IH.
  - cbn [run]. now apply IH.
Qed.

Lemma dated_short s : length s < 13 -> dated s = false.
Proof.
  intros H. do 13 (destruct s as [|? s]; [reflexivity|]). cbn in H. lia.
Qed.

(** The date of a changelog heading. *)
Lemma date_run R (k : mstate -> nat -> str -> option R) st i s :
  run false
    (Lits " - " ++
     [Times 4 (One Digit); Lit "-"; Times 2 (One Digit); Lit "-";
      Times 2 (One Digit)]) k st i s =
  if dated s then k st (i + 13) (skipn 13 s) else None.
Proof.
  destruct (Nat.lt_ge_cases (length s) 13) as [H|H].
  - rewrite dated_short by assumption. now apply run_short.
  - do 13 (destruct s as [|? s]; [cbn in H; lia|]). clear H.
    cbn [Lits map String.list_ascii_of_string app]. unfold Lit, Times.
    cbn [run dated skipn].
    repeat first
      [ rewrite rep_once; cbn [in_class accepts andb]
      | rewrite rep_times;
        cbn [in_class accepts length Nat.leb firstn forallb skipn andb] ].
    repeat match goal with
           | |- context [isdecimal ?x] =>
               destruct (isdecimal x); cbn [andb]; [|reflexivity]
           | |- context [N.eqb ?x ?y] =>
               destruct (N.eqb x y); cbn [andb]; [|reflexivity]
           end.
    f_equal. lia.
Qed.


Lemma changelog_title_eq s :
  changelog_title s =
  if dated s then Some []
  else
    match s with
    | [] => None
    | c :: s' =>
        if N.eqb c LF then None
        else
          match changelog_title s' with
          | Some t => Some (c :: t)
          | None => None
          end
    end.
Proof. destruct s; reflexivity. Qed.

(** [(.*?)] followed by the date: the shortest title. *)
Lemma lazy_title : forall s i,
  rep_lazy (in_class false (One Dot))
    (fun i' s' =>
       run false
         (Close 1 ::
          Lits " - " ++
          [Times 4 (One Digit); Lit "-"; Times 2 (One Digit); Lit "-";
           Times 2 (One Digit)])
         (fun st j _ =>
            if false && Nat.eqb j 0 then None
            else Some {| m_end := j; m_spans := spans st |})
         (mark 1 0 mstate0) i' s')
    0 None i s =
  match changelog_title s with
  | Some t =>
      Some {| m_end := i + length t + 13;
              m_spans := [(1, (0, i + length t))] |}
  | None => None
  end.
Proof.
  induction s as [|c s IH]; intros i;
    rewrite rep_lazy_star, changelog_title_eq;
    cbn [run]; rewrite date_run.
  - cbn. reflexivity.
  - destruct (dated (c :: s)).
    + cbn. now rewrite Nat.add_0_r.
    + cbn [in_class accepts andb]. destruct (N.eqb c LF); cbn [negb];
        [reflexivity|].
      rewrite IH. destruct (changelog_title s) as [t|]; [|reflexivity].
      cbn [length].
      replace (S i + length t) with (i + S (length t)) by lia. reflexivity.
Qed.

Lemma changelog_match text :
  re_match false RE_CHANGELOG text =
  match changelog_title text with
  | Some t =>
      Some {| m_end := length t + 13; m_spans := [(1, (0, length t))] |}
  | None => None
  end.
Proof.
  unfold re_match, match_at, RE_CHANGELOG. cbn [app run].
  unfold StarLazy. cbn [run]. now rewrite lazy_title.
Qed.

Lemma changelog_title_split : forall s t,
  changelog_title s = Some t ->
  exists rest, s = t ++ rest /\ dated rest = true.
Proof.
  induction s as [|c s IH]; intros t H; rewrite changelog_title_eq in H.
  - destruct (dated []) eqn:E; [|discriminate]. injection H as <-.
    now exists [].
  - destruct (dated (c :: s)) eqn:E.
    + injection H as <-. now exists (c :: s).
    + destruct (N.eqb c LF); [discriminate|].
      destruct (changelog_title s) as [t'|]; [|discriminate].
      injection H as <-. destruct (IH t' eq_refl) as (rest & -> & Hd).
      now exists rest.
Qed.

Lemma changelog_none text :
  re_match false RE_CHANGELOG text = None <-> changelog_title text = None.
Proof.
  rewrite changelog_match. now destruct (changelog_title text).
Qed.

Lemma changelog_found text t :
  changelog_title text = Some t ->
  exists m, re_match false RE_CHANGELOG text = Some m /\ group text m 1 = t.
Proof.
  intros H. rewrite changelog_match, H. eexists. split; [reflexivity|].
  destruct (changelog_title_split _ H) as (rest & -> & _).
  unfold group, slice. cbn [m_spans assoc Nat.eqb skipn].
  rewrite Nat.sub_0_r, firstn_app, Nat.sub_diag, firstn_all.
  cbn [firstn]. now rewrite app_nil_r.
Qed.

Lemma changelog_some text m :
  re_match false RE_CHANGELOG text = Some m ->
  changelog_title text = Some (group text m 1).
Proof.
  intros H. destruct (changelog_title text) as [t|] eqn:E.
  - destruct (changelog_found _ E) as (m' & Hm & <-). congruence.
  - apply changelog_none in E. congruence.
Qed.

(** The two branches of [_make_slug]. *)
Lemma make_slug_title text sep title :
  changelog_title text = Some title ->
  _make_slug text sep = OK (strip title).
Proof.
  intros H. unfold _make_slug. rewrite changelog_match, H.
  destruct (changelog_title_split _ H) as (rest & -> & _).
  unfold group, slice. cbn [m_spans assoc Nat.eqb skipn].
  rewrite Nat.sub_0_r, firstn_app, Nat.sub_diag, firstn_all.
  cbn [firstn]. now rewrite app_nil_r.
Qed.

Lemma make_slug_plain text sep :
  changelog_title text = None ->
  existsb (N.eqb (ch "\")) sep = false ->
  _make_slug text sep = OK (slug_steps text sep).
Proof.
  intros H Hsep. unfold _make_slug. rewrite changelog_match, H.
  rewrite sub_html_tags. cbn [bind].
  rewrite sub_invalid_slug_char. cbn [bind].
  now rewrite sub_whitespace.
Qed.

End SlugPatterns.

(** ** Characters of the ASCII block *)

Section AsciiChars.
Context {L : PyLib}.

Lemma stable_char_spec c :
  stable_char c = true ->
  ((97 <= c <= 122) \/ (48 <= c <= 57) \/ c = 95 \/ c = 45)%N.
Proof.
  unfold stable_char, ascii_lower, ascii_digit. ch_values.
  rewrite !orb_true_iff, !andb_true_iff, !N.leb_le, !N.eqb_eq. tauto.
Qed.

Lemma stable_is_ascii c : stable_char c = true -> is_ascii c = true.
Proof.
  intros H%stable_char_spec. unfold is_ascii. apply N.ltb_lt. lia.
Qed.

Lemma stable_not_space c : stable_char c = true -> isspace c = false.
Proof.
  intros H. unfold isspace. rewrite (stable_is_ascii _ H).
  apply stable_char_spec in H. unfold ascii_space. bcase.
Qed.

Lemma stable_slug_char c : stable_char c = true -> slug_char c = true.
Proof.
  intros H. unfold slug_char, isalnum. rewrite (stable_is_ascii _ H).
  apply stable_char_spec in H.
  unfold ascii_alnum, ascii_digit, ascii_upper, ascii_lower. ch_values. bcase.
Qed.

Lemma stable_tolower c : stable_char c = true -> ascii_tolower c = c.
Proof.
  intros H%stable_char_spec. unfold ascii_tolower, ascii_upper. bcase.
Qed.

Lemma stable_not c :
  stable_char c = true ->
  N.eqb c (ch "<") = false /\ N.eqb (ch "\") c = false /\
  N.eqb c (ch " ") = false.
Proof.
  intros H%stable_char_spec. ch_values. repeat split; bcase.
Qed.

(** Lower-casing an ASCII slug character gives a stable character or
    the space. *)
Lemma slug_char_tolower c :
  is_ascii c = true -> slug_char c = true ->
  stable_char (ascii_tolower c) = true \/ ascii_tolower c = ch " ".
Proof.
  unfold slug_char, isalnum. intros -> H.
  rewrite !orb_true_iff in H.
  unfold ascii_alnum, ascii_digit, ascii_upper, ascii_lower in H.
  rewrite !orb_true_iff, !andb_true_iff, !N.leb_le, !N.eqb_eq in H.
  ch_values.
  unfold ascii_tolower, ascii_upper.
  destruct ((65 <=? c) && (c <=? 90))%N eqn:E.
  - apply andb_true_iff in E as [E1%N.leb_le E2%N.leb_le].
    left. unfold stable_char, ascii_lower, ascii_digit. ch_values. bcase.
  - assert (~ (65 <= c <= 90)%N).
    { intros [A B]. apply N.leb_le in A, B. now rewrite A, B in E. }
    destruct (N.eqb_spec c 32); [now right|].
    left. unfold stable_char, ascii_lower, ascii_digit. ch_values. bcase.
Qed.

Lemma space_is_space : isspace (ch " ") = true.
Proof. reflexivity. Qed.

End AsciiChars.

(** ** Strings *)

Section StringLemmas.
Context {L : PyLib}.

Lemma lstrip_split s :
  exists a, s = a ++ lstrip s /\ forallb isspace a = true.
Proof.
  induction s as [|c s (a & E & Ha)]; [now exists []|].
  cbn [lstrip]. destruct (isspace c) eqn:Ec.
  - exists (c :: a). cbn. rewrite Ec, Ha. split; [now f_equal | reflexivity].
  - now exists [].
Qed.

Lemma forallb_rev {A} (f : A -> bool) l : forallb f (rev l) = forallb f l.
Proof.
  induction l as [|x l IH]; [reflexivity|].
  cbn. rewrite forallb_app, IH. cbn. rewrite andb_true_r. apply andb_comm.
Qed.

Lemma rstrip_split s :
  exists b, s = rstrip s ++ b /\ forallb isspace b = true.
Proof.
  unfold rstrip. destruct (lstrip_split (rev s)) as (a & E & Ha).
  exists (rev a). split.
  - rewrite <- rev_app_distr, <- E. symmetry. apply rev_involutive.
  - now rewrite forallb_rev.
Qed.

(** [strip] removes white space at both ends and nothing else. *)
Lemma strip_split s :
  exists a b, s = a ++ strip s ++ b /\
              forallb isspace a = true /\ forallb isspace b = true.
Proof.
  unfold strip. destruct (lstrip_split s) as (a & E & Ha).
  destruct (rstrip_split (lstrip s)) as (b & E' & Hb).
  exists a, b. repeat split; auto. now rewrite <- E', <- E.
Qed.

Lemma strip_In s x : In x (strip s) -> In x s.
Proof.
  destruct (strip_split s) as (a & b & E & _). intros H.
  rewrite E, !in_app_iff. auto.
Qed.

Lemma strip_tags_In x : forall s b, In x (strip_tags b s) -> In x s.
Proof.
  induction s as [|c s IH]; intros b H; [assumption|].
  cbn [strip_tags] in H.
  destruct b.
  - right. destruct (N.eqb c (ch ">")); eapply IH; eassumption.
  - destruct (N.eqb c (ch "<") && existsb (N.eqb (ch ">")) s).
    + right. eapply IH; eassumption.
    + destruct H as [->|H]; [now left | right; eapply IH; eassumption].
Qed.

Lemma lstrip_id s :
  match s with c :: _ => isspace c = false | [] => True end -> lstrip s = s.
Proof. destruct s as [|c s]; [reflexivity|]. cbn. now intros ->. Qed.

Lemma strip_id s :
  forallb (fun c => negb (isspace c)) s = true -> strip s = s.
Proof.
  intros H. unfold strip, rstrip.
  assert (E : forall t, forallb (fun c => negb (isspace c)) t = true ->
                        lstrip t = t).
  { intros t Ht. apply lstrip_id. destruct t as [|c t]; [exact I|].
    cbn in Ht. apply andb_true_iff in Ht as [Hc _].
    now apply negb_true_iff in Hc. }
  rewrite (E s H), E; [apply rev_involutive | now rewrite forallb_rev].
Qed.

Lemma strip_tags_id : forall s,
  forallb (fun c => negb (N.eqb c (ch "<"))) s = true ->
  strip_tags false s = s.
Proof.
  induction s as [|c s IH]; [reflexivity|].
  cbn [forallb strip_tags]. intros [Hc Hs]%andb_true_iff.
  apply negb_true_iff in Hc. rewrite Hc. cbn [andb]. now rewrite IH.
Qed.

Lemma filter_id {A} (f : A -> bool) l : forallb f l = true -> filter f l = l.
Proof.
  induction l as [|x l IH]; [reflexivity|].
  cbn. intros [-> Hl]%andb_true_iff. now rewrite IH.
Qed.

Lemma sep_for_each_space_id sep s :
  forallb (fun c => negb (isspace c)) s = true ->
  sep_for_each_space sep s = s.
Proof.
  unfold sep_for_each_space. induction s as [|c s IH]; [reflexivity|].
  cbn. intros [Hc Hs]%andb_true_iff. apply negb_true_iff in Hc.
  now rewrite Hc, IH.
Qed.

Lemma forallb_impl {A} (f g : A -> bool) l :
  (forall x, f x = true -> g x = true) ->
  forallb f l = true -> forallb g l = true.
Proof.
  intros H. rewrite !forallb_forall. auto.
Qed.

Lemma map_id_on {A} (f : A -> A) (P : A -> bool) l :
  (forall x, P x = true -> f x = x) -> forallb P l = true -> map f l = l.
Proof.
  intros H. induction l as [|x l IH]; [reflexivity|].
  cbn. intros [Hx Hl]%andb_true_iff. now rewrite H, IH.
Qed.

(** Splitting and joining again gives the text back. *)
Lemma split_go_nonempty sep : forall s n skip, split_go sep n skip s <> [].
Proof.
  induction s as [|c s IH]; intros n skip; [discriminate|].
  cbn. destruct skip; [|apply IH].
  destruct (more n && startswith sep (c :: s)); [discriminate|].
  specialize (IH n 0). now destruct (split_go sep n 0 s).
Qed.

Lemma split_go_skip sep n : forall w s,
  split_go sep n (length w) (w ++ s) = split_go sep n 0 s.
Proof. induction w as [|c w IH]; intros s; [reflexivity | apply IH]. Qed.

End StringLemmas.

Section SplitJoin.
Context {L : PyLib}.

Lemma startswith_split : forall p s,
  startswith p s = true -> s = p ++ skipn (length p) s.
Proof.
  induction p as [|x p IH]; intros s H; [reflexivity|].
  destruct s as [|y s]; [discriminate|].
  cbn in H. apply andb_true_iff in H as [->%N.eqb_eq H].
  cbn. f_equal. now apply IH.
Qed.

Lemma join_cons_head sep c l :
  l <> [] -> join sep (cons_head c l) = c :: join sep l.
Proof. destruct l as [|p [|q l]]; [contradiction| |]; reflexivity. Qed.

Lemma join_nil_cons sep l : l <> [] -> join sep ([] :: l) = sep ++ join sep l.
Proof. destruct l; [contradiction | reflexivity]. Qed.

Lemma join_split sep : sep <> [] -> forall n s, length s <= n ->
  join sep (split_go sep None 0 s) = s.
Proof.
  intros Hsep. induction n as [|n IH]; intros s Hn.
  - destruct s; [reflexivity | cbn in Hn; lia].
  - destruct s as [|c s]; [reflexivity|].
    cbn [split_go more andb].
    destruct (startswith sep (c :: s)) eqn:E.
    + apply startswith_split in E.
      destruct sep as [|x sep]; [contradiction|].
      cbn [length skipn app pred] in *. injection E as -> E.
      rewrite E at 1. rewrite split_go_skip.
      rewrite join_nil_cons by apply split_go_nonempty.
      rewrite IH.
      * cbn. now rewrite <- E.
      * rewrite length_skipn. cbn in Hn. lia.
    + rewrite join_cons_head by apply split_go_nonempty.
      f_equal. apply IH. cbn in Hn. lia.
Qed.

Lemma join_firstn sep : forall l n,
  exists tail, join sep l = join sep (firstn n l) ++ tail.
Proof.
  induction l as [|x l IH]; intros n.
  - exists []. now destruct n.
  - destruct n as [|n]; [now exists (join sep (x :: l))|].
    destruct l as [|y l].
    + exists []. cbn [firstn]. rewrite firstn_nil. cbn.
      now rewrite app_nil_r.
    + destruct n as [|n].
      * exists (sep ++ join sep (y :: l)). reflexivity.
      * destruct (IH (S n)) as (tail & E). exists tail.
        change (firstn (S (S n)) (x :: y :: l))
          with (x :: y :: firstn n l).
        change (firstn (S n) (y :: l)) with (y :: firstn n l) in E.
        change (join sep (x :: y :: l)) with (x ++ sep ++ join sep (y :: l)).
        change (join sep (x :: y :: firstn n l))
          with (x ++ sep ++ join sep (y :: firstn n l)).
        rewrite E. now rewrite <- !app_assoc.
Qed.

End SplitJoin.

(** ** The date of a changelog heading inside a longer text *)

Section Dates.
Context {L : PyLib}.

Lemma is_digits_length n y : is_digits n y = true -> length y = n.
Proof. now intros [H%Nat.eqb_eq _]%andb_true_iff. Qed.

Lemma dated_date y m d rest :
  is_digits 4 y = true -> is_digits 2 m = true -> is_digits 2 d = true ->
  dated (u " - " ++ y ++ u "-" ++ m ++ u "-" ++ d ++ rest) = true.
Proof.
  intros Hy Hm Hd.
  pose proof (is_digits_length _ _ Hy) as Ly.
  pose proof (is_digits_length _ _ Hm) as Lm.
  pose proof (is_digits_length _ _ Hd) as Ld.
  do 5 (destruct y as [|? y]; try discriminate).
  do 3 (destruct m as [|? m]; try discriminate).
  do 3 (destruct d as [|? d]; try discriminate).
  unfold is_digits in *.
  cbn [length Nat.eqb forallb andb] in Hy, Hm, Hd.
  rewrite !andb_true_iff in Hy. rewrite !andb_true_iff in Hm.
  rewrite !andb_true_iff in Hd.
  destruct Hy as (Y1 & Y2 & Y3 & Y4 & _).
  destruct Hm as (M1 & M2 & _). destruct Hd as (D1 & D2 & _).
  cbn [u map String.list_ascii_of_string app dated].
  now rewrite Y1, Y2, Y3, Y4, M1, M2, D1, D2.
Qed.

Lemma dated_head s : dated s = true -> exists s', s = ch " " :: s'.
Proof.
  intros H. do 13 (destruct s as [|? s]; [discriminate|]).
  cbn [dated] in H. rewrite !andb_true_iff in H.
  destruct H as [[[[[[[[[[[[H _] _] _] _] _] _] _] _] _] _] _] _].
  apply N.eqb_eq in H. subst. eauto.
Qed.

(** A date does not start inside a title that holds none and run on into
    the date that follows the title. *)
Lemma dated_straddle t x :
  t <> [] -> dated t = false ->
  dated (t ++ ch " " :: ch "-" :: x) = false.
Proof.
  intros Ht H.
  destruct t as [|t0 t]; [contradiction|]. clear Ht.
  do 12 (destruct t as [|? t];
         [ clear H; cbn [app];
           repeat (destruct x as [|? x]; [reflexivity|]);
           cbn [dated]; ch_values;
           repeat (rewrite ?andb_false_r; cbn [andb N.eqb Pos.eqb]);
           try reflexivity;
           unfold isdecimal, is_ascii, ascii_digit; cbn;
           repeat (rewrite ?andb_false_r; cbn [andb]); reflexivity
         | ]).
  exact H.
Qed.

Lemma title_found : forall title x,
  dated x = true ->
  forallb (fun c => negb (N.eqb c LF)) title = true ->
  exists t more, changelog_title (title ++ x) = Some t /\ title = t ++ more.
Proof.
  induction title as [|c title IH]; intros x Hx Ht.
  - exists [], []. cbn [app]. rewrite changelog_title_eq, Hx. auto.
  - cbn [forallb] in Ht. apply andb_true_iff in Ht as [Hc Ht].
    apply negb_true_iff in Hc.
    destruct (IH x Hx Ht) as (t & more & E & ->).
    cbn [app]. rewrite changelog_title_eq.
    destruct (dated (c :: _)).
    + exists [], (c :: t ++ more). auto.
    + rewrite Hc, E. exists (c :: t), more. auto.
Qed.

Lemma title_exact : forall title x,
  dated (ch " " :: ch "-" :: x) = true ->
  changelog_title title = None ->
  forallb (fun c => negb (N.eqb c LF)) title = true ->
  changelog_title (title ++ ch " " :: ch "-" :: x) = Some title.
Proof.
  induction title as [|c title IH]; intros x Hx Hn Ht.
  - cbn [app]. now rewrite changelog_title_eq, Hx.
  - cbn [forallb] in Ht. apply andb_true_iff in Ht as [Hc Ht].
    apply negb_true_iff in Hc.
    rewrite changelog_title_eq in Hn.
    destruct (dated (c :: title)) eqn:Ed; [discriminate|].
    rewrite Hc in Hn.
    destruct (changelog_title title) eqn:En; [discriminate|].
    change ((c :: title) ++ ch " " :: ch "-" :: x)
      with (c :: title ++ ch " " :: ch "-" :: x).
    rewrite changelog_title_eq.
    change (c :: title ++ ch " " :: ch "-" :: x)
      with ((c :: title) ++ ch " " :: ch "-" :: x) at 1.
    rewrite dated_straddle by (auto; discriminate).
    now rewrite Hc, IH.
Qed.

Lemma changelog_title_space : forall s,
  forallb (fun c => negb (N.eqb c (ch " "))) s = true ->
  changelog_title s = None.
Proof.
  induction s as [|c s IH]; intros H; rewrite changelog_title_eq.
  - reflexivity.
  - destruct (dated (c :: s)) eqn:E.
    + apply dated_head in E as (s' & E). injection E as -> _.
      discriminate.
    + cbn in H. apply andb_true_iff in H as [_ H].
      rewrite IH by assumption. now destruct (N.eqb c LF).
Qed.

End Dates.

(** ** The slug generator *)

Section SlugTheorems.
Context {L : PyLib}.
Import Slugs.

(** C1, as amended.  On a heading that is not a changelog heading, and
    with a separator without a backslash, [_make_slug] is the composition
    of the steps of the specification, in their order: NFC normalisation,
    removal of the tags, removal of every character that is not a word
    character, a hyphen or a space, trimming, lower-casing, and one copy
    of the separator for every single white-space character (not one for
    a run of them).  ["Hello, World! 123"] gives ["hello-world-123"]. *)
Theorem make_slug_steps text sep :
  re_match false RE_CHANGELOG text = None ->
  existsb (N.eqb (ch "\")) sep = false ->
  _make_slug text sep = OK (slug_steps text sep) /\
  _make_slug (u "Hello, World! 123") (u "-") = OK (u "hello-world-123").
Proof.
  intros H%changelog_none Hsep. split.
  - now apply make_slug_plain.
  - vm_compute. reflexivity.
Qed.

(** C6.  When the heading matches the changelog pattern, with the title
    (the first group of the match) in front of the date, [_make_slug]
    returns the title with the white space at its ends removed, whatever
    the separator is, and nothing else is done to it: the slug stands in
    the heading as it is, between white space and the date, in its
    original case and spacing.  ["Release Notes - 2024-01-15"] gives
    ["Release Notes"]. *)
Theorem make_slug_changelog text sep m :
  re_match false RE_CHANGELOG text = Some m ->
  let title := group text m 1 in
  _make_slug text sep = OK (strip title) /\
  (exists lead trail rest,
     text = lead ++ strip title ++ trail ++ rest /\
     forallb isspace lead = true /\ forallb isspace trail = true /\
     dated rest = true) /\
  _make_slug (u "Release Notes - 2024-01-15") sep = OK (u "Release Notes").
Proof.
  intros H%changelog_some title. fold title in H. clearbody title.
  split; [|split].
  - now apply make_slug_title.
  - destruct (changelog_title_split _ H) as (rest & -> & Hd).
    destruct (strip_split title) as (a & b & E & Ha & Hb).
    exists a, b, rest. repeat split; auto.
    rewrite E at 1. now rewrite <- !app_assoc.
  - rewrite make_slug_title with (title := u "Release Notes");
      [vm_compute | vm_compute]; reflexivity.
Qed.

(** C10, as amended.  A heading that goes on after the date is a
    changelog heading too: when the title holds no line feed, every text
    [title - dddd-dd-dd rest] takes the special case, whatever [rest] is,
    and the slug is the trimmed text in front of the first date of the
    heading, which is the whole title when the title holds no date
    itself.  ["Release - 2024-01-15 beta"] gives ["Release"]. *)
Theorem make_slug_changelog_rest title y m d rest sep :
  forallb (fun c => negb (N.eqb c LF)) title = true ->
  is_digits 4 y = true -> is_digits 2 m = true -> is_digits 2 d = true ->
  let text := title ++ u " - " ++ y ++ u "-" ++ m ++ u "-" ++ d ++ rest in
  (exists found more,
     re_match false RE_CHANGELOG text = Some found /\
     title = group text found 1 ++ more /\
     _make_slug text sep = OK (strip (group text found 1)) /\
     (re_match false RE_CHANGELOG title = None ->
      group text found 1 = title)) /\
  _make_slug (u "Release - 2024-01-15 beta") sep = OK (u "Release").
Proof.
  intros Ht Hy Hm Hd text. split.
  - pose proof (dated_date y m d rest Hy Hm Hd) as Hdate.
    destruct (title_found title _ Hdate Ht) as (t & more & E & Et).
    assert (E1 : changelog_title text = Some t) by exact E.
    destruct (changelog_found _ E1) as (found & Hfound & Hg).
    exists found, more. rewrite Hg. repeat split; auto.
    + now apply make_slug_title.
    + intros Hn%changelog_none.
      pose proof (title_exact title
                    (ch " " :: y ++ u "-" ++ m ++ u "-" ++ d ++ rest)
                    Hdate Hn Ht) as E'.
      assert (E2 : changelog_title text = Some title) by exact E'.
      rewrite E1 in E2. now injection E2.
  - rewrite make_slug_title with (title := u "Release");
      [vm_compute | vm_compute]; reflexivity.
Qed.

(** C8, as amended.  With a separator that is not empty, the short slug
    is the full slug cut to its first five words: the full slug is split
    at the separator, the first five pieces are joined with the separator
    again, and what comes out is the beginning of the full slug.
    ["one two three four five six seven"] gives
    ["one-two-three-four-five"]. *)
Theorem make_slug_short_words text sep slug :
  truthy sep = true ->
  _make_slug text sep = OK slug ->
  _make_slug_short text sep =
    OK (join sep (firstn 5 (split_on sep None slug))) /\
  (exists tail, slug = join sep (firstn 5 (split_on sep None slug)) ++ tail) /\
  _make_slug_short (u "one two three four five six seven") (u "-") =
    OK (u "one-two-three-four-five").
Proof.
  intros Hsep H. split; [|split].
  - unfold _make_slug_short. rewrite H. cbn [bind].
    destruct sep; [discriminate | reflexivity].
  - destruct (join_firstn sep (split_on sep None slug) 5) as (tail & E).
    exists tail. rewrite <- E. unfold split_on. symmetry.
    apply join_split with (n := length slug); [|lia].
    destruct sep; [discriminate | discriminate].
  - vm_compute. reflexivity.
Qed.

Lemma flat_map_forallb {A B} (P : B -> bool) (f : A -> list B) l :
  (forall x, In x l -> forallb P (f x) = true) ->
  forallb P (flat_map f l) = true.
Proof.
  induction l as [|x l IH]; intros H; [reflexivity|].
  cbn. rewrite forallb_app, H, IH; auto using in_eq, in_cons.
Qed.

(** The slug of an ASCII heading, made with a stable separator, consists
    of stable characters. *)
Lemma slug_steps_stable text sep :
  forallb is_ascii text = true -> forallb stable_char sep = true ->
  forallb stable_char (slug_steps text sep) = true.
Proof.
  intros Ht Hsep. unfold slug_steps, normalize_NFC. rewrite Ht.
  set (s := strip (keep_slug_chars (strip_tags false text))).
  assert (Hs : forall c, In c s -> is_ascii c = true /\ slug_char c = true).
  { intros c Hc. unfold s in Hc. apply strip_In in Hc.
    apply filter_In in Hc as [Hc Hk]. apply strip_tags_In in Hc.
    split; [|assumption]. rewrite forallb_forall in Ht. auto. }
  unfold lower.
  replace (forallb is_ascii s) with true
    by (symmetry; apply forallb_forall; intros c Hc; now apply Hs).
  unfold sep_for_each_space. apply flat_map_forallb.
  intros c' Hc'. apply in_map_iff in Hc' as (c & <- & Hc).
  destruct (Hs c Hc) as [Ha Hk].
  destruct (slug_char_tolower c Ha Hk) as [E|E].
  - rewrite (stable_not_space _ E). cbn. now rewrite E.
  - rewrite E. now rewrite space_is_space.
Qed.

(** A string of stable characters is its own slug. *)
Lemma slug_steps_fixed slug sep :
  forallb stable_char slug = true -> slug_steps slug sep = slug.
Proof.
  intros H. unfold slug_steps, normalize_NFC, lower.
  rewrite (forallb_impl _ _ _ stable_is_ascii H).
  rewrite strip_tags_id
    by (apply (forallb_impl stable_char); [|assumption];
        intros c Hc; now rewrite (proj1 (stable_not c Hc))).
  unfold keep_slug_chars.
  rewrite filter_id by apply (forallb_impl _ _ _ stable_slug_char H).
  assert (Hn : forallb (fun c => negb (isspace c)) slug = true).
  { apply (forallb_impl stable_char); [|assumption].
    intros c Hc. now rewrite (stable_not_space _ Hc). }
  rewrite strip_id by assumption.
  rewrite (forallb_impl _ _ _ stable_is_ascii H).
  rewrite (map_id_on _ stable_char) by auto using stable_tolower.
  now apply sep_for_each_space_id.
Qed.

Lemma stable_plain sep :
  forallb stable_char sep = true -> existsb (N.eqb (ch "\")) sep = false.
Proof.
  induction sep as [|c sep IH]; [reflexivity|].
  cbn [forallb existsb]. intros [Hc Hs]%andb_true_iff.
  rewrite (proj1 (proj2 (stable_not c Hc))). now apply IH.
Qed.

(** C9, as amended.  For an ASCII heading that is not a changelog heading
    and a separator made of ASCII lower-case letters, digits, underscores
    and hyphens (the usual hyphen is one), the slug is not a changelog
    heading either and is a fixed point of the slug generator. *)
Theorem make_slug_idempotent text sep :
  forallb is_ascii text = true ->
  forallb stable_char sep = true ->
  re_match false RE_CHANGELOG text = None ->
  exists slug,
    _make_slug text sep = OK slug /\
    re_match false RE_CHANGELOG slug = None /\
    _make_slug slug sep = OK slug.
Proof.
  intros Ht Hsep Hn%changelog_none. exists (slug_steps text sep).
  pose proof (stable_plain _ Hsep) as Hp.
  pose proof (slug_steps_stable _ _ Ht Hsep) as Hs.
  assert (Hc : changelog_title (slug_steps text sep) = None).
  { apply changelog_title_space. apply (forallb_impl stable_char); auto.
    intros c Hc. now rewrite (proj2 (proj2 (stable_not c Hc))). }
  split; [now apply make_slug_plain|].
  split; [now apply changelog_none|].
  rewrite make_slug_plain; auto. now rewrite slug_steps_fixed.
Qed.

End SlugTheorems.

(** ** What the matcher and the scan return in general *)

Section MatcherSound.
Context {L : PyLib}.

(** A match consumes a prefix of the text. *)
Lemma run_sound R ic : forall r (k : mstate -> nat -> str -> option R)
    st i s res,
  run ic r k st i s = Some res ->
  exists st' n, n <= length s /\ k st' (i + n) (skipn n s) = Some res.
Proof.
  induction r as [|[c lo hi g|g|g] r IH]; intros k st i s res H;
    cbn [run] in H.
  - exists st, 0. rewrite Nat.add_0_r. split; [lia | exact H].
  - assert (exists w s', s = w ++ s' /\
                         run ic r k st (i + length w) s' = Some res)
      as (w & s' & -> & Hk).
    { destruct g.
      - apply rep_greedy_sound in H as (w & s' & ? & _ & _ & ?); eauto.
      - apply rep_lazy_sound in H as (w & s' & ? & _ & _ & ?); eauto. }
    apply IH in Hk as (st' & n & Hn & Hk).
    exists st', (length w + n). rewrite length_app. split; [lia|].
    rewrite Nat.add_assoc.
    replace (skipn (length w + n) (w ++ s')) with (skipn n s'); [exact Hk|].
    rewrite skipn_app, (@skipn_all2 _ (length w + n) w) by lia.
    now replace (length w + n - length w) with n by lia.
  - now apply IH in H.
  - now apply IH in H.
Qed.

Lemma match_at_end ic r adv s m :
  match_at ic r adv s = Some m ->
  m_end m <= length s /\ (adv = true -> m_end m <> 0).
Proof.
  unfold match_at. intros H.
  apply run_sound in H as (st' & n & Hn & H). cbn [Nat.add] in H.
  destruct adv, n; cbn in H; try discriminate; injection H as <-; cbn;
    split; auto; try lia; discriminate.
Qed.

(** The scan goes through the whole text: the characters outside the
    matches and the texts of the matches, in their order, make it up. *)
Lemma scan_cover ic r : forall s skip,
  skip <= length s ->
  concat (map seg_src (scan ic r skip s)) = skipn skip s.
Proof.
  induction s as [|c s IH]; intros skip Hs.
  - assert (skip = 0) as -> by (cbn in Hs; lia).
    cbn [scan skipn].
    destruct (match_at ic r false []) as [m|] eqn:E; [|reflexivity].
    apply match_at_end in E as [E _]. cbn in E.
    assert (E0 : m_end m = 0) by lia. rewrite E0.
    cbn [map concat seg_src hit firstn]. rewrite E0. cbn [firstn app].
    destruct (match_at ic r true []) as [m'|] eqn:E'; [|reflexivity].
    apply match_at_end in E' as [_ E']. specialize (E' eq_refl).
    cbn [map concat seg_src hit]. now rewrite firstn_nil.
  - destruct skip as [|n]; [|cbn [scan skipn]; apply IH; cbn in Hs; lia].
    assert (Hit1 : forall m e, m_end m = S e -> S e <= length (c :: s) ->
      concat (map seg_src (hit r (c :: s) m :: scan ic r (pred (m_end m)) s))
      = c :: s).
    { intros m e Em He. cbn [map concat seg_src hit]. rewrite Em.
      cbn [pred firstn]. rewrite IH by (cbn in He; lia).
      cbn. f_equal. apply firstn_skipn. }
    cbn [scan skipn].
    destruct (match_at ic r false (c :: s)) as [m|] eqn:E.
    + pose proof (match_at_end _ _ _ _ E) as [Hm _].
      destruct (m_end m) as [|e] eqn:Em.
      * cbn [map concat seg_src hit]. rewrite Em. cbn [firstn app].
        destruct (match_at ic r true (c :: s)) as [m'|] eqn:E'.
        -- pose proof (match_at_end _ _ _ _ E') as [Hm' Hn].
           specialize (Hn eq_refl).
           destruct (m_end m') as [|e'] eqn:Em'; [contradiction|].
           rewrite <- Em'. apply (Hit1 m' e'); [assumption | lia].
        -- cbn [map concat seg_src]. rewrite IH by lia. reflexivity.
      * rewrite <- Em. apply (Hit1 m e); [assumption | lia].
    + cbn [map concat seg_src]. rewrite IH by lia. reflexivity.
Qed.

(** Every match that the scan reports is a match of the pattern
    somewhere in the text. *)
Lemma scan_hits ic r x : forall s skip,
  In x (scan ic r skip s) ->
  (exists c, x = Txt c) \/
  (exists s' adv m, match_at ic r adv s' = Some m /\ x = hit r s' m).
Proof.
  induction s as [|c s IH]; intros skip H.
  - destruct skip; [|contradiction]. cbn [scan] in H.
    destruct (match_at ic r false []) as [m|] eqn:E; [|contradiction].
    destruct (m_end m).
    + destruct H as [<-|H]; [right; eauto|].
      destruct (match_at ic r true []) as [m'|] eqn:E'; [|contradiction].
      destruct H as [<-|[]]. right; eauto.
    + destruct H as [<-|[]]. right; eauto.
  - destruct skip as [|n]; [|now apply IH in H].
    cbn [scan] in H.
    destruct (match_at ic r false (c :: s)) as [m|] eqn:E.
    + destruct (m_end m).
      * destruct H as [<-|H]; [right; eauto|].
        destruct (match_at ic r true (c :: s)) as [m'|] eqn:E'.
        -- destruct H as [<-|H]; [right; eauto | now apply IH in H].
        -- destruct H as [<-|H]; [left; eauto | now apply IH in H].
      * destruct H as [<-|H]; [right; eauto | now apply IH in H].
    + destruct H as [<-|H]; [left; eauto | now apply IH in H].
Qed.

Lemma sequence_ok {A} : forall (l : list (result A)) xs,
  sequence l = OK xs -> Forall2 (fun m x => m = OK x) l xs.
Proof.
  induction l as [|m l IH]; intros xs H; cbn in H.
  - injection H as <-. constructor.
  - destruct m as [x|e]; [|discriminate]. cbn in H.
    destruct (sequence l) as [ys|e]; [|discriminate]. cbn in H.
    injection H as <-. constructor; auto.
Qed.

(** The first exception wins. *)
Lemma sequence_raise {A} : forall (l1 : list (result A)) e l2,
  forallb succeeds l1 = true ->
  sequence (l1 ++ Raise e :: l2) = Raise e.
Proof.
  induction l1 as [|m l1 IH]; intros e l2 H; [reflexivity|].
  cbn in H. apply andb_true_iff in H as [Hm H].
  destruct m; [|discriminate]. cbn. now rewrite IH.
Qed.

End MatcherSound.

(** ** The pattern of the shortcodes *)

Section ShortcodePattern.
Context {L : PyLib}.

Lemma slice_mid (x y z : str) :
  slice (length x) (length x + length y) (x ++ y ++ z) = y.
Proof.
  unfold slice. rewrite skipn_app, skipn_all, Nat.sub_diag. cbn [skipn app].
  replace (length x + length y - length x) with (length y) by lia.
  rewrite firstn_app, firstn_all, Nat.sub_diag. cbn. apply app_nil_r.
Qed.

Lemma firstn_exact (x z : str) : firstn (length x) (x ++ z) = x.
Proof.
  rewrite firstn_app, firstn_all, Nat.sub_diag. cbn. apply app_nil_r.
Qed.

Lemma hit_shortcode (o w a cl rest : str) :
  length o = 8 ->
  hit Shortcodes.RE_SHORTCODE (o ++ w ++ a ++ cl ++ rest)
    {| m_end := length (o ++ w ++ a ++ cl);
       m_spans := [(2, (8 + length w, 8 + length w + length a));
                   (1, (8, 8 + length w))] |} =
  Hit (o ++ w ++ a ++ cl) [w; a].
Proof.
  intros Ho. unfold hit, groups. cbn [m_end m_spans].
  change (ngroups _) with 2. cbn [seq map].
  unfold group. cbn [m_spans assoc Nat.eqb].
  f_equal; [|f_equal; [|f_equal]].
  - replace (o ++ w ++ a ++ cl ++ rest) with ((o ++ w ++ a ++ cl) ++ rest)
      by (now rewrite <- !app_assoc).
    apply firstn_exact.
  - rewrite <- Ho. apply slice_mid.
  - replace (o ++ w ++ a ++ cl ++ rest) with ((o ++ w) ++ a ++ cl ++ rest)
      by (now rewrite <- !app_assoc).
    replace (8 + length w) with (length (o ++ w))
      by (rewrite length_app; lia).
    apply slice_mid.
Qed.

(** What the pattern matches is a shortcode comment, and its groups are
    the tag and the argument. *)
Lemma shortcode_sound adv s m :
  match_at true Shortcodes.RE_SHORTCODE adv s = Some m ->
  exists opener tag args,
    is_opener opener = true /\
    tag <> [] /\ forallb word_char tag = true /\
    forallb (fun c => negb (N.eqb c LF)) args = true /\
    hit Shortcodes.RE_SHORTCODE s m =
      Hit (opener ++ tag ++ args ++ u " -->") [tag; args].
Proof.
  unfold match_at, Shortcodes.RE_SHORTCODE. intros H.
  cbn [Lits map String.list_ascii_of_string app] in H.
  unfold Lit, Plus, StarLazy in H. cbn [run] in H.
  lit_step rep_once H c1 E1. lit_step rep_once H c2 E2. lit_step rep_once H c3 E3. lit_step rep_once H c4 E4.
  lit_step rep_once H c5 E5. lit_step rep_once H c6 E6. lit_step rep_once H c7 E7. lit_step rep_once H c8 E8.
  apply rep_greedy_sound in H as (w & s1 & -> & Hw & Hlen & H).
  cbv beta in H.
  apply rep_lazy_sound in H as (a & s2 & -> & Ha & _ & H).
  cbv beta in H.
  lit_step rep_once H d1 F1. lit_step rep_once H d2 F2. lit_step rep_once H d3 F3. lit_step rep_once H d4 F4.
  exact_char E1 c1 (ch "<"). exact_char E2 c2 (ch "!").
  exact_char E3 c3 (ch "-"). exact_char E4 c4 (ch "-").
  exact_char E5 c5 (ch " "). exact_char E8 c8 (ch ":").
  change (N.eqb (tolower c6) (ch "m") = true) in E6.
  change (N.eqb (tolower c7) (ch "d") = true) in E7.
  exact_char F1 d1 (ch " "). exact_char F2 d2 (ch "-").
  exact_char F3 d3 (ch "-"). exact_char F4 d4 (ch ">").
  set (o := [ch "<"; ch "!"; ch "-"; ch "-"; ch " "; c6; c7; ch ":"]).
  exists o, w, a.
  assert (Hm : m = {| m_end := length (o ++ w ++ a ++ u " -->");
                      m_spans := [(2, (8 + length w, 8 + length w + length a));
                                  (1, (8, 8 + length w))] |}).
  { destruct adv; cbn in H; injection H as <-; f_equal;
      rewrite !length_app; cbn; lia. }
  repeat split.
  - unfold o, is_opener. now rewrite E6, E7.
  - intros ->. cbn in Hlen. lia.
  - exact Hw.
  - exact Ha.
  - subst m. exact (hit_shortcode o w a (u " -->") s2 eq_refl).
Qed.


End ShortcodePattern.

(** ** Expansion of the shortcodes *)

Section Expansion.
Context {L : PyLib}.

Lemma str_eqb_eq : forall a b, str_eqb a b = true <-> a = b.
Proof.
  induction a as [|x a IH]; intros [|y b]; cbn; split; try easy.
  - intros [->%N.eqb_eq ->%IH]%andb_true_iff. reflexivity.
  - intros [= -> ->]. rewrite N.eqb_refl. now apply IH.
Qed.

(** The first piece of a split at a character. *)
Lemma split_first c n : forall s,
  more n = true ->
  exists l, split_go [c] n 0 s = before c s :: l.
Proof.
  induction s as [|x s IH]; intros Hn; [now exists []|].
  cbn [split_go before startswith]. rewrite Hn, andb_true_r, N.eqb_sym.
  cbn [andb]. destruct (N.eqb x c).
  - eauto.
  - destruct (IH Hn) as (l & ->). cbn. eauto.
Qed.

(** A tag, or a flag, that is not known raises the error that names it. *)
Lemma replace_offending page files tag args msg :
  offending tag args = Some msg ->
  Shortcodes.replace page files [tag; args] = Raise (RuntimeError msg).
Proof.
  unfold offending, Shortcodes.replace. intros H.
  destruct (str_eqb tag (u "flag")) eqn:Ef.
  - apply str_eqb_eq in Ef. subst tag.
    change (str_eqb (u "flag") (u "version")) with false.
    change (str_eqb (u "flag") (u "flag")) with true. cbn iota.
    unfold Shortcodes.flag, split_on.
    destruct (split_first (ch " ") (Some 1) (strip args) eq_refl) as (l & E).
    change (u " ") with [ch " "]. rewrite E.
    unfold known_flag in H.
    destruct (str_eqb _ (u "experimental")); [discriminate|].
    destruct (str_eqb _ (u "required")); [discriminate|].
    destruct (str_eqb _ (u "customization")); [discriminate|].
    destruct (str_eqb _ (u "metadata")); [discriminate|].
    destruct (str_eqb _ (u "multiple")); [discriminate|].
    cbn in H. now injection H as <-.
  - unfold known_tag in H. rewrite Ef in H.
    destruct (str_eqb tag (u "version")); [discriminate|].
    destruct (str_eqb tag (u "option")); [discriminate|].
    destruct (str_eqb tag (u "setting")); [discriminate|].
    cbn in H. now injection H as <-.
Qed.

(** C3, as amended.  When the scan of the page finds a shortcode whose
    tag is not one of the four, or a flag whose first word is not one of
    the five, and every match in front of it is expanded without an
    exception, the expansion of the page raises the error that carries the
    tag, or the word, whatever comes later in the page: nothing is
    returned for the page. *)
Theorem unknown_shortcode_first md page files front whole tag args later msg :
  scan true Shortcodes.RE_SHORTCODE 0 md =
    front ++ Hit whole [tag; args] :: later ->
  forallb
    (fun x => succeeds
                (expand (fun _ gs => Shortcodes.replace page files gs) x))
    front = true ->
  offending tag args = Some msg ->
  Shortcodes.on_page_markdown md page files = Raise (RuntimeError msg).
Proof.
  intros Hscan Hfront Hoff.
  unfold Shortcodes.on_page_markdown, re_sub_with.
  rewrite Hscan, map_app. cbn [map expand].
  rewrite (replace_offending page files _ _ Hoff).
  rewrite sequence_raise; [reflexivity|].
  clear Hscan. induction front as [|x front IH]; [reflexivity|].
  cbn in *. apply andb_true_iff in Hfront as [-> Hfront]. now apply IH.
Qed.

End Expansion.

(** ** A shortcode comment that is written as it should be *)

Section ShortcodeMatch.
Context {L : PyLib}.

Lemma run_lit_ok R ic a r (k : mstate -> nat -> str -> option R) st i c s :
  in_class ic (One (Chr (ch a))) c = true ->
  run ic (Lit a :: r) k st i (c :: s) = run ic r k st (S i) s.
Proof. intros H. unfold Lit. cbn [run]. now rewrite rep_once, H. Qed.

Lemma run_open R ic g r (k : mstate -> nat -> str -> option R) st i s :
  run ic (Open g :: r) k st i s = run ic r k (mark g i st) i s.
Proof. reflexivity. Qed.

Lemma run_close R ic g r (k : mstate -> nat -> str -> option R) st i s :
  run ic (Close g :: r) k st i s = run ic r k (close g i st) i s.
Proof. reflexivity. Qed.

Lemma run_greedy R ic c lo hi r (k : mstate -> nat -> str -> option R)
    st i s :
  run ic (Rep c lo hi Greedy :: r) k st i s =
  rep_greedy (in_class ic c) (run ic r k st) lo hi i s.
Proof. reflexivity. Qed.

Lemma run_lazy R ic c lo hi r (k : mstate -> nat -> str -> option R)
    st i s :
  run ic (Rep c lo hi Lazy :: r) k st i s =
  rep_lazy (in_class ic c) (run ic r k st) lo hi i s.
Proof. reflexivity. Qed.

Lemma closer_run R (k : mstate -> nat -> str -> option R) st i t :
  run true (Lits " -->") k st i t =
  if startswith (u " -->") t then k st (i + 4) (skipn 4 t) else None.
Proof.
  destruct (Nat.lt_ge_cases (length t) 4) as [H|H].
  - rewrite run_short by exact H.
    do 4 (destruct t as [|? t];
          [cbn; now rewrite ?andb_false_r|]). cbn in H. lia.
  - do 4 (destruct t as [|? t]; [cbn in H; lia|]). clear H.
    cbn [Lits map String.list_ascii_of_string u startswith]. unfold Lit.
    cbn [run].
    do 4 (rewrite rep_once;
          match goal with
          | |- (if in_class true (One (Chr (ch ?a))) ?x then _ else _) = _ =>
              change (in_class true (One (Chr (ch a))) x)
                with (N.eqb x (ch a));
              rewrite (N.eqb_sym x (ch a));
              destruct (N.eqb (ch a) x); cbn [andb]; [|reflexivity]
          end).
    cbn [skipn]. f_equal. lia.
Qed.

(** A lazy star passes over the text at which the continuation fails. *)
Lemma rep_lazy_first R (p : char -> bool) (k : nat -> str -> option R) :
  forall a i s' r,
  forallb p a = true ->
  (forall j, j < length a -> k (i + j) (skipn j (a ++ s')) = None) ->
  k (i + length a) s' = Some r ->
  rep_lazy p k 0 None i (a ++ s') = Some r.
Proof.
  induction a as [|c a IH]; intros i s' r Ha Hfail Hk; rewrite rep_lazy_star.
  - cbn in *. rewrite Nat.add_0_r in Hk. now rewrite Hk.
  - cbn in Ha. apply andb_true_iff in Ha as [Hc Ha].
    pose proof (Hfail 0 ltac:(cbn; lia)) as H0.
    rewrite Nat.add_0_r in H0. cbn [skipn] in H0. rewrite H0.
    cbn [app]. rewrite Hc. apply IH; auto.
    + intros j Hj. specialize (Hfail (S j) ltac:(cbn; lia)).
      cbn [skipn app] in Hfail.
      now replace (S i + j) with (i + S j) by lia.
    + rewrite <- Hk. f_equal. cbn. lia.
Qed.

(** No [ -->] starts inside the argument. *)
Lemma no_close rest : forall args j,
  forallb arg_char args = true -> j < length args ->
  startswith (u " -->") (skipn j (args ++ u " -->" ++ rest)) = false.
Proof.
  induction args as [|c args IH]; intros j Ha Hj; [cbn in Hj; lia|].
  cbn [forallb] in Ha. apply andb_true_iff in Ha as [Hc Ha].
  destruct j as [|j]; [|cbn in Hj; apply IH; [assumption | lia]].
  clear IH. cbn [skipn app].
  destruct args as [|c2 [|c3 [|c4 args]]];
    cbn [u map String.list_ascii_of_string app startswith];
    try (change (N.eqb (ch ">") (ch "-")) with false;
         now rewrite ?andb_false_r);
    try (change (N.eqb (ch ">") (ch " ")) with false;
         now rewrite ?andb_false_r).
  cbn [forallb] in Ha. rewrite !andb_true_iff in Ha.
  destruct Ha as (_ & _ & H4 & _).
  unfold arg_char in H4. apply andb_true_iff in H4 as [_ H4].
  apply negb_true_iff in H4. rewrite N.eqb_sym in H4.
  now rewrite H4, ?andb_false_r.
Qed.

Lemma dot_arg_char c : arg_char c = true -> in_class false (One Dot) c = true
                                           /\ in_class true (One Dot) c = true.
Proof.
  unfold arg_char. intros [H _]%andb_true_iff.
  now cbn [in_class accepts].
Qed.

Lemma is_opener_eq o :
  is_opener o = true ->
  exists m d,
    o = u "<!-- " ++ [m; d] ++ u ":" /\
    N.eqb (tolower m) (ch "m") = true /\ N.eqb (tolower d) (ch "d") = true.
Proof.
  intros H. do 9 (destruct o as [|? o]; try discriminate).
  unfold is_opener in H. rewrite !andb_true_iff in H.
  destruct H as [[[H1 Hm] Hd] H8].
  apply str_eqb_eq in H1. injection H1 as -> -> -> -> ->.
  apply N.eqb_eq in H8. subst. exists c4, c5. auto.
Qed.

Lemma shortcode_match opener tag args rest :
  is_opener opener = true ->
  truthy tag = true -> forallb word_char tag = true ->
  arg_text args = true ->
  match_at true Shortcodes.RE_SHORTCODE false
    (opener ++ tag ++ args ++ u " -->" ++ rest) =
  Some {| m_end := length (opener ++ tag ++ args ++ u " -->");
          m_spans := [(2, (8 + length tag, 8 + length tag + length args));
                      (1, (8, 8 + length tag))] |}.
Proof.
  intros Ho Ht Hw Ha.
  apply is_opener_eq in Ho as (m & d & -> & Em & Ed).
  unfold match_at, Shortcodes.RE_SHORTCODE.
  cbn [Lits map u String.list_ascii_of_string app].
  do 5 (rewrite run_lit_ok by reflexivity).
  rewrite run_lit_ok by exact Em. rewrite run_lit_ok by exact Ed.
  rewrite run_lit_ok by reflexivity.
  rewrite run_open. unfold Plus. rewrite run_greedy.
  unfold arg_text in Ha. apply andb_true_iff in Ha as [Hhead Hargs].
  erewrite rep_greedy_longest; [reflexivity | exact Hw | | | ].
  - destruct tag; [discriminate | cbn; lia].
  - destruct args as [|x args]; [reflexivity|].
    cbn [app in_class accepts]. now apply negb_true_iff in Hhead.
  - rewrite run_close, run_open. unfold StarLazy. rewrite run_lazy.
    change (Lit " " :: Lit "-" :: Lit "-" :: Lit ">" :: nil)
      with (Lits " -->").
    apply rep_lazy_first.
    + apply (forallb_impl arg_char); [|assumption].
      intros x Hx. now apply dot_arg_char.
    + intros j Hj.
      change (ch " " :: ch "-" :: ch "-" :: ch ">" :: rest)
        with (u " -->" ++ rest).
      now rewrite run_close, closer_run, no_close.
    + rewrite run_close, closer_run.
      change (startswith (u " -->") (ch " " :: ch "-" :: ch "-" :: ch ">"
                                       :: rest)) with true.
      cbn iota. cbn [andb]. do 2 f_equal.
      cbn [length]. rewrite !length_app. cbn [length]. lia.
Qed.

End ShortcodeMatch.

(** ** The parts of a page *)

Section Comments.
Context {L : PyLib}.

Lemma word_run_split : forall s,
  s = word_run s ++ skipn (length (word_run s)) s /\
  forallb word_char (word_run s) = true /\
  match skipn (length (word_run s)) s with
  | c :: _ => word_char c = false
  | [] => True
  end.
Proof.
  induction s as [|c s (IH1 & IH2 & IH3)]; [cbn; auto|].
  cbn [word_run]. destruct (word_char c) eqn:E.
  - cbn [length skipn app forallb]. rewrite E, IH2. repeat split; auto.
    now rewrite <- IH1.
  - cbn. auto.
Qed.

Lemma word_run_word : forall w s,
  forallb word_char w = true -> word_run (w ++ s) = w ++ word_run s.
Proof.
  induction w as [|c w IH]; intros s H; [reflexivity|].
  cbn [forallb] in H. apply andb_true_iff in H as [Hc Hw].
  cbn [app word_run]. now rewrite Hc, IH.
Qed.

(** The run of word characters ends in front of a character that is not
    one. *)
Lemma word_run_before c t : word_char c = false -> forall a,
  exists a2, a = word_run (a ++ c :: t) ++ a2.
Proof.
  intros Hc. induction a as [|x a (a2 & IH)].
  - exists []. cbn. now rewrite Hc.
  - cbn [app word_run]. destruct (word_char x).
    + exists a2. cbn [app]. now rewrite <- IH.
    + now exists (x :: a).
Qed.

Lemma find_closer_eq s :
  find_closer s =
  if startswith (u " -->") s then Some 0
  else
    match s with
    | [] => None
    | c :: s' =>
        if N.eqb c LF then None
        else
          match find_closer s' with
          | Some j => Some (S j)
          | None => None
          end
    end.
Proof. destruct s; reflexivity. Qed.

(** What [find_closer] finds: the argument in front of the first
    [ -->]. *)
Lemma find_closer_sound : forall s j,
  find_closer s = Some j ->
  exists rest,
    s = firstn j s ++ u " -->" ++ rest /\
    length (firstn j s) = j /\
    forallb (fun c => negb (N.eqb c LF)) (firstn j s) = true /\
    (forall i, i < j ->
       startswith (u " -->") (skipn i (firstn j s ++ u " -->" ++ rest))
       = false).
Proof.
  induction s as [|c s IH]; intros j H; rewrite find_closer_eq in H.
  - discriminate.
  - destruct (startswith (u " -->") (c :: s)) eqn:Es.
    + injection H as <-. apply startswith_split in Es.
      exists (skipn 4 (c :: s)). cbn [firstn app length forallb].
      repeat split; auto. intros i Hi. lia.
    + destruct (N.eqb c LF) eqn:Ec; [discriminate|].
      destruct (find_closer s) as [j'|] eqn:Ef; [|discriminate].
      injection H as <-.
      destruct (IH j' eq_refl) as (rest & H1 & H2 & H3 & H4).
      exists rest. cbn [firstn app length forallb].
      rewrite Ec, H2, H3. repeat split; auto.
      * now rewrite <- H1.
      * intros [|i] Hi.
        -- cbn [skipn]. now rewrite <- H1.
        -- cbn [skipn]. apply H4. lia.
Qed.

Lemma find_closer_found rest : forall a,
  forallb (fun c => negb (N.eqb c LF)) a = true ->
  exists j, find_closer (a ++ u " -->" ++ rest) = Some j.
Proof.
  induction a as [|c a IH]; intros H.
  - exists 0. reflexivity.
  - cbn [forallb] in H. apply andb_true_iff in H as [Hc Ha].
    apply negb_true_iff in Hc. destruct (IH Ha) as (j & Hj).
    rewrite find_closer_eq.
    destruct (startswith _ _); [eauto|].
    cbn [app]. rewrite Hc, Hj. eauto.
Qed.

End Comments.

Section CommentMatch.
Context {L : PyLib}.

(** The match of the pattern at a comment whose argument ends at the
    first [ -->]. *)
Lemma shortcode_match_first opener tag args rest :
  is_opener opener = true ->
  truthy tag = true -> forallb word_char tag = true ->
  match args ++ u " -->" with
  | c :: _ => word_char c = false
  | [] => True
  end ->
  forallb (fun c => negb (N.eqb c LF)) args = true ->
  (forall i, i < length args ->
     startswith (u " -->") (skipn i (args ++ u " -->" ++ rest)) = false) ->
  match_at true Shortcodes.RE_SHORTCODE false
    (opener ++ tag ++ args ++ u " -->" ++ rest) =
  Some {| m_end := length (opener ++ tag ++ args ++ u " -->");
          m_spans := [(2, (8 + length tag, 8 + length tag + length args));
                      (1, (8, 8 + length tag))] |}.
Proof.
  intros Ho Ht Hw Hhead Hargs Hfirst.
  apply is_opener_eq in Ho as (m & d & -> & Em & Ed).
  unfold match_at, Shortcodes.RE_SHORTCODE.
  cbn [Lits map u String.list_ascii_of_string app].
  do 5 (rewrite run_lit_ok by reflexivity).
  rewrite run_lit_ok by exact Em. rewrite run_lit_ok by exact Ed.
  rewrite run_lit_ok by reflexivity.
  rewrite run_open. unfold Plus. rewrite run_greedy.
  erewrite rep_greedy_longest; [reflexivity | exact Hw | | | ].
  - destruct tag; [discriminate | cbn; lia].
  - destruct args as [|x args]; [reflexivity|].
    cbn [app in_class accepts]. exact Hhead.
  - rewrite run_close, run_open. unfold StarLazy. rewrite run_lazy.
    change (Lit " " :: Lit "-" :: Lit "-" :: Lit ">" :: nil)
      with (Lits " -->").
    apply rep_lazy_first.
    + exact Hargs.
    + intros j Hj.
      change (ch " " :: ch "-" :: ch "-" :: ch ">" :: rest)
        with (u " -->" ++ rest).
      now rewrite run_close, closer_run, Hfirst.
    + rewrite run_close, closer_run.
      change (startswith (u " -->") (ch " " :: ch "-" :: ch "-" :: ch ">"
                                       :: rest)) with true.
      cbn iota. cbn [andb]. do 2 f_equal.
      cbn [length]. rewrite !length_app. cbn [length]. lia.
Qed.

(** The comment that [comment_at] reads, and the match of the pattern
    there. *)
Lemma comment_at_match s tag args n :
  comment_at s = Some (tag, args, n) ->
  exists opener rest,
    s = opener ++ tag ++ args ++ u " -->" ++ rest /\
    is_opener opener = true /\
    n = length (opener ++ tag ++ args ++ u " -->") /\
    tag <> [] /\ forallb word_char tag = true /\
    forallb (fun c => negb (N.eqb c LF)) args = true /\
    match_at true Shortcodes.RE_SHORTCODE false s =
    Some {| m_end := n;
            m_spans := [(2, (8 + length tag, 8 + length tag + length args));
                        (1, (8, 8 + length tag))] |}.
Proof.
  unfold comment_at. intros H.
  destruct (is_opener (firstn 8 s)) eqn:Ho; [|discriminate].
  cbv zeta in H.
  assert (Ho8 : length (firstn 8 s) = 8).
  { apply is_opener_eq in Ho as (a & b & E & _). now rewrite E. }
  destruct (word_run_split (skipn 8 s)) as (Hs & Hw & Hnext).
  remember (word_run (skipn 8 s)) as w eqn:Ew. clear Ew.
  remember (skipn (length w) (skipn 8 s)) as r eqn:Er. clear Er.
  assert (Ht : truthy w = true) by (destruct w; [discriminate|reflexivity]).
  assert (H' : match find_closer r with
               | Some j => Some (w, firstn j r, 8 + length w + j + 4)
               | None => None
               end = Some (tag, args, n))
    by (destruct w; [discriminate|exact H]).
  clear H. destruct (find_closer r) as [j|] eqn:Ej; [|discriminate].
  injection H' as <- <- <-.
  destruct (find_closer_sound _ Ej) as (rest & Hr & Hj & Hline & Hfirst).
  remember (firstn j r) as a eqn:Ea. clear Ea.
  assert (E : s = firstn 8 s ++ w ++ a ++ u " -->" ++ rest).
  { rewrite <- Hr, <- Hs. symmetry. apply firstn_skipn. }
  exists (firstn 8 s), rest. split; [exact E|]. split; [exact Ho|].
  assert (Hlen : length (firstn 8 s ++ w ++ a ++ u " -->") =
                 8 + length w + j + 4).
  { rewrite !length_app, Ho8, Hj. cbn [length u map
      String.list_ascii_of_string]. lia. }
  split; [rewrite Hlen; lia|].
  split; [destruct w; [discriminate|congruence]|].
  split; [exact Hw|]. split; [exact Hline|].
  assert (Hm : match_at true Shortcodes.RE_SHORTCODE false
                 (firstn 8 s ++ w ++ a ++ u " -->" ++ rest) =
               Some {| m_end := length (firstn 8 s ++ w ++ a ++ u " -->");
                       m_spans := [(2, (8 + length w,
                                        8 + length w + length a));
                                   (1, (8, 8 + length w))] |}).
  { apply shortcode_match_first; auto.
    - rewrite Hr in Hnext. destruct a; [reflexivity|exact Hnext].
    - now rewrite Hj. }
  rewrite <- E, Hlen, Hj in Hm. rewrite Hm, Hj. reflexivity.
Qed.


Lemma skipn_exact (x z : str) : skipn (length x) (x ++ z) = z.
Proof. now rewrite skipn_app, skipn_all, Nat.sub_diag. Qed.

(** Where the pattern matches, a comment starts. *)
Lemma match_comment adv s m :
  match_at true Shortcodes.RE_SHORTCODE adv s = Some m ->
  exists tag args n, comment_at s = Some (tag, args, n).
Proof.
  intros H.
  apply shortcode_sound in H as (o & tag & args & Ho & Hne & Hw & Hline & Hh).
  assert (Hf : firstn (m_end m) s = o ++ tag ++ args ++ u " -->")
    by (unfold hit in Hh; congruence).
  clear Hh.
  assert (Ho8 : length o = 8).
  { apply is_opener_eq in Ho as (a & b & -> & _). reflexivity. }
  assert (Hs : s = o ++ tag ++ args ++ u " -->" ++ skipn (m_end m) s).
  { rewrite <- (firstn_skipn (m_end m) s) at 1. rewrite Hf.
    now rewrite <- !app_assoc. }
  remember (skipn (m_end m) s) as rest eqn:Er. clear Er Hf.
  change (u " -->" ++ rest) with (ch " " :: u "-->" ++ rest) in Hs.
  destruct (word_run_before (ch " ") (u "-->" ++ rest) eq_refl args)
    as (a2 & Ha).
  match type of Ha with _ = ?w ++ _ => remember w as x eqn:Ex end.
  assert (E8 : firstn 8 s = o).
  { rewrite Hs, <- Ho8. apply firstn_exact. }
  assert (Eb : skipn 8 s = tag ++ args ++ ch " " :: u "-->" ++ rest).
  { rewrite Hs at 1. rewrite <- Ho8. apply skipn_exact. }
  assert (Ew : word_run (skipn 8 s) = tag ++ x).
  { rewrite Eb, word_run_word by assumption. now rewrite Ex. }
  clear Ex. subst args.
  assert (Er : skipn (length (tag ++ x)) (skipn 8 s) =
               a2 ++ u " -->" ++ rest).
  { rewrite Eb.
    etransitivity; [|apply (skipn_exact (tag ++ x))].
    f_equal. now rewrite <- !app_assoc. }
  assert (Hl2 : forallb (fun c => negb (N.eqb c LF)) a2 = true).
  { rewrite forallb_app in Hline.
    now apply andb_true_iff in Hline as [_ Hline]. }
  assert (Hj : exists j, find_closer (a2 ++ u " -->" ++ rest) = Some j)
    by (now apply find_closer_found).
  destruct Hj as (j & Hj).
  unfold comment_at. rewrite E8, Ho. cbv zeta. rewrite Ew, Er, Hj.
  destruct tag as [|c tag]; [congruence|]. cbn [app]. eauto.
Qed.

(** The match of the pattern, read off the text. *)
Lemma match_at_comment s :
  match_at true Shortcodes.RE_SHORTCODE false s =
  match comment_at s with
  | Some (tag, args, n) =>
      Some {| m_end := n;
              m_spans := [(2, (8 + length tag, 8 + length tag + length args));
                          (1, (8, 8 + length tag))] |}
  | None => None
  end.
Proof.
  destruct (comment_at s) as [[[tag args] n]|] eqn:E.
  - now destruct (comment_at_match _ E)
      as (o & rest & _ & _ & _ & _ & _ & _ & H).
  - destruct (match_at true Shortcodes.RE_SHORTCODE false s) eqn:Em;
      [|reflexivity].
    destruct (match_comment _ _ Em) as (tag & args & n & H). congruence.
Qed.

(** The scan of the pattern finds the parts of the page. *)
Lemma scan_parts : forall s skip,
  scan true Shortcodes.RE_SHORTCODE skip s = map seg_of (parts skip s).
Proof.
  induction s as [|c s IH]; intros skip.
  - destruct skip; [|reflexivity]. apply scan_end.
    rewrite match_at_comment. reflexivity.
  - destruct skip as [|k]; [|cbn [scan parts]; apply IH].
    cbn [parts].
    destruct (comment_at (c :: s)) as [[[tag args] n]|] eqn:E.
    + destruct (comment_at_match _ E)
        as (o & rest & Hs & Ho & Hn & _ & _ & _ & Hm).
      assert (Ho8 : length o = 8).
      { apply is_opener_eq in Ho as (a & b & -> & _). reflexivity. }
      assert (Hpos : exists e, n = S e).
      { rewrite Hn, length_app, Ho8. cbn. eauto. }
      destruct Hpos as (e & He).
      assert (Hhit :
        hit Shortcodes.RE_SHORTCODE (c :: s)
          {| m_end := n;
             m_spans := [(2, (8 + length tag,
                              8 + length tag + length args));
                         (1, (8, 8 + length tag))] |} =
        Hit (firstn n (c :: s)) [tag; args]).
      { rewrite Hs, Hn.
        rewrite (hit_shortcode o tag args (u " -->") rest Ho8). f_equal.
        symmetry. etransitivity;
          [|apply (firstn_exact (o ++ tag ++ args ++ u " -->") rest)].
        f_equal. now rewrite <- !app_assoc. }
      rewrite (scan_hit _ _ _ _ Hm (e := e)) by (cbn; exact He).
      cbn [map seg_of]. rewrite Hhit, IH, He. reflexivity.
    + rewrite scan_txt by (rewrite match_at_comment, E; reflexivity).
      cbn [map seg_of]. now rewrite IH.
Qed.


Lemma parts_well_formed : forall s skip, Forall well_formed (parts skip s).
Proof.
  induction s as [|c s IH]; intros skip; [constructor|].
  destruct skip as [|k]; [|apply IH]. cbn [parts].
  destruct (comment_at (c :: s)) as [[[tag args] n]|] eqn:E.
  - constructor; [|apply IH].
    destruct (comment_at_match _ E)
      as (o & rest & Hs & Ho & Hn & Ht & Hw & Hl & _).
    exists o. repeat split; auto.
    rewrite Hs, Hn.
    etransitivity;
      [|apply (firstn_exact (o ++ tag ++ args ++ u " -->") rest)].
    f_equal. now rewrite <- !app_assoc.
  - constructor; [exact I|apply IH].
Qed.

(** C7.  A page is read from left to right as a sequence of parts: at a
    place where a shortcode comment starts (an opener, the longest tag,
    the argument up to the first [ -->] on the line) the part is that
    comment, anywhere else it is the next character.  The parts make up
    the page, in their order.  The expansion renders every part in that
    order and returns the results one after the other: a character is
    rendered as itself, so the text outside the comments is in the output
    as it is in the page, and a comment is rendered, where it stands, as
    what [replace] returns for its tag and argument; the first exception
    of [replace] is the result for the page. *)
Theorem expansion_in_place md page files :
  md = concat (map part_src (parts 0 md)) /\
  Forall well_formed (parts 0 md) /\
  Shortcodes.on_page_markdown md page files =
    (outs <- sequence (map (render page files) (parts 0 md)) ;;
     OK (concat outs)).
Proof.
  split; [|split].
  - assert (H : concat (map seg_src
                              (scan true Shortcodes.RE_SHORTCODE 0 md)) =
                 skipn 0 md) by (apply scan_cover; lia).
    rewrite scan_parts, map_map in H. cbn [skipn] in H.
    rewrite <- H at 1. f_equal. apply map_ext. now intros [c|w tag args].
  - apply parts_well_formed.
  - unfold Shortcodes.on_page_markdown, re_sub_with.
    rewrite scan_parts, map_map. f_equal. f_equal.
    apply map_ext. now intros [c|w tag args].
Qed.

End CommentMatch.

(** ** Paths and anchors *)

Section Paths.
Context {L : PyLib}.

Lemma split_char c : forall s,
  split_go [c] None 0 s =
  before c s ::
  (if existsb (N.eqb c) s then split_go [c] None 0 (after c s) else []).
Proof.
  induction s as [|x s IH]; [reflexivity|].
  cbn [split_go more andb startswith before after existsb length pred].
  rewrite andb_true_r, (N.eqb_sym x c).
  destruct (N.eqb c x); cbn [orb]; [reflexivity|].
  rewrite IH. reflexivity.
Qed.

Lemma before_snoc c : forall s, before c (s ++ [c]) = before c s.
Proof.
  induction s as [|x s IH]; cbn; [now rewrite N.eqb_refl|].
  now rewrite IH.
Qed.

Lemma after_snoc c : forall s,
  after c (s ++ [c]) = if existsb (N.eqb c) s then after c s ++ [c] else [].
Proof.
  induction s as [|x s IH]; cbn; [now rewrite N.eqb_refl|].
  rewrite (N.eqb_sym c x). destruct (N.eqb x c); [reflexivity | exact IH].
Qed.

Lemma after_none c : forall s, existsb (N.eqb c) s = false -> after c s = [].
Proof.
  induction s as [|x s IH]; [reflexivity|].
  cbn. rewrite (N.eqb_sym c x). destruct (N.eqb x c); [discriminate|].
  exact IH.
Qed.

Lemma existsb_snoc c s : existsb (N.eqb c) (s ++ [c]) = true.
Proof. rewrite existsb_app. cbn. now rewrite N.eqb_refl, orb_true_r. Qed.

(** The two names that [_resolve_path] unpacks. *)
Lemma split_anchor path :
  exists l,
    split_on (u "#") None (path ++ u "#") =
    before (ch "#") path :: before (ch "#") (after (ch "#") path) :: l.
Proof.
  unfold split_on. change (u "#") with [ch "#"].
  rewrite split_char, before_snoc, existsb_snoc, after_snoc.
  destruct (existsb (N.eqb (ch "#")) path) eqn:E.
  - rewrite split_char, before_snoc. eauto.
  - rewrite (after_none _ _ E). cbn. eauto.
Qed.

(** Without its first segment. *)
Lemma resolve_first_segment f page :
  Shortcodes._resolve f page =
  after (ch "/") (relpath (src_uri f) (src_uri (file page))).
Proof.
  unfold Shortcodes._resolve, Shortcodes.sep, split_on.
  change (u "/") with [ch "/"].
  set (rel := relpath _ _). rewrite split_char. cbn [tl].
  destruct (existsb (N.eqb (ch "/")) rel) eqn:E.
  - apply join_split with (n := length (after (ch "/") rel));
      [discriminate | lia].
  - now rewrite after_none.
Qed.

Lemma resolve_path_found path page files f :
  get_file_from_path files (before (ch "#") path) = Some f ->
  Shortcodes._resolve_path path page files =
  OK (after (ch "/") (relpath (src_uri f) (src_uri (file page))) ++
      (if truthy (before (ch "#") (after (ch "#") path))
       then u "#" ++ before (ch "#") (after (ch "#") path)
       else [])).
Proof.
  intros H. unfold Shortcodes._resolve_path.
  destruct (split_anchor path) as (l & ->). rewrite H.
  rewrite resolve_first_segment. f_equal.
  destruct (truthy _); [reflexivity | now rewrite app_nil_r].
Qed.

End Paths.

(** ** The shortcodes one by one *)

Section Tags.
Context {L : PyLib}.

Lemma scan_single opener tag args :
  is_opener opener = true ->
  truthy tag = true -> forallb word_char tag = true ->
  arg_text args = true ->
  scan true Shortcodes.RE_SHORTCODE 0 (opener ++ tag ++ args ++ u " -->") =
  [Hit (opener ++ tag ++ args ++ u " -->") [tag; args]].
Proof.
  intros Ho Ht Hw Ha.
  pose proof (shortcode_match opener tag args [] Ho Ht Hw Ha) as Hm.
  assert (Hlen : length opener = 8).
  { apply is_opener_eq in Ho as (m & d & -> & _). reflexivity. }
  pose proof (hit_shortcode opener tag args (u " -->") [] Hlen) as Hhit.
  rewrite !app_nil_r in Hm, Hhit.
  destruct opener as [|c o]; [discriminate|].
  cbn [app] in *.
  erewrite scan_hit; [| exact Hm | reflexivity].
  rewrite Hhit. f_equal.
  rewrite <- (app_nil_r (o ++ tag ++ args ++ u " -->")) at 2.
  rewrite scan_skip. now apply scan_end.
Qed.

Lemma bind_unit (m : result str) :
  (parts <- (x <- m ;; xs <- OK [] ;; OK (x :: xs)) ;; OK (concat parts)) = m.
Proof. destruct m; cbn; [now rewrite app_nil_r | reflexivity]. Qed.

(** The page that is one shortcode comment. *)
Lemma expand_single opener tag args page files :
  is_opener opener = true ->
  truthy tag = true -> forallb word_char tag = true ->
  arg_text args = true ->
  Shortcodes.on_page_markdown (opener ++ tag ++ args ++ u " -->") page files
    = Shortcodes.replace page files [tag; args].
Proof.
  intros Ho Ht Hw Ha. unfold Shortcodes.on_page_markdown, re_sub_with.
  rewrite scan_single by assumption.
  cbn [map expand sequence]. apply bind_unit.
Qed.

(** C4, as amended.  Case is ignored where the pattern has letters of
    its own, that is in [md], and nowhere else: a comment whose opener is
    [<!-- md:] with [md] in either case is taken as a shortcode, its tag
    is taken as it is written and compared as it is with the four
    lower-case names.  So the page that is one such comment expands as
    [replace] says for the tag as written, and a tag that is not exactly
    one of the four, such as [VERSION], raises the unknown-shortcode error
    that carries it. *)
Theorem shortcode_case opener tag args page files :
  is_opener opener = true ->
  truthy tag = true -> forallb word_char tag = true ->
  arg_text args = true ->
  Shortcodes.on_page_markdown (opener ++ tag ++ args ++ u " -->") page files
    = Shortcodes.replace page files [tag; args] /\
  (known_tag tag = false ->
   Shortcodes.on_page_markdown (opener ++ tag ++ args ++ u " -->") page files
     = Raise (RuntimeError (u "Unknown shortcode: " ++ tag))).
Proof.
  intros Ho Ht Hw Ha.
  pose proof (expand_single opener tag args page files Ho Ht Hw Ha) as E.
  split; [exact E|].
  intros Hk. rewrite E. apply replace_offending.
  unfold offending. rewrite Hk.
  unfold known_tag in Hk. rewrite !orb_false_iff in Hk.
  destruct Hk as [[[_ ->] _] _]. reflexivity.
Qed.

End Tags.

Section Outcomes.
Context {L : PyLib}.

Lemma pieces_shape (P : char -> bool) : forall s,
  match pieces (map (fun x => if P x then Hit [x] [] else Txt x) s) with
  | [] => False
  | [_] => existsb P s = false
  | _ :: _ :: _ => existsb P s = true
  end.
Proof.
  induction s as [|x s IH]; [reflexivity|].
  cbn [map existsb]. destruct (P x); cbn [pieces orb].
  - now destruct (pieces _).
  - destruct (pieces _) as [|a [|b l]]; [contradiction| |]; exact IH.
Qed.

(** [_, *_, name = re.split(...)] needs a separator in the text. *)
Lemma unpack_split c s :
  (existsb (in_class false c) s = true ->
   exists name, Shortcodes.unpack_last (re_split false [Once c] s) = OK name)
  /\
  (existsb (in_class false c) s = false ->
   Shortcodes.unpack_last (re_split false [Once c] s) = Raise ValueError).
Proof.
  unfold re_split. rewrite scan_once.
  pose proof (pieces_shape (in_class false c) s) as H.
  destruct (pieces _) as [|a [|b l]]; [contradiction| |]; rewrite H;
    split; try discriminate; cbn; eauto.
Qed.

Lemma option_sep_class c :
  in_class false (AnyOf [Chr (ch "."); Chr (ch ":")]) c = option_sep c.
Proof. unfold option_sep. cbn. now rewrite orb_false_r. Qed.

Lemma setting_sep_class c :
  in_class false (AnyOf [Chr (ch "."); Chr (ch "*")]) c = setting_sep c.
Proof. unfold setting_sep. cbn. now rewrite orb_false_r. Qed.

Lemma existsb_ext {A} (f g : A -> bool) l :
  (forall x, f x = g x) -> existsb f l = existsb g l.
Proof. intros H. induction l; cbn; [reflexivity | now rewrite H, IHl]. Qed.

Lemma option_outcome type :
  (existsb option_sep type = true ->
   exists out, Shortcodes.option type = OK out) /\
  (existsb option_sep type = false ->
   Shortcodes.option type = Raise ValueError).
Proof.
  unfold Shortcodes.option, Shortcodes.RE_OPTION_SEP.
  rewrite <- (existsb_ext _ _ type option_sep_class).
  destruct (unpack_split (AnyOf [Chr (ch "."); Chr (ch ":")]) type)
    as [H1 H2].
  split; intros H.
  - destruct (H1 H) as (name & ->). cbn. eauto.
  - now rewrite (H2 H).
Qed.

Lemma setting_outcome type :
  (existsb setting_sep type = true ->
   exists out, Shortcodes.setting type = OK out) /\
  (existsb setting_sep type = false ->
   Shortcodes.setting type = Raise ValueError).
Proof.
  unfold Shortcodes.setting, Shortcodes.RE_SETTING_SEP.
  rewrite <- (existsb_ext _ _ type setting_sep_class).
  destruct (unpack_split (AnyOf [Chr (ch "."); Chr (ch "*")]) type)
    as [H1 H2].
  split; intros H.
  - destruct (H1 H) as (name & ->). cbn. eauto.
  - now rewrite (H2 H).
Qed.

Lemma version_outcome text page files cl :
  get_file_from_path files (u "changelog.md") = Some cl ->
  exists out, Shortcodes._badge_for_version text page files = OK out.
Proof.
  intros H. unfold Shortcodes._badge_for_version.
  destruct (truthy text); [|cbn; eauto].
  rewrite resolve_path_found with (f := cl) by exact H.
  cbn [bind]. eauto.
Qed.

Lemma flag_outcome args page files cv :
  get_file_from_path files (u "conventions.md") = Some cv ->
  (exists out, Shortcodes.flag args page files = OK out) \/
  (known_flag (before (ch " ") args) = false /\
   Shortcodes.flag args page files =
     Raise (RuntimeError (u "Unknown type: " ++ before (ch " ") args))).
Proof.
  intros H. unfold Shortcodes.flag, split_on, known_flag.
  destruct (split_first (ch " ") (Some 1) args eq_refl) as (l & E).
  change (u " ") with [ch " "]. rewrite E.
  set (t := before (ch " ") args).
  destruct (str_eqb t (u "experimental")); [left; eexists; reflexivity|].
  destruct (str_eqb t (u "required")).
  { left. unfold Shortcodes._badge_for_required.
    rewrite resolve_path_found with (f := cv) by exact H.
    cbn [bind]. eauto. }
  destruct (str_eqb t (u "customization")).
  { left. unfold Shortcodes._badge_for_customization.
    rewrite resolve_path_found with (f := cv) by exact H.
    cbn [bind]. eauto. }
  destruct (str_eqb t (u "metadata")).
  { left. unfold Shortcodes._badge_for_metadata.
    rewrite resolve_path_found with (f := cv) by exact H.
    cbn [bind]. eauto. }
  destruct (str_eqb t (u "multiple")).
  { left. unfold Shortcodes._badge_for_multiple.
    rewrite resolve_path_found with (f := cv) by exact H.
    cbn [bind]. eauto. }
  right. auto.
Qed.

(** C2, as amended.  On a site that has the two pages the badges link
    to, an exception of the expansion of one shortcode is one of four: the
    error for a tag that is not known, the error for a flag that is not
    known, and a [ValueError] for an [option] whose argument has no [.]
    and no [:], or a [setting] whose argument has no [.] and no [*]: an
    argument without its separator is not accepted.  Every other argument
    of the four tags is, and the empty version gives the badge with the
    icon and no text. *)
Theorem recognized_tag_outcomes page files cl cv tag args :
  get_file_from_path files (u "changelog.md") = Some cl ->
  get_file_from_path files (u "conventions.md") = Some cv ->
  (forall e,
     Shortcodes.replace page files [tag; args] = Raise e ->
     (known_tag tag = false /\
      e = RuntimeError (u "Unknown shortcode: " ++ tag)) \/
     (tag = u "flag" /\ known_flag (before (ch " ") (strip args)) = false /\
      e = RuntimeError (u "Unknown type: " ++ before (ch " ") (strip args)))
     \/
     (tag = u "option" /\ existsb option_sep (strip args) = false /\
      e = ValueError) \/
     (tag = u "setting" /\ existsb setting_sep (strip args) = false /\
      e = ValueError)) /\
  (existsb option_sep (strip args) = false ->
   Shortcodes.replace page files [u "option"; args] = Raise ValueError) /\
  (existsb setting_sep (strip args) = false ->
   Shortcodes.replace page files [u "setting"; args] = Raise ValueError) /\
  (strip args = [] ->
   Shortcodes.replace page files [u "version"; args] =
   OK (u "<span class=" ++ dq ++ u "mdx-badge" ++ dq ++ u ">" ++
       u "<span class=" ++ dq ++ u "mdx-badge__icon" ++ dq ++ u ">" ++
       u "[:material-tag-outline:]('Minimum nextest version')</span>" ++
       u "</span>")).
Proof.
  intros Hcl Hcv. repeat split.
  - intros e H. unfold Shortcodes.replace in H. unfold known_tag.
    destruct (str_eqb tag (u "version")) eqn:E1.
    { destruct (version_outcome (strip args) page files Hcl) as (out & E).
      rewrite E in H. discriminate. }
    destruct (str_eqb tag (u "flag")) eqn:E2.
    { apply str_eqb_eq in E2.
      destruct (flag_outcome (strip args) page files Hcv)
        as [(out & E)|(Hk & E)]; rewrite E in H; [discriminate|].
      injection H as <-. right. left. auto. }
    destruct (str_eqb tag (u "option")) eqn:E3.
    { apply str_eqb_eq in E3. right. right. left.
      destruct (option_outcome (strip args)) as [H1 H2].
      destruct (existsb option_sep (strip args)).
      - destruct (H1 eq_refl) as (out & E). rewrite E in H. discriminate.
      - rewrite (H2 eq_refl) in H. injection H as <-. auto. }
    destruct (str_eqb tag (u "setting")) eqn:E4.
    { apply str_eqb_eq in E4. right. right. right.
      destruct (setting_outcome (strip args)) as [H1 H2].
      destruct (existsb setting_sep (strip args)).
      - destruct (H1 eq_refl) as (out & E). rewrite E in H. discriminate.
      - rewrite (H2 eq_refl) in H. injection H as <-. auto. }
    injection H as <-. left. auto.
  - intros H. unfold Shortcodes.replace.
    change (str_eqb (u "option") (u "version")) with false.
    change (str_eqb (u "option") (u "flag")) with false.
    change (str_eqb (u "option") (u "option")) with true. cbn iota.
    now apply option_outcome.
  - intros H. unfold Shortcodes.replace.
    change (str_eqb (u "setting") (u "version")) with false.
    change (str_eqb (u "setting") (u "flag")) with false.
    change (str_eqb (u "setting") (u "option")) with false.
    change (str_eqb (u "setting") (u "setting")) with true. cbn iota.
    now apply setting_outcome.
  - intros H. unfold Shortcodes.replace.
    change (str_eqb (u "version") (u "version")) with true. cbn iota.
    rewrite H. reflexivity.
Qed.

(** C5, as amended.  [_resolve_path] takes the path up to the first [#]
    and, as the anchor, the text between the first [#] and the second:
    that is all that follows the first [#] when there is no second one,
    and what stands after a second [#] is left out.  It looks the path up
    in the files of the site, takes the path of the file that was found
    relative to the source path of the page, leaves out the first segment
    of that relative path, whatever it is, and puts [#] and the anchor
    behind it when the anchor is not empty, and only then.  So
    [md:version 0.9.0] gives the badge whose text links to the changelog,
    relative to the page and without the first segment, at the anchor
    [0.9.0]. *)
Theorem resolve_path_anchor path page files f cl :
  get_file_from_path files (before (ch "#") path) = Some f ->
  get_file_from_path files (u "changelog.md") = Some cl ->
  Shortcodes._resolve_path path page files =
    OK (after (ch "/") (relpath (src_uri f) (src_uri (file page))) ++
        (if truthy (before (ch "#") (after (ch "#") path))
         then u "#" ++ before (ch "#") (after (ch "#") path)
         else [])) /\
  (existsb (N.eqb (ch "#")) (after (ch "#") path) = false ->
   before (ch "#") (after (ch "#") path) = after (ch "#") path) /\
  Shortcodes.on_page_markdown (u "<!-- md:version 0.9.0 -->") page files =
    OK (u "<span class=" ++ dq ++ u "mdx-badge" ++ dq ++ u ">" ++
        u "<span class=" ++ dq ++ u "mdx-badge__icon" ++ dq ++ u ">" ++
        u "[:material-tag-outline:]('Minimum nextest version')</span>" ++
        u "<span class=" ++ dq ++ u "mdx-badge__text" ++ dq ++ u ">" ++
        u "[0.9.0](" ++
        after (ch "/") (relpath (src_uri cl) (src_uri (file page))) ++
        u "#0.9.0)</span></span>").
Proof.
  intros Hf Hcl. split; [now apply resolve_path_found|]. split.
  { generalize (after (ch "#") path). intros s.
    induction s as [|x s IH]; intros H; [reflexivity|].
    cbn [existsb] in H. apply orb_false_iff in H as [Hx Hs].
    cbn [before]. rewrite N.eqb_sym, Hx. now rewrite IH. }
  assert (E : Shortcodes.on_page_markdown
                (u "<!-- md:" ++ u "version" ++ u " 0.9.0" ++ u " -->")
                page files
              = Shortcodes.replace page files [u "version"; u " 0.9.0"])
    by (apply expand_single; reflexivity).
  change (u "<!-- md:" ++ u "version" ++ u " 0.9.0" ++ u " -->")
    with (u "<!-- md:version 0.9.0 -->") in E.
  rewrite E. unfold Shortcodes.replace.
  change (str_eqb (u "version") (u "version")) with true. cbn iota.
  change (strip (u " 0.9.0")) with (u "0.9.0").
  unfold Shortcodes._badge_for_version.
  change (truthy (u "0.9.0")) with true. cbn iota.
  rewrite resolve_path_found with (f := cl) by exact Hcl.
  cbn [bind]. f_equal.
  set (rel := after (ch "/") (relpath (src_uri cl) (src_uri (file page)))).
  change (before (ch "#") (after (ch "#") (u "changelog.md#" ++ u "0.9.0")))
    with (u "0.9.0").
  change (truthy (u "0.9.0")) with true. cbn iota.
  clearbody rel. unfold Shortcodes._badge. cbn.
  repeat (rewrite <- !app_assoc; cbn). reflexivity.
Qed.

End Outcomes.

(** * Further properties of the two files *)

(** ** Slugs *)

Section SlugBehaviour.
Context {L : PyLib}.
Import Slugs.

Lemma re_sub_with_total ic r (f : str -> list str -> str) s :
  exists out, re_sub_with ic r (fun w gs => OK (f w gs)) s = OK out.
Proof.
  unfold re_sub_with.
  assert (H : forall l, exists xs,
            sequence (map (expand (fun w gs => OK (f w gs))) l) = OK xs).
  { induction l as [|x l [xs IH]]; [eexists; reflexivity|].
    cbn [map sequence]. rewrite IH.
    destruct x; cbn; eexists; reflexivity. }
  destruct (H (scan ic r 0 s)) as [xs ->]. eexists. reflexivity.
Qed.

(** The slug generator up to its last step, which is the only one that
    reads the separator. *)
Lemma make_slug_last_step text sep :
  re_match false RE_CHANGELOG text = None ->
  _make_slug text sep =
  re_sub false RE_WHITESPACE sep
    (lower (strip (keep_slug_chars (strip_tags false (normalize_NFC text))))).
Proof.
  intros Hm. unfold _make_slug. rewrite Hm, sub_html_tags. cbn [bind].
  rewrite sub_invalid_slug_char. reflexivity.
Qed.

Lemma make_slug_returns text sep :
  existsb (N.eqb (ch "\")) sep = false ->
  exists slug, _make_slug text sep = OK slug.
Proof.
  intros Hb. destruct (changelog_title text) as [t|] eqn:Ht.
  - eexists. now apply make_slug_title with (title := t).
  - eexists. now apply make_slug_plain.
Qed.

(** X1.  [_make_slug] raises in one case only: the heading is not a
    changelog heading, the separator holds a backslash, and [re] refuses
    the separator as a replacement template; the exception is [re.error].
    On every other input it returns a slug. *)
Theorem make_slug_raises text sep e :
  _make_slug text sep = Raise e <->
  e = ReError /\ re_match false RE_CHANGELOG text = None /\
  existsb (N.eqb (ch "\")) sep = true /\ template 0 sep = None.
Proof.
  unfold _make_slug.
  destruct (re_match false RE_CHANGELOG text) as [m|] eqn:Hm.
  - split; [discriminate|]. intros (_ & H & _). discriminate.
  - rewrite sub_html_tags. cbn [bind]. rewrite sub_invalid_slug_char.
    cbn [bind]. unfold re_sub.
    destruct (existsb (N.eqb (ch "\")) sep) eqn:Hb.
    + change (ngroups RE_WHITESPACE) with 0.
      destruct (template 0 sep) as [f|] eqn:Ht.
      * match goal with
        | |- context [re_sub_with ?ic ?r _ ?s] =>
            destruct (re_sub_with_total ic r f s) as [out ->]
        end.
        split; [discriminate|]. intros (_ & _ & _ & H). discriminate.
      * split.
        -- intros H. injection H as <-. auto.
        -- intros (-> & _). reflexivity.
    + rewrite re_sub_with_const. split; [discriminate|].
      intros (_ & _ & H & _). discriminate.
Qed.

(** What is left of an ASCII heading before the separators are put in:
    ASCII characters that the filter keeps. *)
Lemma kept_chars text c :
  forallb is_ascii text = true ->
  In c (strip (keep_slug_chars (strip_tags false text))) ->
  is_ascii c = true /\ slug_char c = true.
Proof.
  intros Ht Hc. apply strip_In in Hc.
  apply filter_In in Hc as [Hc Hk]. apply strip_tags_In in Hc.
  split; [|assumption]. rewrite forallb_forall in Ht. auto.
Qed.

Lemma kept_ascii text :
  forallb is_ascii text = true ->
  forallb is_ascii (strip (keep_slug_chars (strip_tags false text))) = true.
Proof.
  intros Ht. apply forallb_forall. intros c Hc.
  now apply (kept_chars text c Ht).
Qed.

(** X2.  An ASCII heading without a word character, a hyphen or a
    space (the empty heading is one) has the empty slug, for every
    separator without a backslash. *)
Theorem make_slug_nothing_kept text sep :
  forallb is_ascii text = true ->
  forallb (fun c => negb (slug_char c)) text = true ->
  existsb (N.eqb (ch "\")) sep = false ->
  _make_slug text sep = OK [].
Proof.
  intros Ha Hp Hb.
  assert (Hn : changelog_title text = None).
  { apply changelog_title_space.
    apply (forallb_impl (fun c => negb (slug_char c))); [|assumption].
    intros c Hc. destruct (N.eqb_spec c (ch " ")) as [->|]; [|reflexivity].
    unfold slug_char in Hc. rewrite N.eqb_refl, orb_true_r in Hc.
    discriminate. }
  rewrite make_slug_plain by assumption. f_equal.
  unfold slug_steps, normalize_NFC. rewrite Ha.
  assert (Hk : keep_slug_chars (strip_tags false text) = []).
  { unfold keep_slug_chars.
    destruct (filter slug_char (strip_tags false text)) as [|c l] eqn:E;
      [reflexivity|].
    assert (Hc : In c (filter slug_char (strip_tags false text)))
      by (rewrite E; apply in_eq).
    apply filter_In in Hc as [Hc Hs]. apply strip_tags_In in Hc.
    rewrite forallb_forall in Hp. specialize (Hp c Hc).
    rewrite Hs in Hp. discriminate. }
  rewrite Hk. reflexivity.
Qed.

(** X3.  The slug of an ASCII heading that is not a changelog heading
    is made of ASCII lower-case letters, digits, underscores, hyphens and
    the characters of the separator, and of nothing else: no upper-case
    letter, white space or punctuation of the heading is left in it. *)
Theorem make_slug_alphabet text sep :
  forallb is_ascii text = true ->
  re_match false RE_CHANGELOG text = None ->
  existsb (N.eqb (ch "\")) sep = false ->
  exists slug,
    _make_slug text sep = OK slug /\
    forallb (fun c => stable_char c || existsb (N.eqb c) sep) slug = true.
Proof.
  intros Ht Hn%changelog_none Hb. exists (slug_steps text sep).
  split; [now apply make_slug_plain|].
  unfold slug_steps, normalize_NFC. rewrite Ht.
  unfold lower. rewrite (kept_ascii _ Ht).
  unfold sep_for_each_space. apply flat_map_forallb.
  intros c' Hc'. apply in_map_iff in Hc' as (c & <- & Hc).
  destruct (kept_chars _ _ Ht Hc) as [Ha Hk].
  assert (Hsep : forallb (fun c => stable_char c || existsb (N.eqb c) sep) sep
                 = true).
  { apply forallb_forall. intros x Hx. apply orb_true_iff. right.
    apply existsb_exists. exists x. split; [assumption|apply N.eqb_refl]. }
  destruct (slug_char_tolower c Ha Hk) as [E|E].
  - rewrite (stable_not_space _ E). cbn. now rewrite E.
  - rewrite E. now rewrite space_is_space.
Qed.


(** ** Lower case *)

Lemma tolower_space c : isspace (ascii_tolower c) = isspace c.
Proof.
  upper_case c E1 E2. unfold isspace, is_ascii, ascii_space. bcase.
Qed.

Lemma tolower_decimal c : isdecimal (ascii_tolower c) = isdecimal c.
Proof.
  upper_case c E1 E2. unfold isdecimal, is_ascii, ascii_digit. bcase.
Qed.

Lemma tolower_slug_char c : slug_char (ascii_tolower c) = slug_char c.
Proof.
  upper_case c E1 E2.
  unfold slug_char, isalnum, ascii_alnum, ascii_upper,
    ascii_lower, ascii_digit, is_ascii.
  ch_values. bcase.
Qed.

Lemma tolower_is_ascii c : is_ascii (ascii_tolower c) = is_ascii c.
Proof.
  upper_case c E1 E2. unfold is_ascii. bcase.
Qed.

Lemma tolower_twice c : ascii_tolower (ascii_tolower c) = ascii_tolower c.
Proof.
  upper_case c E1 E2. unfold ascii_tolower, ascii_upper. bcase.
Qed.

(** A character that is not a letter is the lower case of itself only. *)
Lemma tolower_eqb c v :
  ascii_upper v = false -> ascii_lower v = false ->
  N.eqb (ascii_tolower c) v = N.eqb c v.
Proof.
  intros Hu Hl. upper_case c E1 E2.
  unfold ascii_upper in Hu. unfold ascii_lower in Hl.
  destruct (N.eqb_spec (c + 32) v) as [E|E];
    destruct (N.eqb_spec c v) as [F|F]; try reflexivity; exfalso.
  - subst v. revert Hl. bcase.
  - subst v. revert Hu. bcase.
Qed.


Lemma dated_tolower s : dated (map ascii_tolower s) = dated s.
Proof.
  do 13 (destruct s as [|? s]; [reflexivity|]).
  cbn [map]. unfold dated.
  rewrite !tolower_decimal. rewrite !tolower_eqb by reflexivity.
  reflexivity.
Qed.

Lemma changelog_title_tolower : forall s,
  changelog_title (map ascii_tolower s) =
  match changelog_title s with
  | Some t => Some (map ascii_tolower t)
  | None => None
  end.
Proof.
  induction s as [|c s IH].
  - reflexivity.
  - rewrite (changelog_title_eq (c :: s)).
    rewrite (changelog_title_eq (map ascii_tolower (c :: s))).
    rewrite dated_tolower. destruct (dated (c :: s)); [reflexivity|].
    cbn [map]. unfold LF. rewrite tolower_eqb by reflexivity.
    destruct (N.eqb c 10); [reflexivity|].
    rewrite IH. destruct (changelog_title s); reflexivity.
Qed.

Lemma strip_tags_tolower : forall s b,
  strip_tags b (map ascii_tolower s) = map ascii_tolower (strip_tags b s).
Proof.
  induction s as [|c s IH]; intros b; [reflexivity|].
  cbn [map strip_tags]. rewrite !tolower_eqb by reflexivity.
  assert (E : existsb (N.eqb (ch ">")) (map ascii_tolower s) =
              existsb (N.eqb (ch ">")) s).
  { clear. induction s as [|x s IH]; [reflexivity|]. cbn [map existsb].
    rewrite IH. f_equal. rewrite (N.eqb_sym _ (ascii_tolower x)).
    rewrite tolower_eqb by reflexivity. apply N.eqb_sym. }
  rewrite E.
  destruct b.
  - destruct (N.eqb c (ch ">")); apply IH.
  - destruct (N.eqb c (ch "<") && existsb (N.eqb (ch ">")) s);
      [apply IH|]. cbn [map]. now rewrite IH.
Qed.

Lemma filter_map_commute {A} (f : A -> A) (P : A -> bool) :
  (forall x, P (f x) = P x) ->
  forall l, filter P (map f l) = map f (filter P l).
Proof.
  intros H. induction l as [|x l IH]; [reflexivity|].
  cbn [map filter]. rewrite H. destruct (P x); cbn [map]; now rewrite IH.
Qed.

Lemma lstrip_tolower : forall s,
  lstrip (map ascii_tolower s) = map ascii_tolower (lstrip s).
Proof.
  induction s as [|c s IH]; [reflexivity|].
  cbn [map lstrip]. rewrite tolower_space.
  destruct (isspace c); [apply IH|reflexivity].
Qed.

Lemma strip_tolower s :
  strip (map ascii_tolower s) = map ascii_tolower (strip s).
Proof.
  unfold strip, rstrip.
  now rewrite lstrip_tolower, <- map_rev, lstrip_tolower, map_rev.
Qed.

Lemma forallb_map {A} (f : A -> A) (P : A -> bool) l :
  (forall x, P (f x) = P x) -> forallb P (map f l) = forallb P l.
Proof.
  intros H. induction l as [|x l IH]; [reflexivity|].
  cbn [map forallb]. now rewrite H, IH.
Qed.

(** X4.  Outside the changelog case the slug does not depend on the
    case of the heading: an ASCII heading and its lower-case form are both
    no changelog headings, and have the same slug (or raise the same
    exception), for every separator. *)
Theorem make_slug_ignores_case text sep :
  forallb is_ascii text = true ->
  re_match false RE_CHANGELOG text = None ->
  re_match false RE_CHANGELOG (lower text) = None /\
  _make_slug (lower text) sep = _make_slug text sep.
Proof.
  intros Ha Hm.
  assert (Hl : lower text = map ascii_tolower text)
    by (unfold lower; now rewrite Ha).
  assert (Hm' : re_match false RE_CHANGELOG (lower text) = None).
  { apply changelog_none. rewrite Hl, changelog_title_tolower.
    apply changelog_none in Hm. now rewrite Hm. }
  split; [assumption|].
  rewrite !make_slug_last_step by assumption. f_equal.
  assert (Ha' : forallb is_ascii (map ascii_tolower text) = true)
    by (rewrite forallb_map; auto using tolower_is_ascii).
  rewrite Hl. unfold normalize_NFC. rewrite Ha, Ha'.
  unfold keep_slug_chars.
  rewrite strip_tags_tolower, filter_map_commute, strip_tolower
    by apply tolower_slug_char.
  unfold lower. rewrite forallb_map by apply tolower_is_ascii.
  pose proof (kept_ascii _ Ha) as Hk. unfold keep_slug_chars in Hk.
  rewrite Hk, map_map. apply map_ext. intros c. apply tolower_twice.
Qed.


(** ** Characters that the filter removes *)

Lemma existsb_skip (c x : char) a b :
  N.eqb c x = false ->
  existsb (N.eqb c) (a ++ x :: b) = existsb (N.eqb c) (a ++ b).
Proof.
  intros H. rewrite !existsb_app. cbn [existsb]. now rewrite H.
Qed.

Lemma kept_without c b :
  slug_char c = false ->
  N.eqb c (ch "<") = false -> N.eqb c (ch ">") = false ->
  forall a intag,
  keep_slug_chars (strip_tags intag (a ++ c :: b)) =
  keep_slug_chars (strip_tags intag (a ++ b)).
Proof.
  intros Hk Hlt Hgt. unfold keep_slug_chars.
  induction a as [|x a IH]; intros intag.
  - cbn [app strip_tags]. rewrite Hlt, Hgt. cbn [andb].
    destruct intag; [reflexivity|]. cbn [filter]. now rewrite Hk.
  - cbn [app strip_tags].
    rewrite existsb_skip by (now rewrite N.eqb_sym).
    destruct intag.
    + destruct (N.eqb x (ch ">")); apply IH.
    + destruct (N.eqb x (ch "<") && existsb (N.eqb (ch ">")) (a ++ b));
        [apply IH|]. cbn [filter]. now rewrite IH.
Qed.

(** X5.  A character that the filter removes (not a word character, a
    hyphen or a space) and that is not an angle bracket does not count: an
    ASCII heading has the same slug with it and without it, when neither
    of the two is a changelog heading.  So a tab or a line feed is
    dropped, and only the space character becomes a separator. *)
Theorem make_slug_skips_removed a c b sep :
  forallb is_ascii (a ++ c :: b) = true ->
  slug_char c = false -> c <> ch "<" -> c <> ch ">" ->
  re_match false RE_CHANGELOG (a ++ c :: b) = None ->
  re_match false RE_CHANGELOG (a ++ b) = None ->
  _make_slug (a ++ c :: b) sep = _make_slug (a ++ b) sep.
Proof.
  intros Ha Hk Hlt%N.eqb_neq Hgt%N.eqb_neq Hm Hm'.
  rewrite !make_slug_last_step by assumption. f_equal.
  assert (Ha' : forallb is_ascii (a ++ b) = true).
  { rewrite forallb_app in *. cbn [forallb] in Ha.
    apply andb_true_iff in Ha as [H1 [_ H2]%andb_true_iff].
    now rewrite H1, H2. }
  unfold normalize_NFC. rewrite Ha, Ha'.
  now rewrite kept_without.
Qed.

(** ** The short slug *)

Lemma split_returns s sep :
  truthy sep = true -> split s sep = OK (split_on sep None s).
Proof. destruct sep; [discriminate|reflexivity]. Qed.

Lemma join_split_on sep s :
  truthy sep = true -> join sep (split_on sep None s) = s.
Proof.
  intros H. unfold split_on. apply join_split with (n := length s).
  - destruct sep; [discriminate|congruence].
  - reflexivity.
Qed.

(** X6.  When the slug has five words or fewer, the short slug is the
    slug itself. *)
Theorem make_slug_short_same text sep slug :
  truthy sep = true ->
  _make_slug text sep = OK slug ->
  length (split_on sep None slug) <= 5 ->
  _make_slug_short text sep = OK slug.
Proof.
  intros Hsep Hs Hn. unfold _make_slug_short. rewrite Hs. cbn [bind].
  rewrite split_returns by assumption. cbn [bind].
  rewrite firstn_all2 by assumption. now rewrite join_split_on.
Qed.

(** X7.  [_make_slug_short] raises in two cases only: with the empty
    separator, a [ValueError], for every heading; and when [_make_slug]
    raises, the same exception. *)
Theorem make_slug_short_raises text sep e :
  _make_slug_short text sep = Raise e <->
  (sep = [] /\ e = ValueError) \/ _make_slug text sep = Raise e.
Proof.
  unfold _make_slug_short. split.
  - destruct (_make_slug text sep) as [slug|e'] eqn:Hs; cbn [bind].
    + destruct sep as [|c sep]; cbn [split bind]; [|discriminate].
      intros H. injection H as <-. left. auto.
    + intros H. now right.
  - intros [[-> ->]|H].
    + destruct (@make_slug_returns text (@nil char)) as [slug ->];
        reflexivity.
    + now rewrite H.
Qed.


Lemma startswith_app : forall p t, startswith p (p ++ t) = true.
Proof.
  induction p as [|x p IH]; intros t; [reflexivity|].
  cbn. now rewrite N.eqb_refl, IH.
Qed.

Lemma startswith_longer : forall p s t,
  startswith p s = true -> startswith p (s ++ t) = true.
Proof.
  induction p as [|x p IH]; intros s t H; [reflexivity|].
  destruct s as [|y s]; [discriminate|]. cbn in *.
  apply andb_true_iff in H as [-> H]. cbn. now apply IH.
Qed.

Lemma firstn_cons_head (c : char) k l :
  l <> [] -> firstn (S k) (cons_head c l) = cons_head c (firstn (S k) l).
Proof. destruct l; [congruence|reflexivity]. Qed.

(** Splitting the first words of a text, joined again, gives these words:
    the cut is at an occurrence of the separator that the split found. *)
Lemma split_join_firstn sep : sep <> [] -> forall n s, length s <= n ->
  forall k,
  split_go sep None 0 (join sep (firstn (S k) (split_go sep None 0 s))) =
  firstn (S k) (split_go sep None 0 s).
Proof.
  intros Hsep. induction n as [|n IH]; intros s Hn k.
  - destruct s; [|cbn in Hn; lia].
    cbn [split_go firstn]. now rewrite firstn_nil.
  - destruct s as [|c s];
      [cbn [split_go firstn]; now rewrite firstn_nil|].
    cbn [split_go more andb fewer].
    destruct (startswith sep (c :: s)) eqn:Hst.
    + apply startswith_split in Hst.
      destruct sep as [|x sep']; [congruence|].
      cbn [length app skipn] in Hst. injection Hst as -> Hs.
      cbn [length pred]. rewrite Hs, split_go_skip.
      set (rest := skipn (length sep') s) in *.
      assert (Hr : length rest <= n).
      { cbn [length] in Hn. rewrite Hs, length_app in Hn. lia. }
      destruct k as [|k]; [reflexivity|].
      change (firstn (S (S k)) ([] :: split_go (x :: sep') None 0 rest))
        with ([] :: firstn (S k) (split_go (x :: sep') None 0 rest)).
      assert (Hne : firstn (S k) (split_go (x :: sep') None 0 rest) <> []).
      { destruct (split_go (x :: sep') None 0 rest) eqn:E;
          [now apply split_go_nonempty in E|discriminate]. }
      rewrite join_nil_cons by assumption.
      change ((x :: sep') ++ ?t) with (x :: sep' ++ t).
      cbn [app split_go more andb fewer].
      change (x :: sep' ++ ?t) with ((x :: sep') ++ t).
      rewrite startswith_app. cbn [length pred].
      rewrite split_go_skip. now rewrite IH.
    + assert (Hne : split_go sep None 0 s <> []) by apply split_go_nonempty.
      rewrite firstn_cons_head by assumption.
      assert (Hne' : firstn (S k) (split_go sep None 0 s) <> []).
      { destruct (split_go sep None 0 s); [congruence|discriminate]. }
      rewrite join_cons_head by assumption.
      cbn [split_go more andb].
      destruct (join_firstn sep (split_go sep None 0 s) (S k)) as [tail Ht].
      rewrite (join_split Hsep (n := length s)) in Ht by reflexivity.
      destruct (startswith sep
                  (c :: join sep (firstn (S k) (split_go sep None 0 s))))
        eqn:Hst'.
      * apply startswith_longer with (t := tail) in Hst'.
        cbn [app] in Hst'. rewrite <- Ht in Hst'. congruence.
      * rewrite IH by (cbn in Hn; lia). reflexivity.
Qed.

(** X8.  A short slug has at most five words between separators, and
    cutting it to five words again does not change it. *)
Theorem make_slug_short_five text sep short :
  _make_slug_short text sep = OK short ->
  length (split_on sep None short) <= 5 /\
  join sep (firstn 5 (split_on sep None short)) = short.
Proof.
  unfold _make_slug_short.
  destruct (_make_slug text sep) as [slug|] eqn:Hs; [|discriminate].
  cbn [bind]. destruct sep as [|x sep]; [discriminate|].
  cbn [split bind]. intros H.
  apply (f_equal (fun r => match r with OK a => a | Raise _ => [] end)) in H.
  cbv beta iota in H. subst short. unfold split_on.
  rewrite split_join_firstn with (n := length slug);
    [|discriminate|reflexivity].
  split.
  - apply firstn_le_length.
  - now rewrite firstn_firstn.
Qed.


(** ** Tags *)

Lemma existsb_app_true (c : char) a rest :
  existsb (N.eqb c) a = true -> existsb (N.eqb c) (a ++ rest) = true.
Proof. intros H. now rewrite existsb_app, H. Qed.

(** Text in which every tag is closed is cleaned on its own. *)
Lemma strip_tags_app rest : forall (a : str) (intag : bool),
  (if intag then existsb (N.eqb (ch ">")) a else true) = true ->
  existsb (N.eqb (ch "<")) (strip_tags intag a) = false ->
  strip_tags intag (a ++ rest) = strip_tags intag a ++ strip_tags false rest.
Proof.
  induction a as [|x a IH]; intros intag Hc Ho.
  - destruct intag; [discriminate|reflexivity].
  - cbn [app strip_tags] in *. destruct intag.
    + cbn [existsb] in Hc. rewrite (N.eqb_sym _ x) in Hc.
      destruct (N.eqb x (ch ">")); [now apply IH|].
      now apply IH.
    + destruct (N.eqb x (ch "<")) eqn:Ex; cbn [andb] in *.
      * destruct (existsb (N.eqb (ch ">")) a) eqn:Eg.
        -- rewrite existsb_app_true by assumption. now apply IH.
        -- cbn [existsb] in Ho. rewrite N.eqb_sym, Ex in Ho. discriminate.
      * cbn [existsb] in Ho. apply orb_false_iff in Ho as [_ Ho].
        cbn [app]. f_equal. now apply IH.
Qed.

Lemma strip_tags_inside b : forall t,
  existsb (N.eqb (ch ">")) t = false ->
  strip_tags true (t ++ ch ">" :: b) = strip_tags false b.
Proof.
  induction t as [|x t IH]; intros H.
  - reflexivity.
  - cbn [existsb] in H. apply orb_false_iff in H as [Hx Ht].
    cbn [app strip_tags]. rewrite N.eqb_sym, Hx. now apply IH.
Qed.

(** X9.  A tag does not count: when the text in front of it has no
    tag left open, an ASCII heading has the same slug with [<t>] and
    without it, when neither of the two is a changelog heading. *)
Theorem make_slug_skips_tag a t b sep :
  forallb is_ascii (a ++ u "<" ++ t ++ u ">" ++ b) = true ->
  existsb (N.eqb (ch "<")) (strip_tags false a) = false ->
  existsb (N.eqb (ch ">")) t = false ->
  re_match false RE_CHANGELOG (a ++ u "<" ++ t ++ u ">" ++ b) = None ->
  re_match false RE_CHANGELOG (a ++ b) = None ->
  _make_slug (a ++ u "<" ++ t ++ u ">" ++ b) sep = _make_slug (a ++ b) sep.
Proof.
  intros Ha Hopen Ht Hm Hm'.
  rewrite !make_slug_last_step by assumption. f_equal.
  assert (Ha' : forallb is_ascii (a ++ b) = true).
  { rewrite !forallb_app in Ha. rewrite !andb_true_iff in Ha.
    destruct Ha as (H1 & _ & _ & _ & H2).
    now rewrite forallb_app, H1, H2. }
  unfold normalize_NFC. rewrite Ha, Ha'.
  rewrite (strip_tags_app b a false) by auto.
  rewrite (strip_tags_app (u "<" ++ t ++ u ">" ++ b) a false) by auto.
  change (u "<" ++ t ++ u ">" ++ b) with (ch "<" :: t ++ ch ">" :: b).
  cbn [strip_tags]. rewrite N.eqb_refl.
  rewrite existsb_app. cbn [existsb]. rewrite N.eqb_refl, orb_true_r.
  cbn [andb orb]. now rewrite strip_tags_inside.
Qed.

End SlugBehaviour.

Section PathBehaviour.
Context {L : PyLib}.

Lemma before_app c : forall p x,
  existsb (N.eqb c) p = false -> before c (p ++ c :: x) = p.
Proof.
  induction p as [|y p IH]; intros x H; cbn.
  - now rewrite N.eqb_refl.
  - cbn in H. rewrite (N.eqb_sym c y) in H.
    destruct (N.eqb y c); [discriminate|]. now rewrite IH.
Qed.

Lemma after_app c : forall p x,
  existsb (N.eqb c) p = false -> after c (p ++ c :: x) = x.
Proof.
  induction p as [|y p IH]; intros x H; cbn.
  - now rewrite N.eqb_refl.
  - cbn in H. rewrite (N.eqb_sym c y) in H.
    destruct (N.eqb y c); [discriminate|]. now rewrite IH.
Qed.

Lemma before_none c : forall s,
  existsb (N.eqb c) s = false -> before c s = s.
Proof.
  induction s as [|y s IH]; intros H; [reflexivity|]. cbn in *.
  rewrite (N.eqb_sym c y) in H.
  destruct (N.eqb y c); [discriminate|]. now rewrite IH.
Qed.

(** [_resolve_path], with the two names it unpacks written out. *)
Lemma resolve_path_eq path page files :
  Shortcodes._resolve_path path page files =
  match get_file_from_path files (before (ch "#") path) with
  | Some f =>
      OK (after (ch "/") (relpath (src_uri f) (src_uri (file page))) ++
          (if truthy (before (ch "#") (after (ch "#") path))
           then u "#" ++ before (ch "#") (after (ch "#") path)
           else []))
  | None => Raise AttributeError
  end.
Proof.
  destruct (get_file_from_path files (before (ch "#") path)) as [f|] eqn:E.
  - now apply resolve_path_found.
  - unfold Shortcodes._resolve_path.
    destruct (split_anchor path) as (l & ->). now rewrite E.
Qed.

(** X10.  [_resolve_path] raises in one case only: the site has no file
    at the path in front of the first [#]; the exception is the
    [AttributeError] of reading [src_uri] of [None]. *)
Theorem resolve_path_raises path page files e :
  Shortcodes._resolve_path path page files = Raise e <->
  e = AttributeError /\
  get_file_from_path files (before (ch "#") path) = None.
Proof.
  rewrite resolve_path_eq.
  destruct (get_file_from_path files (before (ch "#") path)) as [f|].
  - split; [discriminate|]. intros [_ H]. discriminate.
  - split.
    + intros H. injection H as <-. auto.
    + now intros [-> _].
Qed.

(** X11.  Of a path with more than one [#], [_resolve_path] reads the
    text up to the second one: what stands after it is ignored.  A path
    that ends in [#] resolves as the path without it. *)
Theorem resolve_path_second_hash p a junk page files :
  existsb (N.eqb (ch "#")) p = false ->
  existsb (N.eqb (ch "#")) a = false ->
  Shortcodes._resolve_path (p ++ u "#" ++ a ++ u "#" ++ junk) page files =
  Shortcodes._resolve_path (p ++ u "#" ++ a) page files /\
  Shortcodes._resolve_path (p ++ u "#") page files =
  Shortcodes._resolve_path p page files.
Proof.
  intros Hp Ha. rewrite !resolve_path_eq.
  change (u "#") with [ch "#"]. cbn [app].
  rewrite !before_app, !after_app by assumption.
  rewrite before_app, (before_none _ _ Ha) by assumption.
  rewrite (before_none _ _ Hp), (after_none _ _ Hp).
  split; reflexivity.
Qed.

End PathBehaviour.

Section TagBehaviour.
Context {L : PyLib}.

(** [flag] looks at the text before the first space only. *)
Lemma flag_dispatch args page files :
  Shortcodes.flag args page files =
  let type := before (ch " ") args in
  if str_eqb type (u "experimental")
  then Shortcodes._badge_for_experimental page files
  else if str_eqb type (u "required")
  then Shortcodes._badge_for_required page files
  else if str_eqb type (u "customization")
  then Shortcodes._badge_for_customization page files
  else if str_eqb type (u "metadata")
  then Shortcodes._badge_for_metadata page files
  else if str_eqb type (u "multiple")
  then Shortcodes._badge_for_multiple page files
  else Raise (RuntimeError (u "Unknown type: " ++ type)).
Proof.
  unfold Shortcodes.flag, split_on.
  destruct (split_first (ch " ") (Some 1) args eq_refl) as (l & E).
  change (u " ") with [ch " "]. rewrite E. reflexivity.
Qed.

(** X12.  [flag] reads the first word of its argument: the text after
    the first space does not change the result. *)
Theorem flag_extra_text type extra page files :
  existsb (N.eqb (ch " ")) type = false ->
  Shortcodes.flag (type ++ u " " ++ extra) page files =
  Shortcodes.flag type page files.
Proof.
  intros H. rewrite !flag_dispatch.
  change (u " ") with [ch " "]. cbn [app].
  now rewrite before_app, before_none.
Qed.

(** X13.  On a site without [conventions.md], the flag [experimental]
    still gives its badge, which has an icon and no link; the four other
    flags raise [AttributeError], and every other word raises the error
    for a flag that is not known. *)
Theorem flag_without_conventions args page files :
  get_file_from_path files (u "conventions.md") = None ->
  Shortcodes.flag args page files =
  if str_eqb (before (ch " ") args) (u "experimental")
  then OK (u "<span class=" ++ dq ++ u "mdx-badge" ++ dq ++ u ">" ++
           u "<span class=" ++ dq ++ u "mdx-badge__icon" ++ dq ++ u ">" ++
           u ":material-flask-outline:</span></span>")
  else if known_flag (before (ch " ") args) then Raise AttributeError
  else Raise (RuntimeError (u "Unknown type: " ++ before (ch " ") args)).
Proof.
  intros H. rewrite flag_dispatch. cbv zeta. unfold known_flag.
  set (t := before (ch " ") args).
  destruct (str_eqb t (u "experimental")); [reflexivity|].
  cbn [orb].
  destruct (str_eqb t (u "required")).
  { unfold Shortcodes._badge_for_required. rewrite resolve_path_eq.
    change (before (ch "#") (u "conventions.md#required"))
      with (u "conventions.md").
    now rewrite H. }
  destruct (str_eqb t (u "customization")).
  { unfold Shortcodes._badge_for_customization. rewrite resolve_path_eq.
    change (before (ch "#") (u "conventions.md#customization"))
      with (u "conventions.md").
    now rewrite H. }
  destruct (str_eqb t (u "metadata")).
  { unfold Shortcodes._badge_for_metadata. rewrite resolve_path_eq.
    change (before (ch "#") (u "conventions.md#metadata"))
      with (u "conventions.md").
    now rewrite H. }
  destruct (str_eqb t (u "multiple")).
  { unfold Shortcodes._badge_for_multiple. rewrite resolve_path_eq.
    change (before (ch "#") (u "conventions.md#multiple-instances"))
      with (u "conventions.md").
    now rewrite H. }
  reflexivity.
Qed.

(** X14.  On a site with [conventions.md], each of the four linked
    flags gives a badge that holds one icon and no text: the icon of the
    flag, linked to the conventions page, relative to the current page
    and without the first segment, at the anchor of the flag, with the
    tooltip of the flag.  The anchor of [multiple] is
    [multiple-instances]. *)
Theorem flag_linked_badge args page files cv icon anchor title :
  get_file_from_path files (u "conventions.md") = Some cv ->
  linked_flag (before (ch " ") args) = Some (icon, anchor, title) ->
  Shortcodes.flag args page files =
  OK (u "<span class=" ++ dq ++ u "mdx-badge" ++ dq ++ u ">" ++
      u "<span class=" ++ dq ++ u "mdx-badge__icon" ++ dq ++ u ">" ++
      u "[:" ++ icon ++ u ":](" ++
      after (ch "/") (relpath (src_uri cv) (src_uri (file page))) ++
      u "#" ++ anchor ++ u " '" ++ title ++ u "')" ++
      u "</span></span>").
Proof.
  intros H Hl. rewrite flag_dispatch. cbv zeta.
  unfold linked_flag in Hl.
  set (t := before (ch " ") args) in *.
  set (rel := after (ch "/") _).
  destruct (str_eqb t (u "experimental")) eqn:E0.
  { apply str_eqb_eq in E0. rewrite E0 in Hl. discriminate. }
  destruct (str_eqb t (u "required")).
  { injection Hl as <- <- <-. unfold Shortcodes._badge_for_required.
    rewrite resolve_path_found with (f := cv) by exact H. fold rel.
    clearbody rel. cbn [bind]. f_equal. unfold Shortcodes._badge. cbn.
    repeat (rewrite <- !app_assoc; cbn). reflexivity. }
  destruct (str_eqb t (u "customization")).
  { injection Hl as <- <- <-. unfold Shortcodes._badge_for_customization.
    rewrite resolve_path_found with (f := cv) by exact H. fold rel.
    clearbody rel. cbn [bind]. f_equal. unfold Shortcodes._badge. cbn.
    repeat (rewrite <- !app_assoc; cbn). reflexivity. }
  destruct (str_eqb t (u "metadata")).
  { injection Hl as <- <- <-. unfold Shortcodes._badge_for_metadata.
    rewrite resolve_path_found with (f := cv) by exact H. fold rel.
    clearbody rel. cbn [bind]. f_equal. unfold Shortcodes._badge. cbn.
    repeat (rewrite <- !app_assoc; cbn). reflexivity. }
  destruct (str_eqb t (u "multiple")); [|discriminate].
  injection Hl as <- <- <-. unfold Shortcodes._badge_for_multiple.
  rewrite resolve_path_found with (f := cv) by exact H. fold rel.
  clearbody rel. cbn [bind]. f_equal. unfold Shortcodes._badge. cbn.
  repeat (rewrite <- !app_assoc; cbn). reflexivity.
Qed.

(** ** The last component of an option and of a setting *)

Lemma pieces_plain (P : char -> bool) : forall s,
  existsb P s = false ->
  pieces (map (fun x => if P x then Hit [x] [] else Txt x) s) = [s].
Proof.
  induction s as [|x s IH]; [reflexivity|].
  cbn [existsb map]. destruct (P x); [discriminate|].
  cbn [orb pieces]. intros H. now rewrite IH.
Qed.

Lemma pieces_last (P : char -> bool) c name :
  P c = true -> existsb P name = false ->
  forall pre,
  exists front,
    front <> [] /\
    pieces (map (fun x => if P x then Hit [x] [] else Txt x)
              (pre ++ c :: name)) = front ++ [name].
Proof.
  intros Hc Hn. induction pre as [|x pre (front & Hf & IH)].
  - exists [[]]. split; [discriminate|].
    cbn [app map]. rewrite Hc. cbn [pieces].
    now rewrite pieces_plain.
  - cbn [app map]. destruct (P x); cbn [pieces]; rewrite IH.
    + exists ([] :: front). split; [discriminate|reflexivity].
    + destruct front as [|a front]; [congruence|].
      exists ((x :: a) :: front). split; [discriminate|reflexivity].
Qed.

Lemma unpack_last_name front (name : str) :
  front <> [] -> Shortcodes.unpack_last (front ++ [name]) = OK name.
Proof.
  intros H. destruct front as [|a front]; [congruence|].
  unfold Shortcodes.unpack_last.
  rewrite last_last.
  destruct front; reflexivity.
Qed.

(** X15.  For an option with a [.] or a [:] in its name, the text of
    the link is what stands after the last of them, and the whole name is
    the anchor and the id. *)
Theorem option_last_component pre c name :
  option_sep c = true -> existsb option_sep name = false ->
  let type := pre ++ c :: name in
  Shortcodes.option type =
  OK (u "[`" ++ name ++ u "`](#+" ++ type ++ u "){ #+" ++ type ++ u " }"
      ++ [LF; LF]).
Proof.
  intros Hc Hn type. unfold Shortcodes.option, Shortcodes.RE_OPTION_SEP.
  unfold re_split. rewrite scan_once.
  destruct (pieces_last
              (in_class false (AnyOf [Chr (ch "."); Chr (ch ":")])) c name)
    with (pre := pre) as (front & Hf & E).
  - now rewrite option_sep_class.
  - now rewrite (existsb_ext _ _ name option_sep_class).
  - unfold type. rewrite E, unpack_last_name by assumption. reflexivity.
Qed.

(** X16.  For a setting with a [.] or a [*] in its name, the text
    shown is what stands after the last of them, and the whole name is the
    id and the name of the link reference. *)
Theorem setting_last_component pre c name :
  setting_sep c = true -> existsb setting_sep name = false ->
  let type := pre ++ c :: name in
  Shortcodes.setting type =
  OK (u "`" ++ name ++ u "` { #" ++ type ++ u " }" ++ [LF; LF]
      ++ u "[" ++ type ++ u "]: #" ++ type ++ [LF; LF]).
Proof.
  intros Hc Hn type. unfold Shortcodes.setting, Shortcodes.RE_SETTING_SEP.
  unfold re_split. rewrite scan_once.
  destruct (pieces_last
              (in_class false (AnyOf [Chr (ch "."); Chr (ch "*")])) c name)
    with (pre := pre) as (front & Hf & E).
  - now rewrite setting_sep_class.
  - now rewrite (existsb_ext _ _ name setting_sep_class).
  - unfold type. rewrite E, unpack_last_name by assumption. reflexivity.
Qed.

End TagBehaviour.

Section VersionBadge.
Context {L : PyLib}.

(** X17.  For a version that is not empty, on a site with
    [changelog.md], the badge holds the icon and a text span that shows
    the version as it is written and links to the changelog, relative to
    the current page and without the first segment, at the anchor that is
    the version up to its first [#]. *)
Theorem version_badge_link text page files cl :
  truthy text = true ->
  get_file_from_path files (u "changelog.md") = Some cl ->
  Shortcodes._badge_for_version text page files =
  OK (u "<span class=" ++ dq ++ u "mdx-badge" ++ dq ++ u ">" ++
      u "<span class=" ++ dq ++ u "mdx-badge__icon" ++ dq ++ u ">" ++
      u "[:material-tag-outline:]('Minimum nextest version')</span>" ++
      u "<span class=" ++ dq ++ u "mdx-badge__text" ++ dq ++ u ">" ++
      u "[" ++ text ++ u "](" ++
      after (ch "/") (relpath (src_uri cl) (src_uri (file page))) ++
      (if truthy (before (ch "#") text)
       then u "#" ++ before (ch "#") text else []) ++
      u ")</span></span>").
Proof.
  intros Ht H. unfold Shortcodes._badge_for_version. rewrite Ht.
  rewrite resolve_path_eq.
  change (u "changelog.md#" ++ text) with (u "changelog.md" ++ ch "#" :: text).
  rewrite before_app, after_app by reflexivity. rewrite H.
  cbn [bind]. f_equal.
  set (rel := after (ch "/") _). set (anchor := if truthy _ then _ else _).
  clearbody rel anchor. destruct text as [|c text]; [discriminate|].
  unfold Shortcodes._badge. cbn.
  repeat (rewrite <- !app_assoc; cbn). reflexivity.
Qed.

(** X18.  [_badge_for_version] raises in one case only: the version is
    not empty and the site has no [changelog.md].  The empty version never
    looks at the files. *)
Theorem version_badge_raises text page files e :
  Shortcodes._badge_for_version text page files = Raise e <->
  e = AttributeError /\ text <> [] /\
  get_file_from_path files (u "changelog.md") = None.
Proof.
  unfold Shortcodes._badge_for_version.
  destruct text as [|c text].
  - cbn. split; [discriminate|]. intros (_ & H & _). congruence.
  - cbn [truthy]. rewrite resolve_path_eq.
    change (u "changelog.md#" ++ c :: text)
      with (u "changelog.md" ++ ch "#" :: c :: text).
    rewrite before_app by reflexivity.
    destruct (get_file_from_path files (u "changelog.md")); cbn [bind].
    + split; [discriminate|]. intros (_ & _ & H). discriminate.
    + split.
      * intros H. injection H as <-. repeat split. discriminate.
      * now intros (-> & _).
Qed.

(** ** White space around the argument *)

Lemma lstrip_spaces : forall ws s,
  forallb isspace ws = true -> lstrip (ws ++ s) = lstrip s.
Proof.
  induction ws as [|c ws IH]; intros s H; [reflexivity|].
  cbn in *. apply andb_true_iff in H as [-> H]. now apply IH.
Qed.

Lemma rstrip_spaces s ws :
  forallb isspace ws = true -> rstrip (s ++ ws) = rstrip s.
Proof.
  intros H. unfold rstrip. rewrite rev_app_distr, lstrip_spaces; auto.
  now rewrite forallb_rev.
Qed.

Lemma strip_spaces ws s ws' :
  forallb isspace ws = true -> forallb isspace ws' = true ->
  strip (ws ++ s ++ ws') = strip s.
Proof.
  intros H H'. unfold strip. rewrite lstrip_spaces by assumption.
  induction s as [|c s IH].
  - cbn [app]. rewrite <- (app_nil_r ws') at 1.
    rewrite lstrip_spaces by assumption. reflexivity.
  - cbn [app lstrip]. destruct (isspace c); [exact IH|].
    now rewrite app_comm_cons, rstrip_spaces.
Qed.

(** X19.  White space around the argument of a shortcode does not
    change what [replace] returns. *)
Theorem replace_trims ws args ws' tag page files :
  forallb isspace ws = true -> forallb isspace ws' = true ->
  Shortcodes.replace page files [tag; ws ++ args ++ ws'] =
  Shortcodes.replace page files [tag; args].
Proof.
  intros H H'. unfold Shortcodes.replace. now rewrite strip_spaces.
Qed.

End VersionBadge.

Section PageBehaviour.
Context {L : PyLib}.

(** A match of the shortcode pattern starts with an opener. *)
Lemma match_opener adv s m :
  match_at true Shortcodes.RE_SHORTCODE adv s = Some m ->
  is_opener (firstn 8 s) = true.
Proof.
  intros H. pose proof (match_at_end _ _ _ _ H) as [Hlen _].
  apply shortcode_sound in H as (o & tag & args & Ho & _ & _ & _ & Hh).
  unfold hit in Hh. injection Hh as Hh _.
  assert (Hs : s = o ++ (tag ++ args ++ u " -->") ++ skipn (m_end m) s).
  { rewrite <- (firstn_skipn (m_end m) s) at 1. rewrite Hh.
    now rewrite <- !app_assoc. }
  assert (Ho8 : length o = 8).
  { apply is_opener_eq in Ho as (a & b & -> & _). reflexivity. }
  rewrite Hs, <- Ho8, firstn_exact. exact Ho.
Qed.

Lemma scan_plain : forall s,
  has_opener s = false ->
  scan true Shortcodes.RE_SHORTCODE 0 s = map Txt s.
Proof.
  induction s as [|c s IH]; intros H.
  - apply scan_end.
    destruct (match_at true Shortcodes.RE_SHORTCODE false []) eqn:E;
      [|reflexivity].
    apply match_opener in E. discriminate.
  - cbn [has_opener] in H. apply orb_false_iff in H as [Ho Hs].
    rewrite scan_txt.
    + cbn [map]. now rewrite IH.
    + destruct (match_at true Shortcodes.RE_SHORTCODE false (c :: s)) eqn:E;
        [|reflexivity].
      apply match_opener in E. congruence.
Qed.

Lemma sequence_txt (repl : str -> list str -> result str) : forall s l,
  sequence (map (expand repl) (map Txt s ++ l)) =
  (xs <- sequence (map (expand repl) l) ;; OK (map (fun c => [c]) s ++ xs)).
Proof.
  induction s as [|c s IH]; intros l.
  - cbn [map app]. now destruct (sequence _).
  - cbn [map app sequence expand bind]. rewrite IH.
    now destruct (sequence _).
Qed.

Lemma concat_chars (s : str) : concat (map (fun c => [c]) s) = s.
Proof. induction s as [|c s IH]; [reflexivity|]. cbn. now rewrite IH. Qed.

(** X20.  A page in which [<!-- md:] (with [md] in either case)
    stands nowhere is returned as it is: other comments and tags are not
    touched, and nothing is raised. *)
Theorem page_without_opener md page files :
  has_opener md = false ->
  Shortcodes.on_page_markdown md page files = OK md.
Proof.
  intros H. unfold Shortcodes.on_page_markdown, re_sub_with.
  rewrite scan_plain by assumption.
  rewrite <- (app_nil_r (map Txt md)), sequence_txt.
  cbn [map sequence bind]. now rewrite app_nil_r, concat_chars.
Qed.

(** An opener does not reach over the [<] of the next one. *)
Lemma opener_straddle a r :
  is_opener (firstn 8 (a ++ ch "<" :: r)) = true ->
  a = [] \/ 8 <= length a.
Proof.
  intros H. destruct a as [|x a]; [now left|]. right.
  destruct (le_lt_dec 8 (length (x :: a))) as [|Hlt]; [assumption|exfalso].
  apply is_opener_eq in H as (m & d & E & Hm & Hd).
  apply (f_equal (fun l => nth (length (x :: a)) l 0%N)) in E.
  rewrite nth_firstn in E.
  replace (length (x :: a) <? 8) with true in E
    by (symmetry; now apply Nat.ltb_lt).
  rewrite nth_middle in E.
  cbn [length] in Hlt, E.
  destruct (length a) as [|[|[|[|[|[|[|n]]]]]]]; cbn in E;
    try discriminate; try lia.
  - subst m. vm_compute in Hm. discriminate.
  - subst d. vm_compute in Hd. discriminate.
Qed.

Lemma scan_before : forall pre r,
  has_opener pre = false ->
  scan true Shortcodes.RE_SHORTCODE 0 (pre ++ ch "<" :: r) =
  map Txt pre ++ scan true Shortcodes.RE_SHORTCODE 0 (ch "<" :: r).
Proof.
  induction pre as [|c pre IH]; intros r H; [reflexivity|].
  cbn [has_opener] in H. apply orb_false_iff in H as [Ho Hs].
  cbn [app map]. rewrite scan_txt; [now rewrite IH|].
  destruct (match_at true Shortcodes.RE_SHORTCODE false
              (c :: pre ++ ch "<" :: r)) eqn:E; [|reflexivity].
  apply match_opener in E.
  change (c :: pre ++ ch "<" :: r) with ((c :: pre) ++ ch "<" :: r) in E.
  destruct (opener_straddle _ _ E) as [|Hlen]; [discriminate|].
  rewrite firstn_app in E.
  replace (8 - length (c :: pre)) with 0 in E by lia.
  rewrite firstn_O, app_nil_r in E. congruence.
Qed.

(** X21.  The first shortcode of a page: when no opener stands in the
    text in front of it, the page expands to that text as it is, then what
    [replace] returns for the tag and the argument, then the expansion of
    the rest of the page.  An exception of [replace] is the result for the
    page, whatever the rest is. *)
Theorem expansion_around pre opener tag args post page files :
  has_opener pre = false ->
  is_opener opener = true ->
  truthy tag = true -> forallb word_char tag = true ->
  arg_text args = true ->
  Shortcodes.on_page_markdown
    (pre ++ opener ++ tag ++ args ++ u " -->" ++ post) page files =
  (out <- Shortcodes.replace page files [tag; args] ;;
   rest <- Shortcodes.on_page_markdown post page files ;;
   OK (pre ++ out ++ rest)).
Proof.
  intros Hpre Ho Ht Hw Ha.
  pose proof (shortcode_match opener tag args post Ho Ht Hw Ha) as Hm.
  assert (Hlen : length opener = 8).
  { apply is_opener_eq in Ho as (m & d & -> & _). reflexivity. }
  pose proof (hit_shortcode opener tag args (u " -->") post Hlen) as Hhit.
  assert (Ho1 : exists o, opener = ch "<" :: o).
  { apply is_opener_eq in Ho as (m & d & -> & _). eexists. reflexivity. }
  destruct Ho1 as (o & ->).
  unfold Shortcodes.on_page_markdown, re_sub_with.
  cbn [app] in *. rewrite scan_before by assumption.
  erewrite scan_hit; [| exact Hm | reflexivity].
  rewrite Hhit.
  replace (o ++ tag ++ args ++ u " -->" ++ post)
    with ((o ++ tag ++ args ++ u " -->") ++ post)
    by (now rewrite <- !app_assoc).
  replace (length (o ++ tag ++ args ++ u " -->" ++ []))
    with (length (o ++ tag ++ args ++ u " -->")) by (now rewrite app_nil_r).
  rewrite scan_skip, sequence_txt.
  cbn [map sequence expand].
  destruct (Shortcodes.replace page files [tag; args]) as [out|e];
    cbn [bind]; [|reflexivity].
  destruct (sequence _) as [xs|e]; cbn [bind]; [|reflexivity].
  rewrite concat_app, concat_chars. reflexivity.
Qed.

End PageBehaviour.

Section LineBehaviour.
Context {L : PyLib}.

Lemma occurs_here p s : startswith p s = true -> occurs p s = true.
Proof. intros H. destruct s; cbn [occurs]; now rewrite H. Qed.

(** A text whose first line holds [ -->]. *)
Lemma occurs_on_line tail : forall w,
  forallb (fun x => negb (N.eqb x LF)) w = true ->
  occurs (u " -->") (before LF (w ++ u " -->" ++ tail)) = true.
Proof.
  induction w as [|x w IH]; intros H; [reflexivity|].
  cbn [forallb] in H. apply andb_true_iff in H as [Hx Hw].
  cbn [app before]. destruct (N.eqb x LF); [discriminate|].
  cbn [occurs]. rewrite IH by assumption. apply orb_true_r.
Qed.

Lemma word_char_line c : word_char c = true -> negb (N.eqb c LF) = true.
Proof.
  intros H. destruct (N.eqb_spec c LF) as [->|]; [|reflexivity].
  vm_compute in H. discriminate.
Qed.

(** A match of the shortcode pattern starts at an opener and ends on
    the same line. *)
Lemma match_start adv s m :
  match_at true Shortcodes.RE_SHORTCODE adv s = Some m ->
  may_start s = true.
Proof.
  intros H. unfold may_start. rewrite (match_opener _ _ H). cbn [andb].
  pose proof (match_at_end _ _ _ _ H) as [Hlen _].
  apply shortcode_sound in H as (o & tag & args & Ho & _ & Hw & Ha & Hh).
  unfold hit in Hh. injection Hh as Hh _.
  assert (Hs : exists tail, s = (o ++ tag ++ args) ++ u " -->" ++ tail).
  { exists (skipn (m_end m) s).
    rewrite <- (firstn_skipn (m_end m) s) at 1. rewrite Hh.
    now rewrite <- !app_assoc. }
  destruct Hs as (tail & ->).
  apply occurs_on_line.
  rewrite !forallb_app.
  apply andb_true_iff. split; [|apply andb_true_iff; split; [|exact Ha]].
  - apply is_opener_eq in Ho as (a & b & -> & Hm & Hd).
    cbn. rewrite andb_true_r.
    destruct (N.eqb_spec a LF) as [->|]; [vm_compute in Hm; discriminate|].
    destruct (N.eqb_spec b LF) as [->|]; [vm_compute in Hd; discriminate|].
    reflexivity.
  - apply (forallb_impl word_char); [|assumption].
    apply word_char_line.
Qed.

Lemma scan_no_start : forall s,
  has_start s = false ->
  scan true Shortcodes.RE_SHORTCODE 0 s = map Txt s.
Proof.
  induction s as [|c s IH]; intros H.
  - apply scan_end.
    destruct (match_at true Shortcodes.RE_SHORTCODE false []) eqn:E;
      [|reflexivity].
    apply match_opener in E. discriminate.
  - cbn [has_start] in H. apply orb_false_iff in H as [Ho Hs].
    rewrite scan_txt.
    + cbn [map]. now rewrite IH.
    + destruct (match_at true Shortcodes.RE_SHORTCODE false (c :: s)) eqn:E;
        [|reflexivity].
      apply match_start in E. congruence.
Qed.

(** X22.  A comment is a shortcode only when its [ -->] is on the
    line of its opener.  A page in which no opener has a [ -->] after it
    on the same line is returned as it is, and nothing is raised, whatever
    the tags are. *)
Theorem comment_open_at_line_end md page files :
  has_start md = false ->
  Shortcodes.on_page_markdown md page files = OK md.
Proof.
  intros H. unfold Shortcodes.on_page_markdown, re_sub_with.
  rewrite scan_no_start by assumption.
  rewrite <- (app_nil_r (map Txt md)), sequence_txt.
  cbn [map sequence bind]. now rewrite app_nil_r, concat_chars.
Qed.

End LineBehaviour.

Section PageErrors.
Context {L : PyLib}.

Lemma sequence_raise_in {A} : forall (l : list (result A)) e,
  sequence l = Raise e -> In (Raise e) l.
Proof.
  induction l as [|m l IH]; intros e H; [discriminate|].
  cbn [sequence] in H. destruct m as [a|e']; cbn [bind] in H.
  - right. apply IH. destruct (sequence l); [discriminate|].
    cbn [bind] in H. exact H.
  - left. congruence.
Qed.

(** What [replace] can raise on a site that has the two pages. *)
Lemma replace_raises page files cl cv tag args e :
  get_file_from_path files (u "changelog.md") = Some cl ->
  get_file_from_path files (u "conventions.md") = Some cv ->
  Shortcodes.replace page files [tag; args] = Raise e ->
  e = ValueError \/
  (exists word, e = RuntimeError (u "Unknown shortcode: " ++ word)) \/
  (exists word, e = RuntimeError (u "Unknown type: " ++ word)).
Proof.
  intros Hcl Hcv H. unfold Shortcodes.replace in H.
  destruct (str_eqb tag (u "version")).
  { destruct (version_outcome (strip args) page files Hcl) as (out & E).
    rewrite E in H. discriminate. }
  destruct (str_eqb tag (u "flag")).
  { destruct (flag_outcome (strip args) page files Hcv)
      as [(out & E)|(Hk & E)]; rewrite E in H; [discriminate|].
    injection H as <-. right. right. eexists. reflexivity. }
  destruct (str_eqb tag (u "option")).
  { destruct (option_outcome (strip args)) as [H1 H2].
    destruct (existsb option_sep (strip args)).
    - destruct (H1 eq_refl) as (out & E). rewrite E in H. discriminate.
    - rewrite (H2 eq_refl) in H. injection H as <-. auto. }
  destruct (str_eqb tag (u "setting")).
  { destruct (setting_outcome (strip args)) as [H1 H2].
    destruct (existsb setting_sep (strip args)).
    - destruct (H1 eq_refl) as (out & E). rewrite E in H. discriminate.
    - rewrite (H2 eq_refl) in H. injection H as <-. auto. }
  injection H as <-. right. left. eexists. reflexivity.
Qed.

(** X23.  On a site that has the two pages, the expansion of a page
    raises nothing but a [ValueError] (an option or a setting without its
    separator) and the two errors for a name that is not known, each with
    the name in its message. *)
Theorem page_exceptions md page files cl cv e :
  get_file_from_path files (u "changelog.md") = Some cl ->
  get_file_from_path files (u "conventions.md") = Some cv ->
  Shortcodes.on_page_markdown md page files = Raise e ->
  e = ValueError \/
  (exists word, e = RuntimeError (u "Unknown shortcode: " ++ word)) \/
  (exists word, e = RuntimeError (u "Unknown type: " ++ word)).
Proof.
  intros Hcl Hcv H. unfold Shortcodes.on_page_markdown, re_sub_with in H.
  destruct (sequence _) as [parts|e'] eqn:E; [discriminate|].
  cbn [bind] in H. injection H as ->.
  apply sequence_raise_in in E. apply in_map_iff in E as (x & Hx & Hin).
  apply scan_hits in Hin as [(c & ->)|(s' & adv & m & Hm & ->)];
    [discriminate|].
  apply shortcode_sound in Hm as (o & tag & args & _ & _ & _ & _ & Hh).
  rewrite Hh in Hx. cbn [expand] in Hx.
  now apply replace_raises with (page := page) (files := files) (cl := cl)
    (cv := cv) (tag := tag) (args := args).
Qed.

End PageErrors.

(** * The theorems at concrete headings and pages

    Everything below runs the code with the library [Plain], on the site
    [site_files] and the page [site_page]. *)

(** Two spaces give two hyphens, not one. *)
Lemma slug_runs_counterexample :
  @re_match Plain false Slugs.RE_CHANGELOG (u "a  b") = None /\
  @Slugs._make_slug Plain (u "a  b") (u "-") = OK (u "a--b") /\
  @slug_steps_runs Plain (u "a  b") (u "-") = u "a-b" /\
  @Slugs._make_slug Plain (u "a  b") (u "-") <>
    OK (@slug_steps_runs Plain (u "a  b") (u "-")).
Proof. repeat split; try reflexivity. vm_compute. discriminate. Qed.

(** A separator with a backslash is a template: with [\n] the spaces
    become line feeds, not copies of the separator. *)
Lemma template_separator_example :
  @Slugs._make_slug Excerpt (u "a b") (u "\n") = OK (u "a" ++ [LF] ++ u "b") /\
  @slug_steps Excerpt (u "a b") (u "\n") = u "a\nb".
Proof. split; reflexivity. Qed.

Lemma make_slug_steps_witness :
  @re_match Plain false Slugs.RE_CHANGELOG (u "a  b") = None /\
  existsb (N.eqb (ch "\")) (u "-") = false /\
  (@Slugs._make_slug Plain (u "a  b") (u "-") =
     OK (@slug_steps Plain (u "a  b") (u "-")) /\
   @Slugs._make_slug Plain (u "Hello, World! 123") (u "-") =
     OK (u "hello-world-123")).
Proof.
  split; [reflexivity|]. split; [reflexivity|].
  apply (@make_slug_steps Plain (u "a  b") (u "-")); reflexivity.
Defined.

(** An [option] without a separator raises a [ValueError]. *)
Lemma option_counterexample :
  @Shortcodes.on_page_markdown Plain (u "<!-- md:option foo -->")
    site_page site_files = Raise ValueError.
Proof. reflexivity. Qed.

Lemma recognized_tag_outcomes_witness :
  get_file_from_path site_files (u "changelog.md") = Some changelog_file /\
  get_file_from_path site_files (u "conventions.md") = Some conventions_file /\
  @Shortcodes.replace Plain site_page site_files [u "option"; u " foo"] =
    Raise ValueError.
Proof.
  split; [reflexivity|]. split; [reflexivity|].
  apply (@recognized_tag_outcomes Plain site_page site_files
           changelog_file conventions_file (u "option") (u " foo"));
    reflexivity.
Defined.

(** A page with a shortcode that is not known, and an exception that
    does not carry its tag. *)
Lemma unknown_shortcode_counterexample :
  @scan Plain true Shortcodes.RE_SHORTCODE 0
    (u "<!-- md:option x --><!-- md:bogus y -->") =
    [Hit (u "<!-- md:option x -->") [u "option"; u " x"];
     Hit (u "<!-- md:bogus y -->") [u "bogus"; u " y"]] /\
  @offending Plain (u "bogus") (u " y") = Some (u "Unknown shortcode: bogus") /\
  @Shortcodes.on_page_markdown Plain
    (u "<!-- md:option x --><!-- md:bogus y -->") site_page site_files =
    Raise ValueError.
Proof. repeat split; reflexivity. Qed.

Lemma unknown_shortcode_first_witness :
  @scan Plain true Shortcodes.RE_SHORTCODE 0
    (u "a<!-- md:version 1.0 --><!-- md:bogus y --><!-- md:option x -->") =
    ([Txt (ch "a");
      Hit (u "<!-- md:version 1.0 -->") [u "version"; u " 1.0"]] ++
     Hit (u "<!-- md:bogus y -->") [u "bogus"; u " y"] ::
     [Hit (u "<!-- md:option x -->") [u "option"; u " x"]]) /\
  forallb
    (fun x => succeeds
                (expand (fun _ gs =>
                           @Shortcodes.replace Plain site_page site_files gs)
                   x))
    [Txt (ch "a"); Hit (u "<!-- md:version 1.0 -->") [u "version"; u " 1.0"]]
    = true /\
  @offending Plain (u "bogus") (u " y") = Some (u "Unknown shortcode: bogus") /\
  @Shortcodes.on_page_markdown Plain
    (u "a<!-- md:version 1.0 --><!-- md:bogus y --><!-- md:option x -->")
    site_page site_files =
    Raise (RuntimeError (u "Unknown shortcode: bogus")).
Proof.
  split; [reflexivity|]. split; [reflexivity|]. split; [reflexivity|].
  apply (@unknown_shortcode_first Plain _ site_page site_files
           [Txt (ch "a");
            Hit (u "<!-- md:version 1.0 -->") [u "version"; u " 1.0"]]
           (u "<!-- md:bogus y -->") (u "bogus") (u " y")
           [Hit (u "<!-- md:option x -->") [u "option"; u " x"]]);
    reflexivity.
Defined.

(** A tag in upper case is not known. *)
Lemma upper_case_tag_counterexample :
  @Shortcodes.on_page_markdown Plain (u "<!-- md:VERSION 1.0 -->")
    site_page site_files =
  Raise (RuntimeError (u "Unknown shortcode: VERSION")).
Proof. reflexivity. Qed.

Lemma shortcode_case_witness :
  @is_opener Plain (u "<!-- MD:") = true /\
  truthy (u "version") = true /\
  forallb (@word_char Plain) (u "version") = true /\
  @arg_text Plain (u " 1.0") = true /\
  @Shortcodes.on_page_markdown Plain
    (u "<!-- MD:" ++ u "version" ++ u " 1.0" ++ u " -->")
    site_page site_files =
  @Shortcodes.replace Plain site_page site_files [u "version"; u " 1.0"].
Proof.
  do 4 (split; [reflexivity|]).
  apply (@shortcode_case Plain (u "<!-- MD:") (u "version") (u " 1.0")
           site_page site_files); reflexivity.
Defined.

(** A path with a second [#]: what follows the first [#] is not what
    comes back. *)
Lemma resolve_path_counterexample :
  after (ch "#") (u "changelog.md##b") = u "#b" /\
  @Shortcodes._resolve_path Plain (u "changelog.md##b") site_page site_files
    = OK (u "../changelog.md") /\
  after (ch "#") (u "changelog.md#a#b") = u "a#b" /\
  @Shortcodes._resolve_path Plain (u "changelog.md#a#b") site_page site_files
    = OK (u "../changelog.md#a") /\
  @Shortcodes._resolve_path Plain (u "changelog.md#a#b") site_page site_files
    <> OK (u "../changelog.md#a#b").
Proof. repeat split; try reflexivity. vm_compute. discriminate. Qed.

Lemma resolve_path_anchor_witness :
  get_file_from_path site_files (before (ch "#") (u "changelog.md#0.9.0")) =
    Some changelog_file /\
  get_file_from_path site_files (u "changelog.md") = Some changelog_file /\
  @Shortcodes._resolve_path Plain (u "changelog.md#0.9.0")
    site_page site_files = OK (u "../changelog.md#0.9.0").
Proof.
  split; [reflexivity|]. split; [reflexivity|].
  apply (@resolve_path_anchor Plain (u "changelog.md#0.9.0")
           site_page site_files changelog_file changelog_file); reflexivity.
Defined.

Lemma make_slug_changelog_witness :
  @re_match Plain false Slugs.RE_CHANGELOG (u "Release Notes - 2024-01-15") =
    Some {| m_end := 26; m_spans := [(1, (0, 13))] |} /\
  @Slugs._make_slug Plain (u "Release Notes - 2024-01-15") (u "-") =
    OK (u "Release Notes").
Proof.
  split; [reflexivity|].
  apply (@make_slug_changelog Plain (u "Release Notes - 2024-01-15") (u "-")
           {| m_end := 26; m_spans := [(1, (0, 13))] |}); reflexivity.
Defined.

Lemma expansion_in_place_witness :
  @parts Plain 0 (u "a <!-- md:flag experimental --> b") =
    [Keep (ch "a"); Keep (ch " ");
     Comment (u "<!-- md:flag experimental -->") (u "flag")
       (u " experimental");
     Keep (ch " "); Keep (ch "b")] /\
  @Shortcodes.on_page_markdown Plain (u "a <!-- md:flag experimental --> b")
    site_page site_files =
    (outs <- sequence
               (map (@render Plain site_page site_files)
                  (@parts Plain 0 (u "a <!-- md:flag experimental --> b"))) ;;
     OK (concat outs)) /\
  @Shortcodes.on_page_markdown Plain (u "a <!-- md:flag experimental --> b")
    site_page site_files =
    OK (u "a " ++
        u "<span class=" ++ dq ++ u "mdx-badge" ++ dq ++ u ">" ++
        u "<span class=" ++ dq ++ u "mdx-badge__icon" ++ dq ++ u ">" ++
        u ":material-flask-outline:</span></span>" ++ u " b").
Proof.
  split; [reflexivity|]. split; [|reflexivity].
  apply (@expansion_in_place Plain (u "a <!-- md:flag experimental --> b")
           site_page site_files).
Defined.

(** The short slug with an empty separator. *)
Lemma empty_separator_counterexample :
  @Slugs._make_slug Plain (u "one two") [] = OK (u "onetwo") /\
  @Slugs._make_slug_short Plain (u "one two") [] = Raise ValueError.
Proof. split; reflexivity. Qed.

Lemma make_slug_short_words_witness :
  truthy (u "-") = true /\
  @Slugs._make_slug Plain (u "one two three four five six seven") (u "-") =
    OK (u "one-two-three-four-five-six-seven") /\
  @Slugs._make_slug_short Plain (u "one two three four five six seven")
    (u "-") = OK (u "one-two-three-four-five").
Proof.
  split; [reflexivity|]. split; [reflexivity|].
  apply (@make_slug_short_words Plain (u "one two three four five six seven")
           (u "-") (u "one-two-three-four-five-six-seven")); reflexivity.
Defined.

(** A separator that the slug generator removes. *)
Lemma idempotence_counterexample :
  @re_match Plain false Slugs.RE_CHANGELOG (u "a b") = None /\
  @re_match Plain false Slugs.RE_CHANGELOG (u "a!b") = None /\
  @Slugs._make_slug Plain (u "a b") (u "!") = OK (u "a!b") /\
  @Slugs._make_slug Plain (u "a!b") (u "!") = OK (u "ab").
Proof. repeat split; reflexivity. Qed.

(** Outside ASCII a slug need not be a fixed point even with a hyphen:
    the slug of U+0130 is [i] with the combining dot, whose slug is [i]. *)
Lemma idempotence_dotted_example :
  @Slugs._make_slug Excerpt [304%N] (u "-") = OK [105%N; 775%N] /\
  @Slugs._make_slug Excerpt [105%N; 775%N] (u "-") = OK [105%N].
Proof. split; reflexivity. Qed.

Lemma make_slug_idempotent_witness :
  forallb is_ascii (u "Hello, World! 123") = true /\
  forallb stable_char (u "-") = true /\
  @re_match Plain false Slugs.RE_CHANGELOG (u "Hello, World! 123") = None /\
  exists slug,
    @Slugs._make_slug Plain (u "Hello, World! 123") (u "-") = OK slug /\
    @re_match Plain false Slugs.RE_CHANGELOG slug = None /\
    @Slugs._make_slug Plain slug (u "-") = OK slug.
Proof.
  do 3 (split; [reflexivity|]).
  apply (@make_slug_idempotent Plain (u "Hello, World! 123") (u "-"));
    reflexivity.
Defined.

(** A title with a line feed: the pattern does not match. *)
Lemma changelog_rest_counterexample :
  @re_match Plain false Slugs.RE_CHANGELOG
    (u "a" ++ [LF] ++ u "b - 2024-01-15 beta") = None /\
  @Slugs._make_slug Plain (u "a" ++ [LF] ++ u "b - 2024-01-15 beta") (u "-") =
    OK (u "ab---2024-01-15-beta") /\
  @Slugs._make_slug Plain (u "a" ++ [LF] ++ u "b - 2024-01-15 beta") (u "-") <>
    OK (@strip Plain (u "a" ++ [LF] ++ u "b")).
Proof. repeat split; try reflexivity. vm_compute. discriminate. Qed.

Lemma make_slug_changelog_rest_witness :
  forallb (fun c => negb (N.eqb c LF)) (u "Release") = true /\
  @is_digits Plain 4 (u "2024") = true /\
  @is_digits Plain 2 (u "01") = true /\
  @is_digits Plain 2 (u "15") = true /\
  @Slugs._make_slug Plain (u "Release - 2024-01-15 beta") (u "-") =
    OK (u "Release").
Proof.
  do 4 (split; [reflexivity|]).
  apply (@make_slug_changelog_rest Plain (u "Release") (u "2024") (u "01")
           (u "15") (u " beta") (u "-")); reflexivity.
Defined.

(** ** Further properties at concrete headings and pages *)

Lemma make_slug_nothing_kept_witness :
  forallb is_ascii (u "?!...") = true /\
  forallb (fun c => negb (@slug_char Plain c)) (u "?!...") = true /\
  existsb (N.eqb (ch "\")) (u "-") = false /\
  @Slugs._make_slug Plain (u "?!...") (u "-") = OK [].
Proof.
  do 3 (split; [reflexivity|]).
  apply (@make_slug_nothing_kept Plain (u "?!...") (u "-")); reflexivity.
Defined.

Lemma make_slug_alphabet_witness :
  forallb is_ascii (u "Hello, World! 123") = true /\
  @re_match Plain false Slugs.RE_CHANGELOG (u "Hello, World! 123") = None /\
  existsb (N.eqb (ch "\")) (u "-") = false /\
  exists slug,
    @Slugs._make_slug Plain (u "Hello, World! 123") (u "-") = OK slug /\
    forallb (fun c => stable_char c || existsb (N.eqb c) (u "-")) slug = true.
Proof.
  do 3 (split; [reflexivity|]).
  apply (@make_slug_alphabet Plain (u "Hello, World! 123") (u "-"));
    reflexivity.
Defined.

Lemma make_slug_ignores_case_witness :
  forallb is_ascii (u "Hello World") = true /\
  @re_match Plain false Slugs.RE_CHANGELOG (u "Hello World") = None /\
  @Slugs._make_slug Plain (@lower Plain (u "Hello World")) (u "-") =
  @Slugs._make_slug Plain (u "Hello World") (u "-").
Proof.
  do 2 (split; [reflexivity|]).
  apply (@make_slug_ignores_case Plain (u "Hello World") (u "-"));
    reflexivity.
Defined.

Lemma make_slug_skips_removed_witness :
  forallb is_ascii (u "Hello" ++ ch "," :: u " World") = true /\
  @slug_char Plain (ch ",") = false /\
  ch "," <> ch "<" /\ ch "," <> ch ">" /\
  @re_match Plain false Slugs.RE_CHANGELOG
    (u "Hello" ++ ch "," :: u " World") = None /\
  @re_match Plain false Slugs.RE_CHANGELOG (u "Hello" ++ u " World") = None /\
  @Slugs._make_slug Plain (u "Hello" ++ ch "," :: u " World") (u "-") =
  @Slugs._make_slug Plain (u "Hello" ++ u " World") (u "-").
Proof.
  do 2 (split; [reflexivity|]).
  do 2 (split; [discriminate|]).
  do 2 (split; [reflexivity|]).
  apply (@make_slug_skips_removed Plain (u "Hello") (ch ",") (u " World")
           (u "-")); try reflexivity; discriminate.
Defined.

Lemma make_slug_skips_tag_witness :
  forallb is_ascii
    (u "Use " ++ u "<" ++ u "code" ++ u ">" ++ u "x</code> now") = true /\
  existsb (N.eqb (ch "<")) (strip_tags false (u "Use ")) = false /\
  existsb (N.eqb (ch ">")) (u "code") = false /\
  @re_match Plain false Slugs.RE_CHANGELOG
    (u "Use " ++ u "<" ++ u "code" ++ u ">" ++ u "x</code> now") = None /\
  @re_match Plain false Slugs.RE_CHANGELOG (u "Use " ++ u "x</code> now")
    = None /\
  @Slugs._make_slug Plain
    (u "Use " ++ u "<" ++ u "code" ++ u ">" ++ u "x</code> now") (u "-") =
  @Slugs._make_slug Plain (u "Use " ++ u "x</code> now") (u "-").
Proof.
  do 5 (split; [reflexivity|]).
  apply (@make_slug_skips_tag Plain (u "Use ") (u "code") (u "x</code> now")
           (u "-")); reflexivity.
Defined.

Lemma make_slug_short_same_witness :
  truthy (u "-") = true /\
  @Slugs._make_slug Plain (u "One two") (u "-") = OK (u "one-two") /\
  length (@split_on (u "-") None (u "one-two")) <= 5 /\
  @Slugs._make_slug_short Plain (u "One two") (u "-") = OK (u "one-two").
Proof.
  do 2 (split; [reflexivity|]). split; [cbn; lia|].
  apply (@make_slug_short_same Plain (u "One two") (u "-") (u "one-two"));
    try reflexivity. cbn; lia.
Defined.

Lemma make_slug_short_five_witness :
  @Slugs._make_slug_short Plain (u "one two three four five six seven")
    (u "-") = OK (u "one-two-three-four-five") /\
  length (split_on (u "-") None (u "one-two-three-four-five")) <= 5 /\
  join (u "-") (firstn 5 (split_on (u "-") None (u "one-two-three-four-five")))
    = u "one-two-three-four-five".
Proof.
  split; [reflexivity|].
  apply (@make_slug_short_five Plain (u "one two three four five six seven")
           (u "-") (u "one-two-three-four-five")); reflexivity.
Defined.

Lemma resolve_path_second_hash_witness :
  existsb (N.eqb (ch "#")) (u "changelog.md") = false /\
  existsb (N.eqb (ch "#")) (u "0.9.0") = false /\
  @Shortcodes._resolve_path Plain
    (u "changelog.md" ++ u "#" ++ u "0.9.0" ++ u "#" ++ u "notes")
    site_page site_files =
  @Shortcodes._resolve_path Plain (u "changelog.md" ++ u "#" ++ u "0.9.0")
    site_page site_files.
Proof.
  do 2 (split; [reflexivity|]).
  apply (@resolve_path_second_hash Plain (u "changelog.md") (u "0.9.0")
           (u "notes") site_page site_files); reflexivity.
Defined.

Lemma flag_extra_text_witness :
  existsb (N.eqb (ch " ")) (u "required") = false /\
  @Shortcodes.flag Plain (u "required" ++ u " " ++ u "since 0.9")
    site_page site_files =
  @Shortcodes.flag Plain (u "required") site_page site_files.
Proof.
  split; [reflexivity|].
  apply (@flag_extra_text Plain (u "required") (u "since 0.9")
           site_page site_files); reflexivity.
Defined.

Lemma flag_without_conventions_witness :
  get_file_from_path empty_site (u "conventions.md") = None /\
  @Shortcodes.flag Plain (u "required") site_page empty_site =
    Raise AttributeError /\
  @Shortcodes.flag Plain (u "experimental") site_page empty_site =
    OK (u "<span class=" ++ dq ++ u "mdx-badge" ++ dq ++ u ">" ++
        u "<span class=" ++ dq ++ u "mdx-badge__icon" ++ dq ++ u ">" ++
        u ":material-flask-outline:</span></span>").
Proof.
  split; [reflexivity|]. split.
  - apply (@flag_without_conventions Plain (u "required") site_page
             empty_site); reflexivity.
  - reflexivity.
Defined.

Lemma option_last_component_witness :
  option_sep (ch ".") = true /\
  existsb option_sep (u "threads") = false /\
  @Shortcodes.option Plain (u "profile.default" ++ ch "." :: u "threads") =
  OK (u "[`threads`](#+profile.default.threads)" ++
      u "{ #+profile.default.threads }" ++ [LF; LF]).
Proof.
  do 2 (split; [reflexivity|]).
  apply (@option_last_component Plain (u "profile.default") (ch ".")
           (u "threads")); reflexivity.
Defined.

Lemma setting_last_component_witness :
  setting_sep (ch ".") = true /\
  existsb setting_sep (u "threads") = false /\
  @Shortcodes.setting Plain (u "profile" ++ ch "." :: u "threads") =
  OK (u "`threads` { #profile.threads }" ++ [LF; LF] ++
      u "[profile.threads]: #profile.threads" ++ [LF; LF]).
Proof.
  do 2 (split; [reflexivity|]).
  apply (@setting_last_component Plain (u "profile") (ch ".") (u "threads"));
    reflexivity.
Defined.

Lemma version_badge_link_witness :
  truthy (u "0.9.0#x") = true /\
  get_file_from_path site_files (u "changelog.md") = Some changelog_file /\
  @Shortcodes._badge_for_version Plain (u "0.9.0#x") site_page site_files =
  OK (u "<span class=" ++ dq ++ u "mdx-badge" ++ dq ++ u ">" ++
      u "<span class=" ++ dq ++ u "mdx-badge__icon" ++ dq ++ u ">" ++
      u "[:material-tag-outline:]('Minimum nextest version')</span>" ++
      u "<span class=" ++ dq ++ u "mdx-badge__text" ++ dq ++ u ">" ++
      u "[0.9.0#x](../changelog.md#0.9.0)</span></span>").
Proof.
  do 2 (split; [reflexivity|]).
  apply (@version_badge_link Plain (u "0.9.0#x") site_page site_files
           changelog_file); reflexivity.
Defined.

Lemma replace_trims_witness :
  forallb (@isspace Plain) (u "  ") = true /\
  forallb (@isspace Plain) (u " ") = true /\
  @Shortcodes.replace Plain site_page site_files
    [u "version"; u "  " ++ u "0.9.0" ++ u " "] =
  @Shortcodes.replace Plain site_page site_files [u "version"; u "0.9.0"].
Proof.
  do 2 (split; [reflexivity|]).
  apply (@replace_trims Plain (u "  ") (u "0.9.0") (u " ") (u "version")
           site_page site_files); reflexivity.
Defined.

Lemma page_without_opener_witness :
  @has_opener Plain (u "<!-- a note --> <b>text</b>") = false /\
  @Shortcodes.on_page_markdown Plain (u "<!-- a note --> <b>text</b>")
    site_page site_files = OK (u "<!-- a note --> <b>text</b>").
Proof.
  split; [reflexivity|].
  apply (@page_without_opener Plain (u "<!-- a note --> <b>text</b>")
           site_page site_files); reflexivity.
Defined.

Lemma expansion_around_witness :
  @has_opener Plain (u "<b>a</b> ") = false /\
  @is_opener Plain (u "<!-- md:") = true /\
  truthy (u "flag") = true /\
  forallb (@word_char Plain) (u "flag") = true /\
  @arg_text Plain (u " experimental") = true /\
  @Shortcodes.on_page_markdown Plain
    (u "<b>a</b> " ++ u "<!-- md:" ++ u "flag" ++ u " experimental" ++
     u " -->" ++ u " b") site_page site_files =
  (out <- @Shortcodes.replace Plain site_page site_files
            [u "flag"; u " experimental"] ;;
   rest <- @Shortcodes.on_page_markdown Plain (u " b") site_page site_files ;;
   OK (u "<b>a</b> " ++ out ++ rest)).
Proof.
  do 5 (split; [reflexivity|]).
  apply (@expansion_around Plain (u "<b>a</b> ") (u "<!-- md:") (u "flag")
           (u " experimental") (u " b") site_page site_files); reflexivity.
Defined.

Lemma flag_linked_badge_witness :
  get_file_from_path site_files (u "conventions.md") = Some conventions_file /\
  @linked_flag (before (ch " ") (u "multiple")) =
    Some (u "material-inbox-multiple", u "multiple-instances",
          u "Multiple instances") /\
  @Shortcodes.flag Plain (u "multiple") site_page site_files =
  OK (u "<span class=" ++ dq ++ u "mdx-badge" ++ dq ++ u ">" ++
      u "<span class=" ++ dq ++ u "mdx-badge__icon" ++ dq ++ u ">" ++
      u "[:material-inbox-multiple:]" ++
      u "(../conventions.md#multiple-instances 'Multiple instances')" ++
      u "</span></span>").
Proof.
  do 2 (split; [reflexivity|]).
  apply (@flag_linked_badge Plain (u "multiple") site_page site_files
           conventions_file (u "material-inbox-multiple")
           (u "multiple-instances") (u "Multiple instances")); reflexivity.
Defined.

Lemma comment_open_at_line_end_witness :
  @has_start Plain (u "<!-- md:bogus x" ++ [LF] ++ u " -->") = false /\
  @Shortcodes.on_page_markdown Plain
    (u "<!-- md:bogus x" ++ [LF] ++ u " -->") site_page site_files =
  OK (u "<!-- md:bogus x" ++ [LF] ++ u " -->").
Proof.
  split; [reflexivity|].
  apply (@comment_open_at_line_end Plain
           (u "<!-- md:bogus x" ++ [LF] ++ u " -->") site_page site_files);
    reflexivity.
Defined.

Lemma page_exceptions_witness :
  get_file_from_path site_files (u "changelog.md") = Some changelog_file /\
  get_file_from_path site_files (u "conventions.md") = Some conventions_file /\
  @Shortcodes.on_page_markdown Plain (u "a <!-- md:flag new --> b")
    site_page site_files = Raise (RuntimeError (u "Unknown type: new")) /\
  (RuntimeError (u "Unknown type: new") = ValueError \/
   (exists word, RuntimeError (u "Unknown type: new") =
                 RuntimeError (u "Unknown shortcode: " ++ word)) \/
   (exists word, RuntimeError (u "Unknown type: new") =
                 RuntimeError (u "Unknown type: " ++ word))).
Proof.
  do 3 (split; [reflexivity|]).
  apply (@page_exceptions Plain (u "a <!-- md:flag new --> b") site_page
           site_files changelog_file conventions_file); reflexivity.
Defined.
